(** * cbreeze: a terminal wind simulation

    A shallow embedding of [cbreeze.py].  Python floats are idealised as
    real numbers, so [sin], [cos] and [pi] are those of the Standard
    Library; Python integers are [Z].  The [random] module is an explicit
    tape of draws threaded through the code, exceptions are a result type,
    and the curses window is a grid of cells that rejects writes outside
    of it.

    The model covers [WindParticle], [WindSimulation] (without the status
    lines of [draw_ui]) and the loop of [wind_simulation].  Wall-clock
    time ([time.time], [time.sleep]) and the command line of [main] are
    left out: a tick is one turn of the loop. *)

From Stdlib Require Import String Ascii.
From Stdlib Require Import Reals Lra Lia ZArith List Bool.
From Stdlib Require Import Sorting.Sorted Permutation.
From Stdlib Require Import Zfloor.
Import ListNotations.

Open Scope R_scope.

(** ** Python numbers *)

Definition Rltb (a b : R) : bool := if Rlt_dec a b then true else false.
Definition Rleb (a b : R) : bool := if Rle_dec a b then true else false.
Definition Rgtb (a b : R) : bool := Rltb b a.
Definition Rgeb (a b : R) : bool := Rleb b a.

(** [int(x)] on a float: truncation toward zero. *)
Definition py_int (v : R) : Z := if Rle_dec 0 v then Zfloor v else Zceil v.

(** ** Exceptions and the random source *)

Inductive exn : Set := ValueError | IndexError | CursesError.

Inductive result (A : Type) : Type :=
| Ok (a : A)
| Raise (e : exn).
Arguments Ok {A} a.
Arguments Raise {A} e.

(** One cell of the tape is what one call into the generator yields: the
    float seen by [random()] and the raw index seen by the integer
    samplers ([randint], [choice]). *)
Record draw : Type := mkDraw { unit_draw : R; index_draw : nat }.

Record rng : Type := mkRng { tape : nat -> draw; pos : nat }.

Definition valid_tape (t : nat -> draw) : Prop :=
  forall n, 0 <= unit_draw (t n) < 1.

Definition M (A : Type) : Type := rng -> result (A * rng).

Definition ret {A} (a : A) : M A := fun g => Ok (a, g).

Definition raise {A} (e : exn) : M A := fun _ => Raise e.

Definition bind {A B} (m : M A) (k : A -> M B) : M B :=
  fun g => match m g with
           | Ok (a, g') => k a g'
           | Raise e => Raise e
           end.

Notation "v <- m ;; k" := (bind m (fun v => k))
  (at level 61, m at next level, right associativity).

Definition next : M draw :=
  fun g => Ok (tape g (pos g), mkRng (tape g) (S (pos g))).

(** The draw a generator is about to yield, and the generator after it. *)
Definition current (g : rng) : draw := tape g (pos g).

Definition advance (g : rng) : rng := mkRng (tape g) (S (pos g)).

Definition lift {A} (r : result A) : M A :=
  fun g => match r with Ok a => Ok (a, g) | Raise e => Raise e end.

(** [for v in l: f(v)], collecting the updated objects in order. *)
Fixpoint for_each {A B} (f : A -> M B) (l : list A) : M (list B) :=
  match l with
  | [] => ret []
  | a :: l' => b <- f a ;; bs <- for_each f l' ;; ret (b :: bs)
  end.

(** A loop that threads a value through code that may raise. *)
Fixpoint fold_result {A B} (f : B -> A -> result B) (l : list A) (b : B)
  : result B :=
  match l with
  | [] => Ok b
  | a :: l' => match f b a with
               | Ok b' => fold_result f l' b'
               | Raise e => Raise e
               end
  end.

(** [range(n)] *)
Definition range (n : Z) : list Z := map Z.of_nat (seq 0 (Z.to_nat n)).

(** The position a Python list index denotes: negative indices count from
    the end, and anything else out of range is an [IndexError]. *)
Definition py_index (len i : Z) : result nat :=
  if ((0 <=? i) && (i <? len))%Z then Ok (Z.to_nat i)
  else if ((- len <=? i) && (i <? 0))%Z then Ok (Z.to_nat (i + len))
  else Raise IndexError.

(** [l[i]] *)
Definition getitem {A} (l : list A) (i : Z) : result A :=
  match py_index (Z.of_nat (length l)) i with
  | Ok n => match nth_error l n with
            | Some a => Ok a
            | None => Raise IndexError
            end
  | Raise e => Raise e
  end.

Fixpoint replace_nth {A} (n : nat) (l : list A) (a : A) : list A :=
  match l, n with
  | [], _ => []
  | _ :: l', O => a :: l'
  | b :: l', S n' => b :: replace_nth n' l' a
  end.

(** [l[i] = a] *)
Definition setitem {A} (l : list A) (i : Z) (a : A) : result (list A) :=
  match py_index (Z.of_nat (length l)) i with
  | Ok n => Ok (replace_nth n l a)
  | Raise e => Raise e
  end.

(** [d.get(k, default)] on a dict with string keys. *)
Fixpoint dict_get {V} (d : list (string * V)) (k : string) (default : V) : V :=
  match d with
  | [] => default
  | (k', v) :: d' => if String.eqb k k' then v else dict_get d' k default
  end.

(** [str.lower()], on ASCII letters. *)
Definition lower_ascii (c : ascii) : ascii :=
  let n := nat_of_ascii c in
  if ((65 <=? n) && (n <=? 90))%nat then ascii_of_nat (n + 32) else c.

Fixpoint lower (s : string) : string :=
  match s with
  | EmptyString => EmptyString
  | String c s' => String (lower_ascii c) (lower s')
  end.

Module random.

(** [random.random()]: a float in [0, 1). *)
Definition random : M R := d <- next ;; ret (unit_draw d).

(** [random.uniform(a, b)] is [a + (b - a) * random()]. *)
Definition uniform (a b : R) : M R := u <- random ;; ret (a + (b - a) * u).

Definition randbelow (n : Z) : M Z :=
  d <- next ;; ret (Z.of_nat (index_draw d) mod n)%Z.

(** [random.randint(a, b)]: an integer of [a..b]; an empty range raises
    [ValueError]. *)
Definition randint (a b : Z) : M Z :=
  if (b <? a)%Z then raise ValueError
  else k <- randbelow (b - a + 1) ;; ret (a + k)%Z.

(** [random.choice(seq)]: an element of [seq]; an empty sequence raises
    [IndexError]. *)
Definition choice {A} (seq : list A) : M A :=
  match seq with
  | [] => raise IndexError
  | d :: _ =>
      k <- randbelow (Z.of_nat (length seq)) ;; ret (nth (Z.to_nat k) seq d)
  end.

End random.

(** ** Module constants *)

Definition UPDATE_INTERVAL : R := 0.03.

(** Glyphs are Unicode code points. *)
Definition WIND_CHARS : list Z :=
  [0xb7; 0xb0; 0x7e; 0x2234; 0x2235; 0x22ee; 0x22ef; 0xfe19; 0x2840;
   0x2844; 0x2846; 0x2847; 0x28c0; 0x28e4; 0x28e6; 0x28f6; 0x28f7; 0x28ff]%Z.

Definition WIND_PARTICLES : list Z :=
  [0x2591; 0x2592; 0x2593; 0x2588; 0x1fb86; 0x1fb87; 0x1fb88; 0x1fb89]%Z.

(** ** class WindParticle *)

Module WindParticle.

Record t : Type := mk {
  x : R;
  y : R;
  max_rows : Z;
  max_cols : Z;
  speed : R;
  char : Z;
  amplitude : R;
  frequency : R;
  phase : R;
  original_x : Z;
  lifetime : R;
  age : R;
  density_char : Z;
  density : R;
  density_mode : bool;
  layer : Z;
  opacity : R
}.

(** [WindParticle.__init__] *)
Definition init (x0 y0 rows cols : Z) (mode : bool) : M t :=
  speed' <- random.uniform 0.5 1.5 ;;
  char' <- random.choice WIND_CHARS ;;
  amplitude' <- random.uniform 0.8 3.0 ;;
  frequency' <- random.uniform 0.2 0.5 ;;
  phase' <- random.uniform 0 (2 * PI) ;;
  lifetime' <- random.uniform 2 6 ;;
  density_char' <- random.choice WIND_PARTICLES ;;
  density' <- random.random ;;
  layer' <- random.randint 1 3 ;;
  opacity' <- random.uniform 0.7 1.0 ;;
  ret (mk (IZR x0) (IZR y0) rows cols speed' char' amplitude' frequency'
          phase' x0 lifetime' 0 density_char' density' mode layer' opacity').

(** [WindParticle.reset] *)
Definition reset (p : t) : M t :=
  r <- random.random ;;
  x' <- (if Rltb r 0.3 then ret 0%Z
         else random.randint 0 (max_cols p - 1)) ;;
  y' <- random.randint 0 (max_rows p - 1) ;;
  speed' <- random.uniform 0.5 1.5 ;;
  char' <- random.choice WIND_CHARS ;;
  amplitude' <- random.uniform 0.8 3.0 ;;
  frequency' <- random.uniform 0.2 0.5 ;;
  phase' <- random.uniform 0 (2 * PI) ;;
  lifetime' <- random.uniform 2 6 ;;
  density_char' <- random.choice WIND_PARTICLES ;;
  density' <- random.random ;;
  layer' <- random.randint 1 3 ;;
  opacity' <- random.uniform 0.7 1.0 ;;
  ret (mk (IZR x') (IZR y') (max_rows p) (max_cols p) speed' char'
          amplitude' frequency' phase' (original_x p) lifetime' 0
          density_char' density' (density_mode p) layer' opacity').

Definition set_position (p : t) (x' y' : R) : t :=
  mk x' y' (max_rows p) (max_cols p) (speed p) (char p) (amplitude p)
     (frequency p) (phase p) (original_x p) (lifetime p) (age p)
     (density_char p) (density p) (density_mode p) (layer p) (opacity p).

Definition set_age (p : t) (age' : R) : t :=
  mk (x p) (y p) (max_rows p) (max_cols p) (speed p) (char p) (amplitude p)
     (frequency p) (phase p) (original_x p) (lifetime p) age'
     (density_char p) (density p) (density_mode p) (layer p) (opacity p).

Definition set_phase (p : t) (phase' : R) : t :=
  mk (x p) (y p) (max_rows p) (max_cols p) (speed p) (char p) (amplitude p)
     (frequency p) phase' (original_x p) (lifetime p) (age p)
     (density_char p) (density p) (density_mode p) (layer p) (opacity p).

(** The displacement added to [y] when the age is [a] (lines 53-55). *)
Definition wave_offset (p : t) (a : R) : R :=
  let base_wave := sin (a * frequency p * 8 + phase p) * amplitude p in
  let secondary_wave :=
    cos (a * frequency p * 4 + phase p * 2) * amplitude p * 0.3 in
  (base_wave + secondary_wave) * 0.4.

(** Lines 48-57 of [update]: the age, then [x], then [y]. *)
Definition move (p : t) (wind_strength : R) (wind_direction : Z) : t :=
  let p1 := set_age p (age p + UPDATE_INTERVAL) in
  let layer_speed := speed p1 * (1 + (IZR (layer p1) - 1) * 0.3) in
  let p2 :=
    set_position p1 (x p1 + layer_speed * wind_strength * IZR wind_direction)
                 (y p1) in
  set_position p2 (x p2) (y p2 + wave_offset p2 (age p2)).

Definition horizontal_exit (p : t) : bool :=
  Rgeb (x p) (IZR (max_cols p)) || Rltb (x p) 0.

Definition expired (p : t) : bool := Rgeb (age p) (lifetime p).

(** Lines 59-60. *)
Definition check_horizontal (p : t) : M t :=
  if horizontal_exit p then reset p else ret p.

(** Lines 62-67. *)
Definition check_vertical (p : t) : t :=
  if Rgeb (y p) (IZR (max_rows p)) then
    set_phase (set_position p (x p) (IZR (max_rows p) - 1)) (phase p + PI)
  else if Rltb (y p) 0 then
    set_phase (set_position p (x p) 0) (phase p + PI)
  else p.

(** Lines 70-71. *)
Definition check_lifetime (p : t) : M t :=
  if expired p then reset p else ret p.

(** [WindParticle.update] *)
Definition update (p : t) (wind_strength : R) (wind_direction : Z) : M t :=
  p1 <- check_horizontal (move p wind_strength wind_direction) ;;
  check_lifetime (check_vertical p1).

End WindParticle.

(** ** The curses window

    A window has a size and remembers the cells written since it was last
    cleared, the most recent first.  [addstr] outside of the window is
    the library's [curses.error].  Every glyph takes one cell; the cursor
    is not modelled.  Of the glyphs of the program only U+FE19 is wider on
    a terminal (it covers the cell to its right too), so what is proved
    about the content of a cell is stated for the other glyphs.  Attribute
    words are laid out as in ncurses. *)

Module curses.

Definition A_DIM : Z := Z.shiftl 1 20.
Definition A_BOLD : Z := Z.shiftl 1 21.
Definition A_COLOR : Z := Z.shiftl 255 8.
Definition color_pair (n : Z) : Z := Z.shiftl n 8.
Definition pair_number (attr : Z) : Z := Z.shiftr (Z.land attr A_COLOR) 8.

Definition COLOR_BLACK : Z := 0.
Definition COLOR_RED : Z := 1.
Definition COLOR_GREEN : Z := 2.
Definition COLOR_YELLOW : Z := 3.
Definition COLOR_BLUE : Z := 4.
Definition COLOR_MAGENTA : Z := 5.
Definition COLOR_CYAN : Z := 6.
Definition COLOR_WHITE : Z := 7.

Definition KEY_LEFT : Z := 260.
Definition KEY_RIGHT : Z := 261.
Definition KEY_RESIZE : Z := 410.

Record write : Type := mkWrite { at_y : Z; at_x : Z; glyph : Z; attr : Z }.

Record window : Type := mkWindow { maxy : Z; maxx : Z; writes : list write }.

Definition inside (w : window) (row col : Z) : bool :=
  ((0 <=? row) && (row <? maxy w) && (0 <=? col) && (col <? maxx w))%Z.

Definition getmaxyx (w : window) : Z * Z := (maxy w, maxx w).

Definition clear (w : window) : window := mkWindow (maxy w) (maxx w) [].

Definition addstr (w : window) (row col ch a : Z) : result window :=
  if inside w row col
  then Ok (mkWindow (maxy w) (maxx w) (mkWrite row col ch a :: writes w))
  else Raise CursesError.

(** The last write at a cell, if any. *)
Definition inch (w : window) (row col : Z) : option write :=
  find (fun c => (at_y c =? row)%Z && (at_x c =? col)%Z) (writes w).

End curses.

(** Color mapping for command-line arguments. *)
Definition CURSES_COLOR_MAP : list (string * Z) :=
  [("black"%string, curses.COLOR_BLACK); ("red"%string, curses.COLOR_RED);
   ("green"%string, curses.COLOR_GREEN);
   ("yellow"%string, curses.COLOR_YELLOW);
   ("blue"%string, curses.COLOR_BLUE);
   ("magenta"%string, curses.COLOR_MAGENTA);
   ("cyan"%string, curses.COLOR_CYAN); ("white"%string, curses.COLOR_WHITE)].

(** ** class WindSimulation

    The wall-clock fields ([last_update_time] and the sleep of [update])
    are not part of the model: a tick is one call of [update]. *)

Module WindSimulation.

Record t : Type := mk {
  wind_color : string;
  show_density : bool;
  high_density : bool;
  wind_strength : R;
  wind_direction : Z;
  base_wind_strength : R;
  wind_variation_timer : R;
  gust_timer : R;
  gust_active : bool;
  gust_strength : R;
  particles : list WindParticle.t;
  rows : Z;
  cols : Z;
  frame_count : Z;
  density_layers : list (list Z)
}.

Definition set_show_density (s : t) (v : bool) : t :=
  mk (wind_color s) v (high_density s) (wind_strength s)
     (wind_direction s)
     (base_wind_strength s) (wind_variation_timer s) (gust_timer s)
     (gust_active s) (gust_strength s) (particles s) (rows s) (cols s)
     (frame_count s) (density_layers s).

Definition set_high_density (s : t) (v : bool) : t :=
  mk (wind_color s) (show_density s) v (wind_strength s)
     (wind_direction s)
     (base_wind_strength s) (wind_variation_timer s) (gust_timer s)
     (gust_active s) (gust_strength s) (particles s) (rows s) (cols s)
     (frame_count s) (density_layers s).

Definition set_wind_strength (s : t) (v : R) : t :=
  mk (wind_color s) (show_density s) (high_density s) v (wind_direction s)
     (base_wind_strength s) (wind_variation_timer s) (gust_timer s)
     (gust_active s) (gust_strength s) (particles s) (rows s) (cols s)
     (frame_count s) (density_layers s).

Definition set_wind_direction (s : t) (v : Z) : t :=
  mk (wind_color s) (show_density s) (high_density s) (wind_strength s) v
     (base_wind_strength s) (wind_variation_timer s) (gust_timer s)
     (gust_active s) (gust_strength s) (particles s) (rows s) (cols s)
     (frame_count s) (density_layers s).

Definition set_base_wind_strength (s : t) (v : R) : t :=
  mk (wind_color s) (show_density s) (high_density s) (wind_strength s)
     (wind_direction s)
     v (wind_variation_timer s) (gust_timer s)
     (gust_active s) (gust_strength s) (particles s) (rows s) (cols s)
     (frame_count s) (density_layers s).

Definition set_wind_variation_timer (s : t) (v : R) : t :=
  mk (wind_color s) (show_density s) (high_density s) (wind_strength s)
     (wind_direction s)
     (base_wind_strength s) v (gust_timer s)
     (gust_active s) (gust_strength s) (particles s) (rows s) (cols s)
     (frame_count s) (density_layers s).

Definition set_gust_timer (s : t) (v : R) : t :=
  mk (wind_color s) (show_density s) (high_density s) (wind_strength s)
     (wind_direction s)
     (base_wind_strength s) (wind_variation_timer s) v
     (gust_active s) (gust_strength s) (particles s) (rows s) (cols s)
     (frame_count s) (density_layers s).

Definition set_gust_active (s : t) (v : bool) : t :=
  mk (wind_color s) (show_density s) (high_density s) (wind_strength s)
     (wind_direction s)
     (base_wind_strength s) (wind_variation_timer s) (gust_timer s)
     v (gust_strength s) (particles s) (rows s) (cols s)
     (frame_count s) (density_layers s).

Definition set_gust_strength (s : t) (v : R) : t :=
  mk (wind_color s) (show_density s) (high_density s) (wind_strength s)
     (wind_direction s)
     (base_wind_strength s) (wind_variation_timer s) (gust_timer s)
     (gust_active s) v (particles s) (rows s) (cols s)
     (frame_count s) (density_layers s).

Definition set_particles (s : t) (v : list WindParticle.t) : t :=
  mk (wind_color s) (show_density s) (high_density s) (wind_strength s)
     (wind_direction s)
     (base_wind_strength s) (wind_variation_timer s) (gust_timer s)
     (gust_active s) (gust_strength s) v (rows s) (cols s)
     (frame_count s) (density_layers s).

Definition set_size (s : t) (size : Z * Z) : t :=
  mk (wind_color s) (show_density s) (high_density s) (wind_strength s)
     (wind_direction s)
     (base_wind_strength s) (wind_variation_timer s) (gust_timer s)
     (gust_active s) (gust_strength s) (particles s) (fst size) (snd size)
     (frame_count s) (density_layers s).

Definition set_frame_count (s : t) (v : Z) : t :=
  mk (wind_color s) (show_density s) (high_density s) (wind_strength s)
     (wind_direction s)
     (base_wind_strength s) (wind_variation_timer s) (gust_timer s)
     (gust_active s) (gust_strength s) (particles s) (rows s) (cols s)
     v (density_layers s).

Definition set_density_layers (s : t) (v : list (list Z)) : t :=
  mk (wind_color s) (show_density s) (high_density s) (wind_strength s)
     (wind_direction s)
     (base_wind_strength s) (wind_variation_timer s) (gust_timer s)
     (gust_active s) (gust_strength s) (particles s) (rows s) (cols s)
     (frame_count s) v.

(** [setup_colors]: the color pairs it registers with [init_pair], as
    (pair number, (foreground, background)), given what [has_colors()]
    and [can_change_color()] answer. *)
Definition setup_colors (s : t) (has_colors can_change_color : bool)
  : list (Z * (Z * Z)) :=
  if has_colors then
    let bg := if can_change_color then (-1)%Z else curses.COLOR_BLACK in
    let wind_fg :=
      dict_get CURSES_COLOR_MAP (lower (wind_color s)) curses.COLOR_CYAN in
    [(1, (wind_fg, bg)); (2, (curses.COLOR_WHITE, bg));
     (3, (curses.COLOR_BLUE, bg)); (4, (curses.COLOR_CYAN, bg));
     (5, (curses.COLOR_WHITE, bg)); (6, (curses.COLOR_MAGENTA, bg))]%Z
  else [].

(** The glyph of an empty cell, [' ']. *)
Definition blank : Z := 32.

(** [init_density_layers]: three layers of [cols * rows] blanks. *)
Definition init_density_layers (s : t) : t :=
  set_density_layers s
    (map (fun _ => repeat blank (Z.to_nat (cols s * rows s))) (seq 0 3)).

(** [WindSimulation.__init__], on a window of the given size. *)
Definition init (stdscr : curses.window) (color : string)
           (density high : bool) : t :=
  init_density_layers
    (mk color density high 1.0 1 1.0 0 0 false 0 []
        (fst (curses.getmaxyx stdscr)) (snd (curses.getmaxyx stdscr)) 0 []).

(** The gust envelope of lines 165-171. *)
Definition gust_multiplier (progress : R) : R :=
  if Rltb progress 0.2 then progress / 0.2
  else if Rltb progress 0.8 then 1.0
  else 1.0 - ((progress - 0.8) / 0.2).

(** Lines 146-150. *)
Definition vary_base (s : t) : t :=
  let s1 :=
    set_wind_variation_timer s (wind_variation_timer s + UPDATE_INTERVAL) in
  let base_variation := sin (wind_variation_timer s1 * 0.8) * 0.4 in
  let secondary_variation := cos (wind_variation_timer s1 * 0.3) * 0.2 in
  set_base_wind_strength s1
    (Rmax 0.5 (1.2 + base_variation + secondary_variation)).

Definition gust_chance (s : t) : R :=
  if high_density s then 0.01 else 0.005.

(** Lines 155-158; [random()] is not called while a gust is active. *)
Definition trigger_gust (s : t) : M t :=
  if negb (gust_active s) then
    r <- random.random ;;
    if Rltb r (gust_chance s) then
      g <- random.uniform 2.5 5.0 ;;
      ret (set_gust_strength (set_gust_timer (set_gust_active s true) 0) g)
    else ret s
  else ret s.

(** Lines 160-178. *)
Definition blow (s : t) : M t :=
  if gust_active s then
    let s1 := set_gust_timer s (gust_timer s + UPDATE_INTERVAL) in
    gust_duration <- random.uniform 0.3 1.2 ;;
    if Rltb (gust_timer s1) gust_duration then
      let progress := gust_timer s1 / gust_duration in
      ret (set_wind_strength s1
             (base_wind_strength s1
              + gust_strength s1 * gust_multiplier progress))
    else
      ret (set_wind_strength (set_gust_active s1 false)
             (base_wind_strength s1))
  else ret (set_wind_strength s (base_wind_strength s)).

Definition direction_chance (s : t) : R :=
  if high_density s then 0.003 else 0.001.

(** Lines 181-183. *)
Definition turn (s : t) : M t :=
  r <- random.random ;;
  if Rltb r (direction_chance s)
  then ret (set_wind_direction s (wind_direction s * -1))
  else ret s.

(** [update_wind_pattern] *)
Definition update_wind_pattern (s : t) : M t :=
  s1 <- trigger_gust (vary_base s) ;;
  s2 <- blow s1 ;;
  turn s2.

(** Lines 187-192. *)
Definition target_count (s : t) : Z :=
  if high_density s
  then Z.min (py_int (IZR (cols s * rows s) * 0.15)) 2000
  else py_int (IZR (cols s) * 0.5).

(** The [while] loop of lines 194-197; every turn appends one particle,
    so [target - len(particles)] turns always suffice. *)
Fixpoint spawn (fuel : nat) (target : Z) (s : t) : M t :=
  match fuel with
  | O => ret s
  | S fuel' =>
      if (Z.of_nat (length (particles s)) <? target)%Z then
        x0 <- random.randint 0 (cols s - 1) ;;
        y0 <- random.randint 0 (rows s - 1) ;;
        p <- WindParticle.init x0 y0 (rows s) (cols s) (show_density s) ;;
        spawn fuel' target (set_particles s (particles s ++ [p]))
      else ret s
  end.

(** [generate_particles] *)
Definition generate_particles (s : t) : M t :=
  let target := target_count s in
  spawn (Z.to_nat (target - Z.of_nat (length (particles s)))) target s.

(** The body of the particle loop of [update_density_map]
    (lines 208-213). *)
Definition plot (s : t) (layers : list (list Z)) (p : WindParticle.t)
  : result (list (list Z)) :=
  let px := py_int (WindParticle.x p) in
  let py := py_int (WindParticle.y p) in
  if ((0 <=? px) && (px <? cols s) && (0 <=? py) && (py <? rows s))%Z then
    let idx := (py * cols s + px)%Z in
    let n := Z.of_nat (length WIND_PARTICLES) in
    match getitem WIND_PARTICLES
            (Z.min (py_int (WindParticle.density p * IZR n)) (n - 1)) with
    | Ok density_char =>
        let layer_idx :=
          Z.min (WindParticle.layer p - 1)
                (Z.of_nat (length layers) - 1) in
        match getitem layers layer_idx with
        | Ok layer =>
            match setitem layer idx density_char with
            | Ok layer' => setitem layers layer_idx layer'
            | Raise e => Raise e
            end
        | Raise e => Raise e
        end
    | Raise e => Raise e
    end
  else Ok layers.

(** [update_density_map] *)
Definition update_density_map (s : t) : result t :=
  let cleared := map (fun layer => map (fun _ => blank) layer)
                     (density_layers s) in
  match fold_result (plot s) (particles s) cleared with
  | Ok layers => Ok (set_density_layers s layers)
  | Raise e => Raise e
  end.

(** Lines 224-230 of [update]: the wind, then the spawn step. *)
Definition update_wind_and_spawn (s : t) : M t :=
  s1 <- update_wind_pattern (set_frame_count s (frame_count s + 1)) ;;
  generate_particles s1.

(** Lines 233-238 of [update]: every particle moves with the wind
    strength of this tick, then the density map is rebuilt. *)
Definition update_particles (s : t) : M t :=
  ps <- for_each
          (fun p => WindParticle.update p (wind_strength s)
                                        (wind_direction s))
          (particles s) ;;
  let s1 := set_particles s ps in
  if show_density s1 then lift (update_density_map s1) else ret s1.

(** [WindSimulation.update] *)
Definition update (s : t) : M t :=
  s1 <- update_wind_and_spawn s ;; update_particles s1.

(** [try: ... except curses.error: pass], around a write to [w]. *)
Definition except_curses (r : result curses.window) (w : curses.window)
  : result curses.window :=
  match r with
  | Raise CursesError => Ok w
  | _ => r
  end.

(** The body of the innermost loop of [draw_density] (lines 263-269). *)
Definition draw_density_cell (s : t) (layer : list Z) (color_attr : Z)
           (row : Z) (w : curses.window) (col : Z) : result curses.window :=
  let idx := (row * cols s + col)%Z in
  match getitem layer idx with
  | Ok ch =>
      if negb (ch =? blank)%Z
      then except_curses (curses.addstr w row col ch color_attr) w
      else Ok w
  | Raise e => Raise e
  end.

Definition draw_density_layer (s : t) (w : curses.window)
           (numbered : nat * list Z) : result curses.window :=
  let layer_idx := Z.of_nat (fst numbered) in
  let layer := snd numbered in
  let color_attr := curses.color_pair (3 + layer_idx) in
  let color_attr :=
    if (layer_idx =? 2)%Z then Z.lor color_attr curses.A_BOLD
    else color_attr in
  fold_result
    (fun w1 row =>
       fold_result (draw_density_cell s layer color_attr row)
                   (range (cols s)) w1)
    (range (rows s)) w.

(** [draw_density] *)
Definition draw_density (s : t) (w : curses.window) : result curses.window :=
  fold_result (draw_density_layer s)
    (combine (seq 0 (length (density_layers s))) (density_layers s)) w.

(** [sorted(particles, key=lambda p: p.layer)]: a stable sort. *)
Fixpoint insert_by_layer (p : WindParticle.t) (l : list WindParticle.t)
  : list WindParticle.t :=
  match l with
  | [] => [p]
  | q :: l' =>
      if (WindParticle.layer p <=? WindParticle.layer q)%Z
      then p :: l
      else q :: insert_by_layer p l'
  end.

Definition sorted_by_layer (l : list WindParticle.t) : list WindParticle.t :=
  fold_right insert_by_layer [] l.

(** Lines 279-290. *)
Definition particle_attr (s : t) (p : WindParticle.t) : Z :=
  if gust_active s && Rgtb (wind_strength s) 2.0 then
    if Rgtb (WindParticle.speed p) 1.2
    then Z.lor (curses.color_pair 2) curses.A_BOLD
    else Z.lor (curses.color_pair 6) curses.A_BOLD
  else
    if (WindParticle.layer p =? 1)%Z
    then Z.lor (curses.color_pair 1) curses.A_DIM
    else if (WindParticle.layer p =? 2)%Z
    then curses.color_pair 1
    else Z.lor (curses.color_pair 1) curses.A_BOLD.

(** The cell a particle is drawn at: [(int(y), int(x))]. *)
Definition cell_of (p : WindParticle.t) : Z * Z :=
  (py_int (WindParticle.y p), py_int (WindParticle.x p)).

Definition in_grid (s : t) (p : WindParticle.t) : bool :=
  ((0 <=? fst (cell_of p)) && (fst (cell_of p) <? rows s)
   && (0 <=? snd (cell_of p)) && (snd (cell_of p) <? cols s))%Z.

(** The body of the loop of [draw_particles] (lines 277-296). *)
Definition draw_particle (s : t) (w : curses.window) (p : WindParticle.t)
  : result curses.window :=
  except_curses
    (let color_attr := particle_attr s p in
     if in_grid s p
     then curses.addstr w (fst (cell_of p)) (snd (cell_of p))
                        (WindParticle.char p) color_attr
     else Ok w)
    w.

(** [draw_particles] *)
Definition draw_particles (s : t) (w : curses.window)
  : result curses.window :=
  fold_result (draw_particle s) (sorted_by_layer (particles s)) w.

(** [draw], without the status lines of [draw_ui]. *)
Definition draw (s : t) (w : curses.window) : result curses.window :=
  let w0 := curses.clear w in
  if show_density s then draw_density s w0 else draw_particles s w0.

End WindSimulation.

(** ** def wind_simulation

    One [input] is what one turn of the loop reads from the terminal: the
    key returned by [getch()] ([-1] when none is pending) and the size the
    terminal has at that moment.  A run is the list of its inputs; the
    loop is unfolded once for each of them and stops early at a quit key. *)

Record input : Type := mkInput { key : Z; terminal : Z * Z }.

(** What a turn of the loop leaves behind: the simulation right after the
    spawn step, the simulation at the end of [update], and the window
    after [draw]. *)
Record frame : Type := mkFrame {
  spawned : WindSimulation.t;
  state : WindSimulation.t;
  screen : curses.window
}.

(** [ord] of the keys of the loop. *)
Definition ord_q : Z := 113.
Definition ord_Q : Z := 81.
Definition ord_d : Z := 100.
Definition ord_D : Z := 68.
Definition ord_h : Z := 104.
Definition ord_H : Z := 72.
Definition ord_plus : Z := 43.
Definition ord_minus : Z := 45.

(** Lines 342-362; [None] is the [break]. *)
Definition handle_key (simulation : WindSimulation.t) (stdscr : curses.window)
           (k : Z) : option WindSimulation.t :=
  let s := simulation in
  if ((k =? ord_q) || (k =? ord_Q) || (k =? 27))%Z then None
  else if ((k =? ord_d) || (k =? ord_D))%Z then
    let s1 := WindSimulation.set_show_density s
                (negb (WindSimulation.show_density s)) in
    Some (if WindSimulation.show_density s1
          then WindSimulation.init_density_layers s1 else s1)
  else if ((k =? ord_h) || (k =? ord_H))%Z then
    Some (WindSimulation.set_particles
            (WindSimulation.set_high_density s
               (negb (WindSimulation.high_density s))) [])
  else if (k =? ord_plus)%Z then
    Some (WindSimulation.set_base_wind_strength s
            (Rmin 8.0 (WindSimulation.base_wind_strength s + 0.3)))
  else if (k =? ord_minus)%Z then
    Some (WindSimulation.set_base_wind_strength s
            (Rmax 0.1 (WindSimulation.base_wind_strength s - 0.3)))
  else if (k =? curses.KEY_RIGHT)%Z then
    Some (WindSimulation.set_wind_direction s 1)
  else if (k =? curses.KEY_LEFT)%Z then
    Some (WindSimulation.set_wind_direction s (-1))
  else if (k =? curses.KEY_RESIZE)%Z then
    Some (WindSimulation.init_density_layers
            (WindSimulation.set_particles
               (WindSimulation.set_size s (curses.getmaxyx stdscr)) []))
  else Some s.

(** The [while True] loop of lines 339-369. *)
Fixpoint wind_simulation_loop (inputs : list input)
         (simulation : WindSimulation.t) (stdscr : curses.window)
  : M (list frame) :=
  match inputs with
  | [] => ret []
  | i :: inputs' =>
      let stdscr := curses.mkWindow (fst (terminal i)) (snd (terminal i))
                                    (curses.writes stdscr) in
      match handle_key simulation stdscr (key i) with
      | None => ret []
      | Some s1 =>
          s2 <- WindSimulation.update_wind_and_spawn s1 ;;
          s3 <- WindSimulation.update_particles s2 ;;
          w <- lift (WindSimulation.draw s3 stdscr) ;;
          frames <- wind_simulation_loop inputs' s3 w ;;
          ret (mkFrame s2 s3 w :: frames)
      end
  end.

(** [wind_simulation], started on a window of size [size]. *)
Definition wind_simulation (size : Z * Z) (wind_color : string)
           (show_density high_density : bool) (inputs : list input)
  : M (list frame) :=
  let stdscr := curses.mkWindow (fst size) (snd size) [] in
  wind_simulation_loop inputs
    (WindSimulation.init stdscr wind_color show_density high_density) stdscr.

(** * Specification vocabulary *)

(** The element [choice] picks from [seq] at generator [g]. *)
Definition pick {A} (seq : list A) (d : A) (g : rng) : A :=
  nth (Z.to_nat (Z.of_nat (index_draw (current g)) mod Z.of_nat (length seq)))
      seq d.

(** What [reset] and [__init__] leave in the sampled fields. *)
Record sampled (p : WindParticle.t) : Prop := mkSampled {
  sampled_age : WindParticle.age p = 0;
  sampled_speed : 0.5 <= WindParticle.speed p <= 1.5;
  sampled_amplitude : 0.8 <= WindParticle.amplitude p <= 3.0;
  sampled_frequency : 0.2 <= WindParticle.frequency p <= 0.5;
  sampled_phase : 0 <= WindParticle.phase p <= 2 * PI;
  sampled_lifetime : 2 <= WindParticle.lifetime p <= 6;
  sampled_density : 0 <= WindParticle.density p < 1;
  sampled_layer : (1 <= WindParticle.layer p <= 3)%Z;
  sampled_opacity : 0.7 <= WindParticle.opacity p <= 1.0;
  sampled_char : In (WindParticle.char p) WIND_CHARS;
  sampled_density_char : In (WindParticle.density_char p) WIND_PARTICLES
}.

(** The fields [reset] does not assign. *)
Definition kept (p : WindParticle.t) : Z * Z * Z * bool :=
  (WindParticle.max_rows p, WindParticle.max_cols p,
   WindParticle.original_x p, WindParticle.density_mode p).

(** The particle sits exactly on a cell of its grid. *)
Definition on_cell (p : WindParticle.t) : Prop :=
  exists row col : Z,
    WindParticle.y p = IZR row /\ WindParticle.x p = IZR col /\
    (0 <= row <= WindParticle.max_rows p - 1)%Z /\
    (0 <= col <= WindParticle.max_cols p - 1)%Z.

(** The particle lies within its grid. *)
Definition in_bounds (p : WindParticle.t) : Prop :=
  0 <= WindParticle.y p < IZR (WindParticle.max_rows p) /\
  0 <= WindParticle.x p < IZR (WindParticle.max_cols p).

(** The vertical check of [update] fires: one of lines 62 and 65 holds. *)
Definition vertical_exit (p : WindParticle.t) : bool :=
  Rgeb (WindParticle.y p) (IZR (WindParticle.max_rows p))
  || Rltb (WindParticle.y p) 0.

(** ** Sample inputs *)

(** A generator whose every draw is [0.5] and index [0]. *)
Definition steady : rng := mkRng (fun _ => mkDraw 0.5 0) 0.

(** The draws that make [WindParticle.__init__] sample a speed of 1, an
    amplitude of 1, a frequency of 0.25, a phase of [phase_draw * 2 pi], a
    lifetime of 3, layer 1 and the first glyph of each table. *)
Definition spawn_tape (phase_draw : R) (n : nat) : draw :=
  match n with
  | 2 => mkDraw (1 / 11) 0
  | 3 => mkDraw (1 / 6) 0
  | 4 => mkDraw phase_draw 0
  | 5 => mkDraw (1 / 4) 0
  | 9 => mkDraw (1 / 3) 0
  | _ => mkDraw 0.5 0
  end%nat.

(** A new particle on the last row of a 24 x 80 grid. *)
Definition bottom_particle : WindParticle.t :=
  WindParticle.mk 10 23 24 80 1 0xb7 1 0.25 0 10 3 0 0x2591 0.5 false 1 0.8.

(** A new particle in mid-grid whose phase is a quarter turn. *)
Definition quarter_particle : WindParticle.t :=
  WindParticle.mk 10 12 24 80 1 0xb7 1 0.25 (PI / 2) 10 3 0 0x2591 0.5 false
                  1 0.8.

(** A particle on the first row, one tick away from its lifetime of 3
    seconds, about to swing upwards out of the grid. *)
Definition expiring_particle : WindParticle.t :=
  WindParticle.mk 10 0 24 80 1 0xb7 1 (PI / 12) 0 10 3 2.97 0x2591 0.5 false
                  1 0.8.

(** A simulation on a 24 x 80 window, as [__init__] leaves it. *)
Definition calm_simulation : WindSimulation.t :=
  WindSimulation.init (curses.mkWindow 24 80 []) "cyan" false true.

(** The same simulation three tenths of a second into a gust of
    strength 3. *)
Definition gusty_simulation : WindSimulation.t :=
  WindSimulation.set_gust_strength
    (WindSimulation.set_gust_timer
       (WindSimulation.set_gust_active calm_simulation true) 0.3) 3.

(** ** The wind field over several ticks *)

(** While a gust is active its timer is not negative and its strength is
    positive: [update_wind_pattern] is the only code that assigns the
    gust fields, and it keeps this. *)
Definition gust_ready (s : WindSimulation.t) : Prop :=
  WindSimulation.gust_active s = true ->
  0 <= WindSimulation.gust_timer s /\ 0 < WindSimulation.gust_strength s.

(** [n] calls of [update_wind_pattern] in a row. *)
Fixpoint wind_ticks (n : nat) (s : WindSimulation.t) : M WindSimulation.t :=
  match n with
  | O => ret s
  | S n' => s' <- WindSimulation.update_wind_pattern s ;; wind_ticks n' s'
  end.

(** The generator [g] moved to position [n] of its tape. *)
Definition at_pos (g : rng) (n : nat) : rng := mkRng (tape g) n.

(** The duration drawn by the tick whose call of
    [random.uniform(0.3, 1.2)] happens at [g]. *)
Definition drawn_duration (g : rng) : R :=
  0.3 + (1.2 - 0.3) * unit_draw (current g).

(** A tape that starts a gust at once (first draw 0.001), draws 0.9
    everywhere else, except for a 0 at position 22. *)
Definition gusty_tape (n : nat) : draw :=
  if (n =? 0)%nat then mkDraw 0.001 0
  else if (n =? 22)%nat then mkDraw 0 0
  else mkDraw 0.9 0.

(** ** Drawing *)

(** What an attribute word shows: its color pair, and whether it is bold
    and dim. *)
Definition look (a : Z) : Z * bool * bool :=
  (curses.pair_number a, Z.testbit a 21, Z.testbit a 20).

Definition layer_le (p q : WindParticle.t) : Prop :=
  (WindParticle.layer p <= WindParticle.layer q)%Z.

Definition on_layer (k : Z) (p : WindParticle.t) : bool :=
  (WindParticle.layer p =? k)%Z.

(** The foreground [setup_colors] registers for color pair 1. *)
Definition wind_hue (s : WindSimulation.t) : Z :=
  dict_get CURSES_COLOR_MAP (lower (WindSimulation.wind_color s))
           curses.COLOR_CYAN.

(** Every density layer has one entry for each cell of the grid, as
    [init_density_layers] builds them. *)
Definition layers_fit (s : WindSimulation.t) : Prop :=
  Forall (fun layer : list Z =>
            List.length layer
            = Z.to_nat (WindSimulation.cols s * WindSimulation.rows s))
         (WindSimulation.density_layers s).

(** [w'] is [w] after some more writes, all of them inside the window. *)
Definition drawn_on (w w' : curses.window) : Prop :=
  curses.maxy w' = curses.maxy w /\ curses.maxx w' = curses.maxx w /\
  exists added,
    curses.writes w' = added ++ curses.writes w /\
    Forall (fun c => curses.inside w (curses.at_y c) (curses.at_x c) = true)
           added.

(** A simulation that still believes in a 24 x 80 grid, with one particle
    on row 23, and a window that has shrunk to 10 x 10 under it. *)
Definition stale_simulation : WindSimulation.t :=
  WindSimulation.set_particles calm_simulation [bottom_particle].

Definition small_window : curses.window := curses.mkWindow 10 10 [].

(** ** Runs of the loop *)

(** What the density map needs of a particle of simulation [s]. *)
Definition particle_ok (s : WindSimulation.t) (p : WindParticle.t) : Prop :=
  WindParticle.max_rows p = WindSimulation.rows s /\
  WindParticle.max_cols p = WindSimulation.cols s /\
  0 <= WindParticle.density p < 1 /\
  (1 <= WindParticle.layer p <= 3)%Z.

(** What every state of a run satisfies: a grid of at least one cell,
    particles and density layers made for that grid. *)
Record sound (s : WindSimulation.t) : Prop := mkSound {
  sound_rows : (1 <= WindSimulation.rows s)%Z;
  sound_cols : (1 <= WindSimulation.cols s)%Z;
  sound_particles : Forall (particle_ok s) (WindSimulation.particles s);
  sound_layers : List.length (WindSimulation.density_layers s) = 3%nat;
  sound_fit : layers_fit s
}.

(** [len(particles)] *)
Definition population (s : WindSimulation.t) : Z :=
  Z.of_nat (List.length (WindSimulation.particles s)).

(** What [update] keeps of a particle. *)
Definition particle_sane (p : WindParticle.t) : Prop :=
  0 <= WindParticle.density p < 1 /\ (1 <= WindParticle.layer p <= 3)%Z.

(** [s'] differs from [s] in its wind fields and frame count only. *)
Definition same_scene (s s' : WindSimulation.t) : Prop :=
  WindSimulation.wind_color s' = WindSimulation.wind_color s /\
  WindSimulation.show_density s' = WindSimulation.show_density s /\
  WindSimulation.high_density s' = WindSimulation.high_density s /\
  WindSimulation.particles s' = WindSimulation.particles s /\
  WindSimulation.rows s' = WindSimulation.rows s /\
  WindSimulation.cols s' = WindSimulation.cols s /\
  WindSimulation.density_layers s' = WindSimulation.density_layers s.

(** Three layers, each with one entry for every cell of [s]. *)
Definition layers_ok (s : WindSimulation.t) (layers : list (list Z)) : Prop :=
  List.length layers = 3%nat /\
  Forall (fun layer : list Z =>
            List.length layer
            = Z.to_nat (WindSimulation.cols s * WindSimulation.rows s))
         layers.

(** The population does not exceed the target of [generate_particles]. *)
Definition bounded (s : WindSimulation.t) : Prop :=
  (population s <= WindSimulation.target_count s)%Z.

(** The terminal has at least one row and one column. *)
Definition terminal_ok (i : input) : Prop :=
  (1 <= fst (terminal i))%Z /\ (1 <= snd (terminal i))%Z.

(** The bound of the specification on the population of [s]. *)
Definition target_of_spec (s : WindSimulation.t) : Z :=
  if WindSimulation.high_density s
  then Z.min 2000
         (Zfloor (IZR (WindSimulation.rows s * WindSimulation.cols s) * 0.15))
  else Zfloor (IZR (WindSimulation.cols s) * 0.5).

(** What [getch()] returns when no key is pending. *)
Definition no_key : Z := (-1)%Z.

(** The key is [+], [-], or none at all. *)
Definition strength_or_none (k : Z) : Prop :=
  k = ord_plus \/ k = ord_minus \/ k = no_key.

(** Two inputs of the same tick that differ at most in a wind-strength
    command. *)
Definition same_but_strength (i1 i2 : input) : Prop :=
  terminal i1 = terminal i2 /\
  (key i1 = key i2 \/
   (strength_or_none (key i1) /\ strength_or_none (key i2))).

(** Two ticks without a key, and the same two ticks with [+] and [-]. *)
Definition idle_inputs : list input :=
  [mkInput no_key (24, 80)%Z; mkInput no_key (24, 80)%Z].

Definition strength_inputs : list input :=
  [mkInput ord_plus (24, 80)%Z; mkInput ord_minus (24, 80)%Z].

(** A tick without a key, a density-level toggle, and a resize to
    30 x 100. *)
Definition busy_inputs : list input :=
  [mkInput no_key (24, 80)%Z; mkInput ord_h (24, 80)%Z;
   mkInput curses.KEY_RESIZE (30, 100)%Z].

(** The wind at the end of a tick: the base strength is the one computed
    from the variation timer, and the current strength is the base
    strength without a gust and above it during one. *)
Definition settled (s : WindSimulation.t) : Prop :=
  WindSimulation.base_wind_strength s
  = Rmax 0.5 (1.2 + 0.4 * sin (0.8 * WindSimulation.wind_variation_timer s)
              + 0.2 * cos (0.3 * WindSimulation.wind_variation_timer s)) /\
  (WindSimulation.gust_active s = false ->
   WindSimulation.wind_strength s = WindSimulation.base_wind_strength s) /\
  (WindSimulation.gust_active s = true ->
   WindSimulation.base_wind_strength s < WindSimulation.wind_strength s).

(** [s'] has the wind fields of [s]. *)
Definition same_wind (s s' : WindSimulation.t) : Prop :=
  WindSimulation.wind_strength s' = WindSimulation.wind_strength s /\
  WindSimulation.base_wind_strength s' = WindSimulation.base_wind_strength s /\
  WindSimulation.wind_variation_timer s' = WindSimulation.wind_variation_timer
    s /\
  WindSimulation.gust_active s' = WindSimulation.gust_active s /\
  WindSimulation.gust_timer s' = WindSimulation.gust_timer s /\
  WindSimulation.gust_strength s' = WindSimulation.gust_strength s.

(** The variation timer advances by one interval per frame, from [t0]. *)
Fixpoint timers_from (t0 : R) (frames : list frame) : Prop :=
  match frames with
  | [] => True
  | f :: frames' =>
      WindSimulation.wind_variation_timer (state f) = t0 + UPDATE_INTERVAL /\
      timers_from (t0 + UPDATE_INTERVAL) frames'
  end.

(** ** Further vocabulary *)

(** The grid and first draw on which [reset] cannot sample a cell. *)
Definition no_cell_for (p : WindParticle.t) (g : rng) : Prop :=
  (WindParticle.max_rows p <= 0)%Z \/
  ((WindParticle.max_cols p <= 0)%Z /\ 0.3 <= unit_draw (current g)).

(** The fields that only [__init__] and [reset] assign are within the
    ranges they are sampled from. *)
Record in_ranges (p : WindParticle.t) : Prop := mkInRanges {
  ranges_speed : 0.5 <= WindParticle.speed p <= 1.5;
  ranges_amplitude : 0.8 <= WindParticle.amplitude p <= 3.0;
  ranges_frequency : 0.2 <= WindParticle.frequency p <= 0.5;
  ranges_lifetime : 2 <= WindParticle.lifetime p <= 6;
  ranges_density : 0 <= WindParticle.density p < 1;
  ranges_layer : (1 <= WindParticle.layer p <= 3)%Z;
  ranges_opacity : 0.7 <= WindParticle.opacity p <= 1.0;
  ranges_char : In (WindParticle.char p) WIND_CHARS;
  ranges_density_char : In (WindParticle.density_char p) WIND_PARTICLES
}.

(** The cell [(int(y), int(x))] of the particle is a cell of its grid. *)
Definition cell_in_grid (p : WindParticle.t) : Prop :=
  (0 <= py_int (WindParticle.y p) < WindParticle.max_rows p)%Z /\
  (0 <= py_int (WindParticle.x p) < WindParticle.max_cols p)%Z.

(** While a gust is active it is younger than 1.2 s and its strength is
    one [random.uniform(2.5, 5.0)] can return. *)
Definition gust_window (s : WindSimulation.t) : Prop :=
  WindSimulation.gust_active s = true ->
  0 <= WindSimulation.gust_timer s < 1.2 /\
  2.5 <= WindSimulation.gust_strength s < 5.

(** The wind at the end of a tick is within its bounds. *)
Definition wind_in_bounds (s : WindSimulation.t) : Prop :=
  0.5 <= WindSimulation.base_wind_strength s <= 1.8 /\
  WindSimulation.base_wind_strength s <= WindSimulation.wind_strength s
  < WindSimulation.base_wind_strength s + 5.

Definition unit_direction (s : WindSimulation.t) : Prop :=
  WindSimulation.wind_direction s = 1%Z
  \/ WindSimulation.wind_direction s = (-1)%Z.

(** A particle as [generate_particles] makes them for [s]: on a cell of
    the grid of [s], freshly sampled. *)
Definition fresh_in (s : WindSimulation.t) (p : WindParticle.t) : Prop :=
  WindParticle.max_rows p = WindSimulation.rows s /\
  WindParticle.max_cols p = WindSimulation.cols s /\
  WindParticle.density_mode p = WindSimulation.show_density s /\
  on_cell p /\ sampled p.

(** The glyph [update_density_map] plots for a particle (line 211). *)
Definition density_glyph (p : WindParticle.t) : Z :=
  nth (Z.to_nat (Z.min (py_int (WindParticle.density p * 8)) 7))
      WIND_PARTICLES WindSimulation.blank.

(** The layer and the index within it at which a particle is plotted
    (lines 208-212); none when its cell is outside of the grid. *)
Definition slot (s : WindSimulation.t) (p : WindParticle.t)
  : option (nat * nat) :=
  if WindSimulation.in_grid s p then
    Some (Z.to_nat (Z.min (WindParticle.layer p - 1) 2),
          Z.to_nat (py_int (WindParticle.y p) * WindSimulation.cols s
                    + py_int (WindParticle.x p)))
  else None.

Definition at_slot (s : WindSimulation.t) (k idx : nat) (p : WindParticle.t)
  : bool :=
  match slot s p with
  | Some (k', idx') => (k' =? k)%nat && (idx' =? idx)%nat
  | None => false
  end.

(** The entry of layer [k] at index [idx]. *)
Definition entry (layers : list (list Z)) (k idx : nat) : option Z :=
  match nth_error layers k with
  | Some layer => nth_error layer idx
  | None => None
  end.

(** What the density map holds at a slot once the particles [ps] are
    plotted in order: the glyph of the last of them at that slot. *)
Definition plotted (s : WindSimulation.t) (ps : list WindParticle.t)
           (k idx : nat) : Z :=
  match find (at_slot s k idx) (rev ps) with
  | Some p => density_glyph p
  | None => WindSimulation.blank
  end.

(** The layers show [f]: every slot holds the glyph [f] gives it. *)
Definition shows (s : WindSimulation.t) (layers : list (list Z))
           (f : nat -> nat -> Z) : Prop :=
  forall k idx,
    (k < 3)%nat ->
    (idx < Z.to_nat (WindSimulation.cols s * WindSimulation.rows s))%nat ->
    entry layers k idx = Some (f k idx).

(** The glyph of [WIND_CHARS] that a terminal shows two cells wide
    (U+FE19): written at a cell, it also covers the cell to its right.
    Every other glyph of [WIND_CHARS] and of [WIND_PARTICLES] takes the
    one cell it is written at, which is all the window of the model
    records. *)
Definition wide_glyph : Z := 0xfe19.

Definition one_cell (ch : Z) : Prop :=
  (In ch WIND_CHARS \/ In ch WIND_PARTICLES) /\ ch <> wide_glyph.

(** [draw_particles] writes particle [p] at the cell [(row, col)] of a
    window of the size of [w]. *)
Definition shown_at (s : WindSimulation.t) (w : curses.window)
           (row col : Z) (p : WindParticle.t) : bool :=
  WindSimulation.in_grid s p
  && curses.inside w (fst (WindSimulation.cell_of p))
                     (snd (WindSimulation.cell_of p))
  && (fst (WindSimulation.cell_of p) =? row)%Z
  && (snd (WindSimulation.cell_of p) =? col)%Z.

(** What [draw_particles] writes for a particle. *)
Definition particle_write (s : WindSimulation.t) (p : WindParticle.t)
  : curses.write :=
  curses.mkWrite (fst (WindSimulation.cell_of p))
                 (snd (WindSimulation.cell_of p))
                 (WindParticle.char p) (WindSimulation.particle_attr s p).

(** The glyph a density layer holds for the cell [(row, col)]. *)
Definition layer_glyph (s : WindSimulation.t) (layer : list Z) (row col : Z)
  : Z :=
  nth (Z.to_nat (row * WindSimulation.cols s + col)) layer
      WindSimulation.blank.

(** The attribute [draw_density] uses for the layer numbered [k]. *)
Definition layer_attr (k : nat) : Z :=
  if (Z.of_nat k =? 2)%Z
  then Z.lor (curses.color_pair (3 + Z.of_nat k)) curses.A_BOLD
  else curses.color_pair (3 + Z.of_nat k).

(** [draw_density] writes a glyph of [layer] at the cell [(row, col)] of a
    window of the size of [w]. *)
Definition paints (s : WindSimulation.t) (w : curses.window) (row col : Z)
           (layer : list Z) : bool :=
  (0 <=? row)%Z && (row <? WindSimulation.rows s)%Z
  && (0 <=? col)%Z && (col <? WindSimulation.cols s)%Z
  && curses.inside w row col
  && negb (layer_glyph s layer row col =? WindSimulation.blank)%Z.

Definition layer_write (s : WindSimulation.t) (k : nat) (layer : list Z)
           (row col : Z) : curses.write :=
  curses.mkWrite row col (layer_glyph s layer row col) (layer_attr k).

(** A particle of simulation [s] that lies within the grid of [s], has not
    reached its lifetime, and whose sampled fields are in their ranges. *)
Definition alive_in (s : WindSimulation.t) (p : WindParticle.t) : Prop :=
  WindParticle.max_rows p = WindSimulation.rows s /\
  WindParticle.max_cols p = WindSimulation.cols s /\
  in_bounds p /\
  0 <= WindParticle.age p < WindParticle.lifetime p /\
  in_ranges p.

(** What the loop keeps of the simulation from tick to tick. *)
Record healthy (s : WindSimulation.t) : Prop := mkHealthy {
  healthy_sound : sound s;
  healthy_bounded : bounded s;
  healthy_gust : gust_window s;
  healthy_direction : unit_direction s;
  healthy_particles : Forall (alive_in s) (WindSimulation.particles s)
}.

(** The population is exactly the target of [generate_particles]. *)
Definition full (s : WindSimulation.t) : Prop :=
  population s = WindSimulation.target_count s.

(** The keys that end the loop: [q], [Q] and Escape. *)
Definition quits (k : Z) : bool :=
  ((k =? ord_q) || (k =? ord_Q) || (k =? 27))%Z.

(** The inputs before the first quit key. *)
Fixpoint until_quit (inputs : list input) : list input :=
  match inputs with
  | [] => []
  | i :: inputs' => if quits (key i) then [] else i :: until_quit inputs'
  end.

(** A tick without a key, then [q], then a tick that is never run. *)
Definition quit_inputs : list input :=
  [mkInput no_key (24, 80)%Z; mkInput ord_q (24, 80)%Z;
   mkInput no_key (24, 80)%Z].

(** The frame counter goes up by one per frame, from [n]. *)
Fixpoint counts_from (n : Z) (frames : list frame) : Prop :=
  match frames with
  | [] => True
  | f :: frames' =>
      WindSimulation.frame_count (state f) = (n + 1)%Z /\
      counts_from (n + 1) frames'
  end.

(** * Properties *)

(** ** Comparisons *)

Lemma Rltb_true a b : Rltb a b = true <-> a < b.
Proof. unfold Rltb; destruct (Rlt_dec a b); split; intros; congruence || lra.
  Qed.

Lemma Rltb_false a b : Rltb a b = false <-> b <= a.
Proof. unfold Rltb; destruct (Rlt_dec a b); split; intros; congruence || lra.
  Qed.

Lemma Rleb_true a b : Rleb a b = true <-> a <= b.
Proof. unfold Rleb; destruct (Rle_dec a b); split; intros; congruence || lra.
  Qed.

Lemma Rleb_false a b : Rleb a b = false <-> b < a.
Proof. unfold Rleb; destruct (Rle_dec a b); split; intros; congruence || lra.
  Qed.

Lemma Rgeb_true a b : Rgeb a b = true <-> b <= a.
Proof. apply Rleb_true. Qed.

Lemma Rgeb_false a b : Rgeb a b = false <-> a < b.
Proof. apply Rleb_false. Qed.

Lemma Rgtb_true a b : Rgtb a b = true <-> b < a.
Proof. apply Rltb_true. Qed.

Lemma Rgtb_false a b : Rgtb a b = false <-> a <= b.
Proof. apply Rltb_false. Qed.

(** ** The random source *)

Lemma random_run g : random.random g = Ok (unit_draw (current g), advance g).
Proof. reflexivity. Qed.

Lemma uniform_run a b g :
  random.uniform a b g = Ok (a + (b - a) * unit_draw (current g), advance g).
Proof. reflexivity. Qed.

Lemma randint_run a b g :
  (a <= b)%Z ->
  random.randint a b g
  = Ok ((a + Z.of_nat (index_draw (current g)) mod (b - a + 1))%Z, advance g).
Proof.
  intros Hab. unfold random.randint.
  destruct (Z.ltb_spec b a) as [Hlt | _]; [lia | reflexivity].
Qed.

Lemma randint_range a b g v g' :
  random.randint a b g = Ok (v, g') -> (a <= v <= b)%Z /\ g' = advance g.
Proof.
  unfold random.randint. destruct (Z.ltb_spec b a) as [Hlt | Hle].
  - discriminate.
  - intros H. cbv [bind random.randbelow next ret] in H.
    injection H as <- <-. split; [ | reflexivity].
    pose proof (Z.mod_pos_bound (Z.of_nat (index_draw (tape g (pos g))))
                                (b - a + 1)) as Hm.
    lia.
Qed.

Lemma uniform_range a b g v g' :
  valid_tape (tape g) -> a <= b ->
  random.uniform a b g = Ok (v, g') -> a <= v <= b /\ g' = advance g.
Proof.
  intros Hv Hab H. rewrite uniform_run in H. injection H as <- <-.
  split; [ | reflexivity]. specialize (Hv (pos g)). unfold current. nra.
Qed.

Lemma advance_tape g : tape (advance g) = tape g.
Proof. reflexivity. Qed.

Lemma choice_run {A} (d : A) (seq : list A) g :
  exists v, random.choice (d :: seq) g = Ok (v, advance g) /\ In v (d :: seq).
Proof.
  eexists. split; [reflexivity | ].
  set (n := Z.of_nat (length (d :: seq))).
  assert (0 < n)%Z by (subst n; simpl length; lia).
  pose proof (Z.mod_pos_bound (Z.of_nat (index_draw (tape g (pos g)))) n).
  apply nth_In. subst n. lia.
Qed.

Lemma bind_ok {A B} (m : M A) (k : A -> M B) g b g' :
  bind m k g = Ok (b, g') ->
  exists a g1, m g = Ok (a, g1) /\ k a g1 = Ok (b, g').
Proof.
  unfold bind. destruct (m g) as [[a g1] | e]; [ | discriminate].
  intros H. exists a, g1. split; [reflexivity | exact H].
Qed.

Lemma choice_WIND_CHARS g :
  random.choice WIND_CHARS g = Ok (pick WIND_CHARS 0xb7%Z g, advance g).
Proof. reflexivity. Qed.

Lemma choice_WIND_PARTICLES g :
  random.choice WIND_PARTICLES g
  = Ok (pick WIND_PARTICLES 0x2591%Z g, advance g).
Proof. reflexivity. Qed.

Lemma pick_In {A} (seq : list A) d g : seq <> [] -> In (pick seq d g) seq.
Proof.
  intros Hne. unfold pick. apply nth_In.
  assert (0 < Z.of_nat (length seq))%Z
    by (destruct seq; [congruence | simpl; lia]).
  pose proof (Z.mod_pos_bound (Z.of_nat (index_draw (current g)))
                              (Z.of_nat (length seq))).
  lia.
Qed.

(** One step of symbolic execution of code in the monad. *)
Ltac draw_step :=
  unfold bind at 1;
  first [ rewrite random_run | rewrite uniform_run
        | rewrite randint_run by lia
        | rewrite choice_WIND_CHARS | rewrite choice_WIND_PARTICLES
        | unfold ret at 1 ].

(** ** WindParticle.reset *)

Lemma reset_spec p g :
  valid_tape (tape g) ->
  (1 <= WindParticle.max_rows p)%Z -> (1 <= WindParticle.max_cols p)%Z ->
  exists p' g',
    WindParticle.reset p g = Ok (p', g') /\ tape g' = tape g /\
    kept p' = kept p /\ sampled p' /\ on_cell p'.
Proof.
  intros Hv Hr Hc. unfold WindParticle.reset.
  assert (Hu : forall g1, tape g1 = tape g -> 0 <= unit_draw (current g1) < 1).
  { intros g1 E. unfold current. rewrite E. apply Hv. }
  assert (Hm : forall (n : nat) (k : Z),
             (1 <= k)%Z -> (0 <= Z.of_nat n mod k < k)%Z).
  { intros n k Hk. apply Z.mod_pos_bound. lia. }
  draw_step. destruct (Rltb _ _); repeat draw_step;
    (eexists; eexists; split; [reflexivity | ]);
    (split; [reflexivity | split; [reflexivity | split]]).
  1, 3: constructor;
    cbn [WindParticle.age WindParticle.speed WindParticle.amplitude
         WindParticle.frequency WindParticle.phase WindParticle.lifetime
         WindParticle.density WindParticle.layer WindParticle.opacity
         WindParticle.char WindParticle.density_char];
    try (apply pick_In; discriminate);
    try reflexivity;
    try match goal with |- context [unit_draw (current ?g1)] =>
         pose proof (Hu g1 eq_refl); pose proof PI_RGT_0; nra end;
    try match goal with |- context [(Z.of_nat ?n mod ?k)%Z] =>
         pose proof (Hm n k); lia end.
  all: unfold on_cell;
    cbn [WindParticle.x WindParticle.y WindParticle.max_rows
         WindParticle.max_cols].
  all: eexists; eexists; split; [reflexivity | split; [reflexivity | ]].
  all: repeat match goal with |- context [(Z.of_nat ?n mod ?k)%Z] =>
         lazymatch goal with
         | _ : (0 <= Z.of_nat n mod k < k)%Z |- _ => fail
         | _ => pose proof (Hm n k ltac:(lia))
         end end.
  all: lia.
Qed.

Lemma reset_kept p q g :
  kept q = kept p -> WindParticle.reset q g = WindParticle.reset p g.
Proof.
  unfold kept. intros E. injection E as E1 E2 E3 E4.
  unfold WindParticle.reset. rewrite E1, E2, E3, E4. reflexivity.
Qed.

Lemma on_cell_in_bounds p : on_cell p -> in_bounds p.
Proof.
  intros (row & col & Ey & Ex & Hrow & Hcol). unfold in_bounds.
  rewrite Ey, Ex. split; split.
  - apply IZR_le. lia.
  - apply IZR_lt. lia.
  - apply IZR_le. lia.
  - apply IZR_lt. lia.
Qed.

(** ** WindParticle.update *)

Ltac particle_fields :=
  cbn [WindParticle.x WindParticle.y WindParticle.max_rows
       WindParticle.max_cols WindParticle.speed WindParticle.char
       WindParticle.amplitude WindParticle.frequency WindParticle.phase
       WindParticle.original_x WindParticle.lifetime WindParticle.age
       WindParticle.density_char WindParticle.density
       WindParticle.density_mode WindParticle.layer WindParticle.opacity].

Lemma expired_check_vertical p :
  WindParticle.expired (WindParticle.check_vertical p)
  = WindParticle.expired p.
Proof.
  unfold WindParticle.check_vertical.
  destruct (Rgeb _ _); [reflexivity | ]. destruct (Rltb _ _); reflexivity.
Qed.

Lemma kept_check_vertical p :
  kept (WindParticle.check_vertical p) = kept p.
Proof.
  unfold WindParticle.check_vertical.
  destruct (Rgeb _ _); [reflexivity | ]. destruct (Rltb _ _); reflexivity.
Qed.

Lemma size_check_vertical p :
  WindParticle.max_rows (WindParticle.check_vertical p)
  = WindParticle.max_rows p
  /\ WindParticle.max_cols (WindParticle.check_vertical p)
     = WindParticle.max_cols p.
Proof.
  pose proof (kept_check_vertical p) as E. unfold kept in E.
  injection E as E1 E2 _ _. split; assumption.
Qed.

Lemma kept_move p ws wd : kept (WindParticle.move p ws wd) = kept p.
Proof. reflexivity. Qed.

Lemma update_no_reset p ws wd g :
  WindParticle.horizontal_exit (WindParticle.move p ws wd) = false ->
  WindParticle.expired (WindParticle.move p ws wd) = false ->
  WindParticle.update p ws wd g
  = Ok (WindParticle.check_vertical (WindParticle.move p ws wd), g).
Proof.
  intros Hh He. unfold WindParticle.update, WindParticle.check_horizontal.
  rewrite Hh. unfold bind, ret, WindParticle.check_lifetime.
  rewrite expired_check_vertical, He. reflexivity.
Qed.

Lemma update_expired p ws wd g :
  WindParticle.horizontal_exit (WindParticle.move p ws wd) = false ->
  WindParticle.expired (WindParticle.move p ws wd) = true ->
  WindParticle.update p ws wd g
  = WindParticle.reset (WindParticle.move p ws wd) g.
Proof.
  intros Hh He. unfold WindParticle.update, WindParticle.check_horizontal.
  rewrite Hh. unfold bind, ret, WindParticle.check_lifetime.
  rewrite expired_check_vertical, He.
  apply reset_kept, kept_check_vertical.
Qed.

Lemma check_vertical_in_bounds p :
  (1 <= WindParticle.max_rows p)%Z ->
  WindParticle.horizontal_exit p = false ->
  in_bounds (WindParticle.check_vertical p).
Proof.
  intros Hr Hh. unfold WindParticle.horizontal_exit in Hh.
  apply orb_false_iff in Hh. destruct Hh as [Hx1 Hx2].
  apply Rgeb_false in Hx1. apply Rltb_false in Hx2.
  apply IZR_le in Hr.
  unfold in_bounds, WindParticle.check_vertical.
  destruct (Rgeb (WindParticle.y p) _) eqn:E1.
  - cbn. lra.
  - apply Rgeb_false in E1. destruct (Rltb (WindParticle.y p) 0) eqn:E2.
    + cbn. lra.
    + apply Rltb_false in E2. lra.
Qed.

Lemma PI_gt_3 : 3 < PI.
Proof. pose proof PI2_3_2. lra. Qed.

Lemma small_angle_trig a :
  0 < a < 1 -> 0 < sin a <= 1 /\ 0 < cos a < 1.
Proof.
  intros Ha. pose proof PI_gt_3.
  assert (Hs : 0 < sin a) by (apply sin_gt_0; lra).
  assert (Hc : 0 < cos a) by (apply cos_gt_0; lra).
  pose proof (SIN_bound a). pose proof (sin2_cos2 a) as H2.
  unfold Rsqr in H2. repeat split; try lra. nra.
Qed.

Lemma bottom_particle_wave :
  0 < WindParticle.wave_offset bottom_particle 0.03 < 1.
Proof.
  unfold WindParticle.wave_offset, bottom_particle. particle_fields.
  replace (0.03 * 0.25 * 8 + 0) with 0.06 by lra.
  replace (0.03 * 0.25 * 4 + 0 * 2) with 0.03 by lra.
  destruct (small_angle_trig 0.06) as [Hs _]; [lra | ].
  destruct (small_angle_trig 0.03) as [_ Hc]; [lra | ].
  lra.
Qed.

Lemma bottom_particle_moves :
  WindParticle.horizontal_exit (WindParticle.move bottom_particle 1 1) = false
  /\ WindParticle.expired (WindParticle.move bottom_particle 1 1) = false
  /\ WindParticle.y (WindParticle.move bottom_particle 1 1)
     = 23 + WindParticle.wave_offset bottom_particle 0.03.
Proof.
  split; [ | split].
  - unfold WindParticle.horizontal_exit. apply orb_false_iff. split.
    + apply Rgeb_false. cbn. lra.
    + apply Rltb_false. cbn. lra.
  - apply Rgeb_false. cbn. unfold UPDATE_INTERVAL. lra.
  - cbn. unfold UPDATE_INTERVAL, WindParticle.wave_offset. cbn.
    replace (0 + 0.03) with 0.03 by lra. reflexivity.
Qed.

(** The sample particles are particles [__init__] creates. *)
Lemma spawn_tape_valid u : 0 <= u < 1 -> valid_tape (spawn_tape u).
Proof.
  intros Hu n. do 10 (destruct n as [ | n]; [cbn; lra | ]). cbn. lra.
Qed.

Lemma bottom_particle_spawned :
  WindParticle.init 10 23 24 80 false (mkRng (spawn_tape 0) 0)
  = Ok (bottom_particle, mkRng (spawn_tape 0) 10).
Proof.
  unfold WindParticle.init. repeat draw_step. unfold ret, bottom_particle.
  do 2 f_equal. cbn. f_equal; lra.
Qed.

Lemma quarter_particle_spawned :
  WindParticle.init 10 12 24 80 false (mkRng (spawn_tape (1 / 4)) 0)
  = Ok (quarter_particle, mkRng (spawn_tape (1 / 4)) 10).
Proof.
  unfold WindParticle.init. repeat draw_step. unfold ret, quarter_particle.
  do 2 f_equal. cbn. f_equal; lra.
Qed.

(** C3, as stated, fails: a particle created on the last row of a
    24 x 80 grid drifts down by less than one row in its first update; it
    is neither reset nor clamped, and ends the tick with [y] above
    [rows - 1] (and below [rows]). *)
Lemma update_overshoots_last_row :
  let g := mkRng (spawn_tape 0) 10 in
  WindParticle.init 10 23 24 80 false (mkRng (spawn_tape 0) 0)
  = Ok (bottom_particle, g) /\
  exists p',
    WindParticle.update bottom_particle 1 1 g = Ok (p', g) /\
    WindParticle.horizontal_exit (WindParticle.move bottom_particle 1 1)
    = false /\
    WindParticle.expired (WindParticle.move bottom_particle 1 1) = false /\
    ~ (WindParticle.y p' <= IZR (WindParticle.max_rows p') - 1).
Proof.
  split; [exact bottom_particle_spawned | ].
  pose proof bottom_particle_wave as Hw.
  destruct bottom_particle_moves as (Hh & He & Hy).
  eexists. split; [apply update_no_reset; assumption | ].
  split; [exact Hh | split; [exact He | ]].
  unfold WindParticle.check_vertical.
  destruct (Rgeb _ _) eqn:E1.
  { apply Rgeb_true in E1. rewrite Hy in E1. cbn in E1. lra. }
  destruct (Rltb _ _) eqn:E2.
  { apply Rltb_true in E2. rewrite Hy in E2. lra. }
  rewrite Hy. cbn. lra.
Qed.

Lemma check_vertical_fixed p :
  in_bounds p -> WindParticle.check_vertical p = p.
Proof.
  intros [[H0 Hr] _]. unfold WindParticle.check_vertical.
  destruct (Rgeb _ _) eqn:E1; [apply Rgeb_true in E1; lra | ].
  destruct (Rltb _ _) eqn:E2; [apply Rltb_true in E2; lra | reflexivity].
Qed.

(** What one call of [reset] reads from the tape: the first draw chooses
    the branch, the column is drawn only on the second branch, and the
    sampled fields follow in the order of lines 80-90. *)
Lemma reset_run p g :
  (1 <= WindParticle.max_rows p)%Z -> (1 <= WindParticle.max_cols p)%Z ->
  let k := if Rltb (unit_draw (current g)) 0.3 then 0%nat else 1%nat in
  let u := fun n => unit_draw (tape g (pos g + k + n)) in
  exists p',
    WindParticle.reset p g = Ok (p', mkRng (tape g) (pos g + k + 12)) /\
    WindParticle.age p' = 0 /\
    WindParticle.speed p' = 0.5 + (1.5 - 0.5) * u 2%nat /\
    WindParticle.amplitude p' = 0.8 + (3.0 - 0.8) * u 4%nat /\
    WindParticle.frequency p' = 0.2 + (0.5 - 0.2) * u 5%nat /\
    WindParticle.lifetime p' = 2 + (6 - 2) * u 7%nat.
Proof.
  intros Hr Hc. unfold WindParticle.reset. draw_step.
  destruct (Rltb (unit_draw (current g)) 0.3); repeat draw_step;
    unfold ret; cbv zeta; eexists;
    (split;
     [ match goal with
       | |- Ok (?a, ?b) = Ok (_, ?c) =>
           replace c with b; [reflexivity | ]
       end;
       unfold advance; cbn [tape pos]; f_equal; lia
     | ]);
    particle_fields; unfold current, advance; cbn [tape pos];
    repeat split;
    match goal with
    | |- _ + _ * unit_draw (tape g ?n) = _ + _ * unit_draw (tape g ?m) =>
        replace m with n by lia; reflexivity
    end.
Qed.

(** A horizontal exit makes [update] return what [reset] returns: the
    particle [reset] leaves is in its grid and has age 0, so neither of
    the two later checks of [update] touches it. *)
Lemma update_horizontal_exit p ws wd g :
  valid_tape (tape g) ->
  (1 <= WindParticle.max_rows p)%Z -> (1 <= WindParticle.max_cols p)%Z ->
  WindParticle.horizontal_exit (WindParticle.move p ws wd) = true ->
  WindParticle.update p ws wd g
  = WindParticle.reset (WindParticle.move p ws wd) g.
Proof.
  intros Hv Hr Hc Hh.
  unfold WindParticle.update, WindParticle.check_horizontal.
  rewrite Hh. unfold bind.
  destruct (reset_spec (WindParticle.move p ws wd) g Hv Hr Hc)
    as (p1 & g1 & E & _ & _ & Hs & Hcell).
  rewrite E. rewrite (check_vertical_fixed p1 (on_cell_in_bounds p1 Hcell)).
  unfold WindParticle.check_lifetime, WindParticle.expired.
  destruct Hs.
  destruct (Rgeb _ _) eqn:Ee; [apply Rgeb_true in Ee; lra | reflexivity].
Qed.

(** C3 (amended): on a grid of at least one row and one column, with
    draws of [random()] in [0, 1), [update] returns a particle with
    [0 <= y < rows] and [0 <= x < cols].  A horizontal exit of the moved
    particle ([x >= cols] or [x < 0]) always forces a reset: [update]
    then returns what [reset] returns, at least twelve draws later.  A
    tick resets nothing (draws nothing) exactly when the moved particle
    neither leaves horizontally nor has reached its lifetime; then a
    vertical exit is clamped to the nearest edge ([rows - 1] or [0]) with
    [pi] added to the phase, and a particle that stays within the rows is
    the moved particle. *)
Theorem update_without_reset_in_grid p ws wd g :
  valid_tape (tape g) ->
  (1 <= WindParticle.max_rows p)%Z -> (1 <= WindParticle.max_cols p)%Z ->
  let m := WindParticle.move p ws wd in
  let rows := IZR (WindParticle.max_rows p) in
  let cols := IZR (WindParticle.max_cols p) in
  exists p' g',
    WindParticle.update p ws wd g = Ok (p', g') /\
    0 <= WindParticle.y p' < rows /\ 0 <= WindParticle.x p' < cols /\
    (WindParticle.horizontal_exit m = true ->
     WindParticle.reset m g = Ok (p', g') /\ (pos g + 12 <= pos g')%nat) /\
    (g' = g <->
     WindParticle.horizontal_exit m = false /\
     WindParticle.expired m = false) /\
    (g' = g ->
     (rows <= WindParticle.y m ->
      WindParticle.y p' = rows - 1 /\
      WindParticle.phase p' = WindParticle.phase m + PI) /\
     (WindParticle.y m < 0 ->
      WindParticle.y p' = 0 /\
      WindParticle.phase p' = WindParticle.phase m + PI) /\
     (0 <= WindParticle.y m < rows -> p' = m)).
Proof.
  intros Hv Hr Hc m rows cols.
  assert (Hreset : WindParticle.horizontal_exit m = true
                   \/ WindParticle.expired m = true ->
                   WindParticle.update p ws wd g = WindParticle.reset m g).
  { intros [Hh | He].
    - apply update_horizontal_exit; assumption.
    - destruct (WindParticle.horizontal_exit m) eqn:Hh.
      + apply update_horizontal_exit; assumption.
      + apply update_expired; assumption. }
  destruct (WindParticle.horizontal_exit m) eqn:Hh;
    [ | destruct (WindParticle.expired m) eqn:He].
  3: {
    exists (WindParticle.check_vertical m), g.
    split; [apply update_no_reset; assumption | ].
    pose proof (check_vertical_in_bounds m Hr Hh) as [Hy Hx].
    destruct (size_check_vertical m) as [Er Ec]. rewrite Er in Hy.
    rewrite Ec in Hx.
    split; [exact Hy | split; [exact Hx | ]].
    split; [discriminate | ]. split; [tauto | ]. intros _.
    apply IZR_le in Hr. fold rows in Hr.
    unfold WindParticle.check_vertical.
    change (IZR (WindParticle.max_rows m)) with rows.
    destruct (Rgeb (WindParticle.y m) rows) eqn:E1.
    - apply Rgeb_true in E1. particle_fields.
      repeat split; intros; try reflexivity; lra.
    - apply Rgeb_false in E1.
      destruct (Rltb (WindParticle.y m) 0) eqn:E2.
      + apply Rltb_true in E2. particle_fields.
        repeat split; intros; try reflexivity; lra.
      + apply Rltb_false in E2. repeat split; intros; try reflexivity; lra. }
  all: destruct (reset_spec m g Hv Hr Hc)
         as (p1 & g1 & E & _ & K & _ & Hcell);
    destruct (reset_run m g Hr Hc) as (p1' & E' & _);
    rewrite E in E'; injection E' as _ Eg;
    assert (Hpos : (pos g + 12 <= pos g1)%nat) by (rewrite Eg; cbn [pos]; lia);
    assert (Hne : g1 <> g) by (intros ->; lia);
    exists p1, g1;
    (split; [rewrite Hreset by tauto; exact E | ]);
    pose proof (on_cell_in_bounds p1 Hcell) as [Hy Hx];
    unfold kept in K; injection K as Kr Kc _ _;
    rewrite Kr in Hy; rewrite Kc in Hx;
    (split; [exact Hy | split; [exact Hx | ]]).
  - split; [intros _; split; [exact E | exact Hpos] | ].
    split; [split; [contradiction | intros [H _]; discriminate] | ].
    contradiction.
  - split; [discriminate | ].
    split; [split; [contradiction | intros [_ H]; discriminate] | ].
    contradiction.
Qed.

Lemma update_without_reset_in_grid_witness :
  valid_tape (tape steady) /\
  (1 <= WindParticle.max_rows bottom_particle)%Z /\
  (1 <= WindParticle.max_cols bottom_particle)%Z /\
  exists p',
    WindParticle.update bottom_particle 1 1 steady = Ok (p', steady) /\
    0 <= WindParticle.y p' < 24 /\ 0 <= WindParticle.x p' < 80.
Proof.
  assert (Hv : valid_tape (tape steady)) by (intros n; cbn; lra).
  assert (Hr : (1 <= WindParticle.max_rows bottom_particle)%Z)
    by (cbn; lia).
  assert (Hc : (1 <= WindParticle.max_cols bottom_particle)%Z)
    by (cbn; lia).
  split; [exact Hv | split; [exact Hr | split; [exact Hc | ]]].
  destruct (update_without_reset_in_grid bottom_particle 1 1 steady
              Hv Hr Hc) as (p' & g' & Hu & Hy & Hx & _ & [_ Hg] & _).
  destruct bottom_particle_moves as (Hh & He & _).
  rewrite (Hg (conj Hh He)) in Hu.
  exists p'. split; [exact Hu | ]. split; [exact Hy | exact Hx].
Defined.

Lemma steady_valid : valid_tape (tape steady).
Proof. intros n. cbn. lra. Qed.

(** C4: on a particle of a grid with at least one row and one column
    (every particle [generate_particles] creates), and with draws of
    [random()] in [0, 1), [reset] returns and advances the generator by
    twelve draws, or by thirteen when the column is drawn too.  It sets
    [age = 0], and the four motion fields are sampled afresh, each from a
    draw of its own made in this call: the speed is [uniform(0.5, 1.5)],
    the amplitude [uniform(0.8, 3.0)], the frequency [uniform(0.2, 0.5)]
    and the lifetime [uniform(2, 6)] of that draw, so each lies in its
    range.  The particle it returns is the same for any pre-reset particle
    with the same unassigned fields (grid size, [original_x],
    [density_mode]), so no sampled field survives a reset. *)
Theorem reset_yields_fresh_particle p g :
  valid_tape (tape g) ->
  (1 <= WindParticle.max_rows p)%Z -> (1 <= WindParticle.max_cols p)%Z ->
  let k := if Rltb (unit_draw (current g)) 0.3 then 0%nat else 1%nat in
  let u := fun n => unit_draw (tape g (pos g + k + n)) in
  exists p' g',
    WindParticle.reset p g = Ok (p', g') /\
    tape g' = tape g /\ pos g' = (pos g + k + 12)%nat /\
    WindParticle.age p' = 0 /\
    WindParticle.lifetime p' = 2 + (6 - 2) * u 7%nat /\
    2 <= WindParticle.lifetime p' <= 6 /\
    WindParticle.speed p' = 0.5 + (1.5 - 0.5) * u 2%nat /\
    0.5 <= WindParticle.speed p' <= 1.5 /\
    WindParticle.amplitude p' = 0.8 + (3.0 - 0.8) * u 4%nat /\
    0.8 <= WindParticle.amplitude p' <= 3.0 /\
    WindParticle.frequency p' = 0.2 + (0.5 - 0.2) * u 5%nat /\
    0.2 <= WindParticle.frequency p' <= 0.5 /\
    forall q, kept q = kept p -> WindParticle.reset q g = Ok (p', g').
Proof.
  intros Hv Hr Hc k u.
  destruct (reset_spec p g Hv Hr Hc) as (p' & g' & Hreset & _ & _ & Hs & _).
  destruct (reset_run p g Hr Hc) as (p1 & E & _ & Es & Ea & Ef & El).
  fold k in E. fold k u in Es, Ea, Ef, El.
  rewrite Hreset in E. injection E as <- Eg.
  exists p', g'. split; [exact Hreset | ].
  split; [rewrite Eg; reflexivity | ].
  split; [rewrite Eg; reflexivity | ].
  destruct Hs.
  repeat (split; [assumption | ]).
  intros q Hq. rewrite (reset_kept p q g Hq). exact Hreset.
Qed.

Lemma reset_yields_fresh_particle_witness :
  valid_tape (tape steady) /\
  (1 <= WindParticle.max_rows bottom_particle)%Z /\
  (1 <= WindParticle.max_cols bottom_particle)%Z /\
  exists p' g',
    WindParticle.reset bottom_particle steady = Ok (p', g') /\
    pos g' = 13%nat /\
    WindParticle.age p' = 0 /\ WindParticle.lifetime p' = 4 /\
    WindParticle.speed p' = 1.
Proof.
  assert (Hv : valid_tape (tape steady)) by (intros n; cbn; lra).
  assert (Hr : (1 <= WindParticle.max_rows bottom_particle)%Z)
    by (cbn; lia).
  assert (Hc : (1 <= WindParticle.max_cols bottom_particle)%Z)
    by (cbn; lia).
  split; [exact Hv | split; [exact Hr | split; [exact Hc | ]]].
  destruct (reset_yields_fresh_particle bottom_particle steady Hv Hr Hc)
    as (p' & g' & Hreset & _ & Hpos & Hage & Hl & _ & Hsp & _).
  assert (Ek : Rltb (unit_draw (current steady)) 0.3 = false)
    by (apply Rltb_false; cbn; lra).
  rewrite Ek in Hpos, Hl, Hsp.
  exists p', g'. split; [exact Hreset | ]. split; [exact Hpos | ].
  split; [exact Hage | ].
  split; [rewrite Hl; cbn; lra | rewrite Hsp; cbn; lra].
Defined.

(** ** The order of the steps of update *)

Lemma quarter_particle_waves :
  WindParticle.wave_offset quarter_particle (0 + UPDATE_INTERVAL)
  < WindParticle.wave_offset quarter_particle 0.
Proof.
  unfold WindParticle.wave_offset, quarter_particle, UPDATE_INTERVAL.
  particle_fields.
  replace ((0 + 0.03) * 0.25 * 8 + PI / 2) with (PI / 2 + 2 * 0.03) by lra.
  replace ((0 + 0.03) * 0.25 * 4 + PI / 2 * 2) with (0.03 + PI) by lra.
  replace (0 * 0.25 * 8 + PI / 2) with (PI / 2) by lra.
  replace (0 * 0.25 * 4 + PI / 2 * 2) with PI by lra.
  rewrite <- cos_sin, neg_cos, cos_2a_cos, sin_PI2, cos_PI.
  destruct (small_angle_trig 0.03) as [_ Hc]; [lra | ].
  nra.
Qed.

(** C5, as stated, fails: for a particle created with a phase of
    [pi / 2], the displacement added to [y] by its first update is not the
    one computed from the age before the tick's increment. *)
Lemma wave_uses_incremented_age :
  WindParticle.init 10 12 24 80 false (mkRng (spawn_tape (1 / 4)) 0)
  = Ok (quarter_particle, mkRng (spawn_tape (1 / 4)) 10) /\
  WindParticle.age quarter_particle = 0 /\
  WindParticle.y (WindParticle.move quarter_particle 1 1)
  <> WindParticle.y quarter_particle
     + WindParticle.wave_offset quarter_particle
         (WindParticle.age quarter_particle).
Proof.
  split; [exact quarter_particle_spawned | ].
  split; [reflexivity | ].
  pose proof quarter_particle_waves as Hw.
  change (WindParticle.y (WindParticle.move quarter_particle 1 1))
    with (12 + WindParticle.wave_offset quarter_particle
                 (0 + UPDATE_INTERVAL)).
  change (WindParticle.y quarter_particle) with 12.
  change (WindParticle.age quarter_particle) with 0.
  lra.
Qed.

(** C5 (amended): in a particle's per-tick update the age is incremented
    first, then [x] is advanced, then the wave displacement added to [y]
    is computed from the age as it is after that tick's increment. *)
Theorem move_order p ws wd :
  let m := WindParticle.move p ws wd in
  WindParticle.age m = WindParticle.age p + UPDATE_INTERVAL /\
  WindParticle.x m
  = WindParticle.x p
    + WindParticle.speed p * (1 + (IZR (WindParticle.layer p) - 1) * 0.3)
      * ws * IZR wd /\
  WindParticle.y m
  = WindParticle.y p
    + WindParticle.wave_offset p (WindParticle.age p + UPDATE_INTERVAL) /\
  WindParticle.wave_offset p (WindParticle.age p + UPDATE_INTERVAL)
  = 0.4 * (sin ((WindParticle.age p + UPDATE_INTERVAL)
                * WindParticle.frequency p * 8 + WindParticle.phase p)
           * WindParticle.amplitude p
           + cos ((WindParticle.age p + UPDATE_INTERVAL)
                  * WindParticle.frequency p * 4 + 2 * WindParticle.phase p)
             * WindParticle.amplitude p * 0.3).
Proof.
  cbv zeta. repeat split.
  unfold WindParticle.wave_offset.
  replace (WindParticle.phase p * 2) with (2 * WindParticle.phase p) by ring.
  ring.
Qed.

Lemma check_vertical_bounces p :
  vertical_exit p = true ->
  WindParticle.phase (WindParticle.check_vertical p)
  = WindParticle.phase p + PI /\
  (WindParticle.y (WindParticle.check_vertical p)
   = IZR (WindParticle.max_rows p) - 1
   \/ WindParticle.y (WindParticle.check_vertical p) = 0).
Proof.
  unfold vertical_exit, WindParticle.check_vertical.
  destruct (Rgeb _ _); [intros _; split; [reflexivity | left; reflexivity] | ].
  destruct (Rltb _ _); [intros _; split; [reflexivity | right; reflexivity] | ].
  discriminate.
Qed.

Lemma expiring_particle_moves :
  WindParticle.horizontal_exit (WindParticle.move expiring_particle 1 1)
  = false
  /\ vertical_exit (WindParticle.move expiring_particle 1 1) = true
  /\ WindParticle.expired (WindParticle.move expiring_particle 1 1) = true.
Proof.
  split; [ | split].
  - unfold WindParticle.horizontal_exit. apply orb_false_iff. split.
    + apply Rgeb_false. cbn. lra.
    + apply Rltb_false. cbn. lra.
  - unfold vertical_exit. apply orb_true_iff. right. apply Rltb_true.
    cbn. unfold UPDATE_INTERVAL, WindParticle.wave_offset. cbn.
    replace ((2.97 + 0.03) * (PI / 12) * 8 + 0) with (2 * PI) by lra.
    replace ((2.97 + 0.03) * (PI / 12) * 4 + 0 * 2) with PI by lra.
    rewrite sin_2PI, cos_PI. lra.
  - apply Rgeb_true. cbn. unfold UPDATE_INTERVAL. lra.
Qed.

(** C7: [update] runs its checks in the order horizontal exit, vertical
    clamp, lifetime expiry; when the vertical bounce and the lifetime
    expiry both fire in one tick, what the bounce did (the clamped [y],
    the phase advanced by [pi]) is discarded: the update returns exactly
    what [reset] makes of the particle as it was before the bounce. *)
Theorem lifetime_reset_overrides_bounce p ws wd g :
  let m := WindParticle.move p ws wd in
  WindParticle.horizontal_exit m = false ->
  vertical_exit m = true ->
  WindParticle.expired m = true ->
  WindParticle.update p ws wd
  = (p1 <- WindParticle.check_horizontal m ;;
     WindParticle.check_lifetime (WindParticle.check_vertical p1)) /\
  WindParticle.phase (WindParticle.check_vertical m)
  = WindParticle.phase m + PI /\
  WindParticle.update p ws wd g
  = WindParticle.reset (WindParticle.check_vertical m) g /\
  WindParticle.update p ws wd g = WindParticle.reset m g.
Proof.
  intros m Hh Hv He. split; [reflexivity | ].
  split; [apply check_vertical_bounces; exact Hv | ].
  assert (E : WindParticle.update p ws wd g = WindParticle.reset m g)
    by (apply update_expired; assumption).
  split; [ | exact E].
  rewrite E. symmetry. apply reset_kept, kept_check_vertical.
Qed.

Lemma lifetime_reset_overrides_bounce_witness :
  WindParticle.horizontal_exit (WindParticle.move expiring_particle 1 1)
  = false /\
  vertical_exit (WindParticle.move expiring_particle 1 1) = true /\
  WindParticle.expired (WindParticle.move expiring_particle 1 1) = true /\
  WindParticle.update expiring_particle 1 1 steady
  = WindParticle.reset (WindParticle.move expiring_particle 1 1) steady.
Proof.
  destruct expiring_particle_moves as (Hh & Hv & He).
  split; [exact Hh | split; [exact Hv | split; [exact He | ]]].
  apply (lifetime_reset_overrides_bounce expiring_particle 1 1 steady
           Hh Hv He).
Defined.

(** ** WindSimulation.update_wind_pattern *)

Ltac wind_fields :=
  cbn [WindSimulation.wind_color WindSimulation.show_density
       WindSimulation.high_density WindSimulation.wind_strength
       WindSimulation.wind_direction WindSimulation.base_wind_strength
       WindSimulation.wind_variation_timer WindSimulation.gust_timer
       WindSimulation.gust_active WindSimulation.gust_strength
       WindSimulation.particles WindSimulation.rows WindSimulation.cols
       WindSimulation.frame_count WindSimulation.density_layers
       WindSimulation.set_show_density WindSimulation.set_high_density
       WindSimulation.set_wind_strength WindSimulation.set_wind_direction
       WindSimulation.set_base_wind_strength
       WindSimulation.set_wind_variation_timer
       WindSimulation.set_gust_timer WindSimulation.set_gust_active
       WindSimulation.set_gust_strength WindSimulation.set_particles
       WindSimulation.set_size WindSimulation.set_frame_count
       WindSimulation.set_density_layers].

Lemma gust_multiplier_pos pr : 0 < pr < 1 -> 0 < WindSimulation.gust_multiplier
  pr <= 1.
Proof.
  intros H. unfold WindSimulation.gust_multiplier.
  destruct (Rltb pr 0.2) eqn:E1.
  - apply Rltb_true in E1. lra.
  - apply Rltb_false in E1. destruct (Rltb pr 0.8) eqn:E2.
    + lra.
    + apply Rltb_false in E2. lra.
Qed.

Lemma progress_range t d : 0 < t -> t < d -> 0 < t / d < 1.
Proof.
  intros Ht Htd. assert (Hd : 0 < d) by lra. split.
  - apply Rdiv_lt_0_compat; assumption.
  - apply Rmult_lt_reg_r with d; [exact Hd | ].
    unfold Rdiv. rewrite Rmult_assoc, Rinv_l by lra. lra.
Qed.

Lemma blow_spec s g :
  gust_ready s ->
  exists s' g',
    WindSimulation.blow s g = Ok (s', g') /\ tape g' = tape g /\
    WindSimulation.base_wind_strength s' = WindSimulation.base_wind_strength s
      /\
    WindSimulation.wind_variation_timer s' =
      WindSimulation.wind_variation_timer s /\
    (WindSimulation.gust_active s' = false -> WindSimulation.wind_strength s' =
      WindSimulation.base_wind_strength s') /\
    (WindSimulation.gust_active s' = true -> WindSimulation.base_wind_strength
      s' < WindSimulation.wind_strength s') /\
    gust_ready s'.
Proof.
  intros Hready. unfold WindSimulation.blow. destruct
    (WindSimulation.gust_active s) eqn:Ea.
  - destruct (Hready Ea) as [Ht Hs].
    draw_step. wind_fields.
    set (d := 0.3 + (1.2 - 0.3) * unit_draw (current g)).
    destruct (Rltb (WindSimulation.gust_timer s + UPDATE_INTERVAL) d) eqn:E.
    + apply Rltb_true in E. unfold ret.
      eexists; eexists; split; [reflexivity | ].
      split; [reflexivity | ]. wind_fields.
      split; [reflexivity | split; [reflexivity | ]].
      rewrite Ea. split; [discriminate | ].
      assert (Hp : 0 < (WindSimulation.gust_timer s + UPDATE_INTERVAL) / d < 1).
      { apply progress_range; unfold UPDATE_INTERVAL in *; lra. }
      apply gust_multiplier_pos in Hp.
      split.
      * intros _. nra.
      * intros _. wind_fields. unfold UPDATE_INTERVAL. lra.
    + unfold ret. eexists; eexists; split; [reflexivity | ].
      split; [reflexivity | ]. wind_fields.
      split; [reflexivity | split; [reflexivity | ]].
      split; [reflexivity | ]. split; [discriminate | ].
      intros H. discriminate.
  - unfold ret. eexists; eexists; split; [reflexivity | ].
    split; [reflexivity | ]. wind_fields. rewrite Ea.
    split; [reflexivity | split; [reflexivity | ]].
    split; [reflexivity | ]. split; [discriminate | ].
    intros H. cbn in H. congruence.
Qed.

Lemma trigger_gust_spec s g :
  valid_tape (tape g) -> gust_ready s ->
  exists s' g',
    WindSimulation.trigger_gust s g = Ok (s', g') /\ tape g' = tape g /\
    WindSimulation.base_wind_strength s' = WindSimulation.base_wind_strength s
      /\
    WindSimulation.wind_variation_timer s' =
      WindSimulation.wind_variation_timer s /\
    gust_ready s'.
Proof.
  intros Hv Hready. unfold WindSimulation.trigger_gust.
  destruct (WindSimulation.gust_active s) eqn:Ea; cbn [negb].
  - unfold ret. exists s, g. repeat split; try reflexivity; apply Hready; exact
    Ea.
  - draw_step. destruct (Rltb _ _).
    + draw_step. unfold ret. eexists; eexists; split; [reflexivity | ].
      split; [reflexivity | ]. wind_fields.
      split; [reflexivity | split; [reflexivity | ]].
      intros _. wind_fields.
      assert (Hu : 0 <= unit_draw (current (advance g)) < 1) by apply Hv.
      split; [lra | nra].
    + unfold ret. exists s, (advance g). repeat split; try reflexivity;
        apply Hready; assumption.
Qed.

Lemma turn_spec s g :
  exists s' g',
    WindSimulation.turn s g = Ok (s', g') /\ tape g' = tape g /\
    WindSimulation.base_wind_strength s' = WindSimulation.base_wind_strength s
      /\
    WindSimulation.wind_variation_timer s' =
      WindSimulation.wind_variation_timer s /\
    WindSimulation.wind_strength s' = WindSimulation.wind_strength s /\
    WindSimulation.gust_active s' = WindSimulation.gust_active s /\
    WindSimulation.gust_timer s' = WindSimulation.gust_timer s /\
    WindSimulation.gust_strength s' = WindSimulation.gust_strength s.
Proof.
  unfold WindSimulation.turn. draw_step. destruct (Rltb _ _); unfold ret;
    eexists; eexists; (split; [reflexivity | ]); repeat split.
Qed.

(** One call of [update_wind_pattern], from a state whose gust fields are
    as [update_wind_pattern] leaves them. *)
Lemma update_wind_pattern_settles s g :
  valid_tape (tape g) -> gust_ready s ->
  exists s' g',
    WindSimulation.update_wind_pattern s g = Ok (s', g') /\
    WindSimulation.wind_variation_timer s' =
      WindSimulation.wind_variation_timer s + UPDATE_INTERVAL /\
    WindSimulation.base_wind_strength s'
    = Rmax 0.5 (1.2 + 0.4 * sin (0.8 * WindSimulation.wind_variation_timer s')
                + 0.2 * cos (0.3 * WindSimulation.wind_variation_timer s')) /\
    (WindSimulation.gust_active s' = false ->
     WindSimulation.wind_strength s' = WindSimulation.base_wind_strength s') /\
    (WindSimulation.gust_active s' = true ->
     WindSimulation.base_wind_strength s' < WindSimulation.wind_strength s') /\
    gust_ready s'.
Proof.
  intros Hv Hready. unfold WindSimulation.update_wind_pattern.
  assert (Hready0 : gust_ready (WindSimulation.vary_base s)) by exact Hready.
  destruct (trigger_gust_spec (WindSimulation.vary_base s) g Hv Hready0)
    as (s1 & g1 & E1 & T1 & B1 & V1 & R1).
  destruct (blow_spec s1 g1 R1) as (s2 & g2 & E2 & T2 & B2 & V2 & I2 & A2 & R2).
  destruct (turn_spec s2 g2) as (s3 & g3 & E3 & T3 & B3 & V3 & W3 & A3 & M3 &
    G3).
  exists s3, g3. unfold bind. rewrite E1, E2, E3.
  split; [reflexivity | ].
  split; [rewrite V3, V2, V1; reflexivity | ].
  split.
  { rewrite B3, B2, B1, V3, V2, V1. unfold WindSimulation.vary_base.
    wind_fields.
    set (t := WindSimulation.wind_variation_timer s + UPDATE_INTERVAL).
    replace (t * 0.8) with (0.8 * t) by ring.
    replace (t * 0.3) with (0.3 * t) by ring.
    f_equal. ring. }
  rewrite B3, W3, A3. split; [exact I2 | split; [exact A2 | ]].
  unfold gust_ready. rewrite A3, M3, G3. exact R2.
Qed.

(** ** The gust, tick by tick *)

Lemma trigger_active s g :
  WindSimulation.gust_active s = true -> WindSimulation.trigger_gust s g = Ok
    (s, g).
Proof. intros Ha. unfold WindSimulation.trigger_gust. rewrite Ha. reflexivity.
  Qed.

Lemma trigger_fires s g :
  WindSimulation.gust_active s = false ->
  unit_draw (current g) < WindSimulation.gust_chance s ->
  WindSimulation.trigger_gust s g
  = Ok (WindSimulation.set_gust_strength
          (WindSimulation.set_gust_timer (WindSimulation.set_gust_active s
            true) 0)
          (2.5 + (5.0 - 2.5) * unit_draw (current (advance g))),
        advance (advance g)).
Proof.
  intros Ha Hc. unfold WindSimulation.trigger_gust. rewrite Ha. cbn [negb].
  draw_step. apply Rltb_true in Hc. rewrite Hc. draw_step. reflexivity.
Qed.

Lemma blow_continues s g :
  WindSimulation.gust_active s = true ->
  WindSimulation.gust_timer s + UPDATE_INTERVAL < drawn_duration g ->
  WindSimulation.blow s g
  = Ok (WindSimulation.set_wind_strength
          (WindSimulation.set_gust_timer s (WindSimulation.gust_timer s +
            UPDATE_INTERVAL))
          (WindSimulation.base_wind_strength s
           + WindSimulation.gust_strength s
             * WindSimulation.gust_multiplier
                 ((WindSimulation.gust_timer s + UPDATE_INTERVAL) /
                   drawn_duration g)),
        advance g).
Proof.
  intros Ha Hd. unfold WindSimulation.blow. rewrite Ha. draw_step. wind_fields.
  apply Rltb_true in Hd. unfold drawn_duration in *. rewrite Hd.
  reflexivity.
Qed.

Lemma blow_ends s g :
  WindSimulation.gust_active s = true ->
  drawn_duration g <= WindSimulation.gust_timer s + UPDATE_INTERVAL ->
  WindSimulation.blow s g
  = Ok (WindSimulation.set_wind_strength
          (WindSimulation.set_gust_active
             (WindSimulation.set_gust_timer s (WindSimulation.gust_timer s +
               UPDATE_INTERVAL)) false)
          (WindSimulation.base_wind_strength s),
        advance g).
Proof.
  intros Ha Hd. unfold WindSimulation.blow. rewrite Ha. draw_step. wind_fields.
  apply Rltb_false in Hd. unfold drawn_duration in *. rewrite Hd.
  reflexivity.
Qed.

Lemma turn_run s g :
  exists s',
    WindSimulation.turn s g = Ok (s', advance g) /\
    WindSimulation.base_wind_strength s' = WindSimulation.base_wind_strength s
      /\
    WindSimulation.wind_strength s' = WindSimulation.wind_strength s /\
    WindSimulation.gust_active s' = WindSimulation.gust_active s /\
    WindSimulation.gust_timer s' = WindSimulation.gust_timer s /\
    WindSimulation.gust_strength s' = WindSimulation.gust_strength s.
Proof.
  unfold WindSimulation.turn. draw_step. destruct (Rltb _ _); unfold ret;
    eexists; (split; [reflexivity | ]); repeat split.
Qed.

Lemma active_tick s g :
  WindSimulation.gust_active s = true ->
  WindSimulation.gust_timer s + UPDATE_INTERVAL < drawn_duration g ->
  exists s',
    WindSimulation.update_wind_pattern s g = Ok (s', advance (advance g)) /\
    WindSimulation.gust_active s' = true /\
    WindSimulation.gust_timer s' = WindSimulation.gust_timer s +
      UPDATE_INTERVAL /\
    WindSimulation.gust_strength s' = WindSimulation.gust_strength s.
Proof.
  intros Ha Hd. unfold WindSimulation.update_wind_pattern, bind.
  rewrite trigger_active by exact Ha.
  rewrite blow_continues by assumption.
  match goal with |- context [WindSimulation.turn ?s1 ?g1] =>
    destruct (turn_run s1 g1) as (s' & E & _ & _ & A & T & G) end.
  exists s'. rewrite E. split; [reflexivity | ].
  rewrite A, T, G. wind_fields. repeat split. exact Ha.
Qed.

Lemma ending_tick s g :
  WindSimulation.gust_active s = true ->
  drawn_duration g <= WindSimulation.gust_timer s + UPDATE_INTERVAL ->
  exists s',
    WindSimulation.update_wind_pattern s g = Ok (s', advance (advance g)) /\
    WindSimulation.gust_active s' = false /\
    WindSimulation.gust_timer s' = WindSimulation.gust_timer s +
      UPDATE_INTERVAL /\
    WindSimulation.wind_strength s' = WindSimulation.base_wind_strength s'.
Proof.
  intros Ha Hd. unfold WindSimulation.update_wind_pattern, bind.
  rewrite trigger_active by exact Ha.
  rewrite blow_ends by assumption.
  match goal with |- context [WindSimulation.turn ?s1 ?g1] =>
    destruct (turn_run s1 g1) as (s' & E & B & W & A & T & _) end.
  exists s'. rewrite E. split; [reflexivity | ].
  rewrite A, T, B, W. wind_fields. repeat split.
Qed.

Lemma starting_tick s g :
  WindSimulation.gust_active s = false ->
  unit_draw (current g) < WindSimulation.gust_chance s ->
  UPDATE_INTERVAL < drawn_duration (advance (advance g)) ->
  exists s',
    WindSimulation.update_wind_pattern s g
    = Ok (s', advance (advance (advance (advance g)))) /\
    WindSimulation.gust_active s' = true /\
    WindSimulation.gust_timer s' = UPDATE_INTERVAL /\
    WindSimulation.gust_strength s'
    = 2.5 + (5.0 - 2.5) * unit_draw (current (advance g)).
Proof.
  intros Ha Hc Hd. unfold WindSimulation.update_wind_pattern, bind.
  rewrite trigger_fires by assumption.
  rewrite blow_continues;
    [ | reflexivity | wind_fields; lra ].
  match goal with |- context [WindSimulation.turn ?s1 ?g1] =>
    destruct (turn_run s1 g1) as (s' & E & _ & _ & A & T & G) end.
  exists s'. rewrite E. split; [reflexivity | ].
  rewrite A, T, G. wind_fields. repeat split. lra.
Qed.

Lemma active_ticks n : forall s g,
  WindSimulation.gust_active s = true ->
  (forall j, (j < n)%nat ->
     WindSimulation.gust_timer s + INR (S j) * UPDATE_INTERVAL
     < drawn_duration (at_pos g (pos g + 2 * j))) ->
  exists s',
    wind_ticks n s g = Ok (s', at_pos g (pos g + 2 * n)) /\
    WindSimulation.gust_active s' = true /\
    WindSimulation.gust_timer s' = WindSimulation.gust_timer s + INR n *
      UPDATE_INTERVAL /\
    WindSimulation.gust_strength s' = WindSimulation.gust_strength s.
Proof.
  induction n as [ | n IH]; intros s g Ha Hd.
  - exists s. cbn [wind_ticks]. unfold ret, at_pos.
    rewrite Nat.mul_0_r, Nat.add_0_r. destruct g; cbn.
    repeat split; [exact Ha | lra].
  - destruct (active_tick s g Ha) as (s1 & E1 & A1 & T1 & G1).
    { specialize (Hd 0%nat ltac:(lia)). unfold at_pos in Hd.
      rewrite Nat.mul_0_r, Nat.add_0_r in Hd. destruct g.
      cbn in Hd |- *. lra. }
    destruct (IH s1 (advance (advance g)) A1) as (s' & E & A & T & G).
    { intros j Hj. specialize (Hd (S j) ltac:(lia)).
      rewrite T1. rewrite (S_INR (S j)) in Hd.
      unfold at_pos in *. cbn [advance tape pos].
      replace (S (S (pos g)) + 2 * j)%nat
        with (pos g + 2 * S j)%nat by lia.
      lra. }
    exists s'. cbn [wind_ticks]. unfold bind. rewrite E1, E.
    split.
    { unfold at_pos. cbn [advance tape pos].
      replace (pos g + 2 * S n)%nat
        with (S (S (pos g)) + 2 * n)%nat by lia.
      reflexivity. }
    split; [exact A | ]. rewrite T, T1, G, G1, S_INR.
    split; [lra | reflexivity].
Qed.

Lemma wind_ticks_plus n m s g :
  wind_ticks (n + m) s g = (s' <- wind_ticks n s ;; wind_ticks m s') g.
Proof.
  revert s g. induction n as [ | n IH]; intros s g.
  - reflexivity.
  - cbn [wind_ticks Nat.add]. unfold bind.
    destruct (WindSimulation.update_wind_pattern s g) as [[s1 g1] | e]; [ |
      reflexivity].
    apply IH.
Qed.

Lemma gusty_tape_late j :
  (j < 9)%nat -> gusty_tape (4 + 2 * j) = mkDraw 0.9 0.
Proof.
  intros Hj. unfold gusty_tape.
  destruct (Nat.eqb_spec (4 + 2 * j) 0); [lia | ].
  destruct (Nat.eqb_spec (4 + 2 * j) 22); [lia | reflexivity].
Qed.

(** C1 does not hold of the code: the duration is drawn by every tick of
    an active gust, not once at activation.  From the initial state, on
    [gusty_tape], the first tick starts a gust and draws a duration of
    1.11 s; the gust is still active after ten ticks (0.3 s), and the
    eleventh tick, which draws 0.3 s, ends it after 0.33 s. *)
Theorem gust_outlived_by_its_duration :
  let g0 := mkRng gusty_tape 0 in
  valid_tape gusty_tape /\
  (exists s1,
      wind_ticks 1 calm_simulation g0 = Ok (s1, at_pos g0 4) /\
      WindSimulation.gust_active s1 = true /\
      drawn_duration (at_pos g0 2) = 1.11) /\
  (exists s10,
      wind_ticks 10 calm_simulation g0 = Ok (s10, at_pos g0 22) /\
      WindSimulation.gust_active s10 = true /\ WindSimulation.gust_timer s10 =
        0.3) /\
  (exists s11,
      wind_ticks 11 calm_simulation g0 = Ok (s11, at_pos g0 24) /\
      WindSimulation.gust_active s11 = false /\ WindSimulation.gust_timer s11 =
        0.33 /\
      drawn_duration (at_pos g0 22) = 0.3).
Proof.
  intros g0.
  assert (Hv : valid_tape gusty_tape).
  { intros n. unfold gusty_tape.
    destruct (n =? 0)%nat; [cbn; lra | ].
    destruct (n =? 22)%nat; cbn; lra. }
  split; [exact Hv | ].
  destruct (starting_tick calm_simulation g0) as (s1 & E1 & A1 & T1 & G1).
  { reflexivity. }
  { cbn. lra. }
  { unfold drawn_duration, UPDATE_INTERVAL. cbn. lra. }
  change (advance (advance (advance (advance g0)))) with (at_pos g0 4) in E1.
  assert (H1 : wind_ticks 1 calm_simulation g0 = Ok (s1, at_pos g0 4)).
  { cbn [wind_ticks]. unfold bind. rewrite E1. reflexivity. }
  destruct (active_ticks 9 s1 (at_pos g0 4) A1) as (s10 & E10 & A10 & T10 &
    G10).
  { intros j Hj. rewrite T1. unfold drawn_duration, current, at_pos.
    cbn [tape pos g0]. rewrite gusty_tape_late by exact Hj.
    cbn [unit_draw]. unfold UPDATE_INTERVAL.
    assert (INR (S j) <= INR 9) by (apply le_INR; lia).
    assert (INR 9 = 9) by (cbn; lra).
    lra. }
  change (at_pos (at_pos g0 4) (pos (at_pos g0 4) + 2 * 9))
    with (at_pos g0 22) in E10.
  assert (H10 : wind_ticks 10 calm_simulation g0 = Ok (s10, at_pos g0 22)).
  { change 10%nat with (1 + 9)%nat. rewrite wind_ticks_plus. unfold bind.
    rewrite H1. exact E10. }
  assert (T10' : WindSimulation.gust_timer s10 = 0.3).
  { rewrite T10, T1. unfold UPDATE_INTERVAL. cbn [INR]. lra. }
  destruct (ending_tick s10 (at_pos g0 22) A10) as (s11 & E11 & A11 & T11 &
    W11).
  { rewrite T10'. unfold drawn_duration, UPDATE_INTERVAL. cbn. lra. }
  change (advance (advance (at_pos g0 22))) with (at_pos g0 24) in E11.
  split; [ | split].
  - exists s1. split; [exact H1 | split; [exact A1 | ]].
    unfold drawn_duration. cbn. lra.
  - exists s10. split; [exact H10 | split; [exact A10 | exact T10']].
  - exists s11. split.
    { change 11%nat with (10 + 1)%nat. rewrite wind_ticks_plus. unfold bind.
      rewrite H10. cbn [wind_ticks]. unfold bind. rewrite E11. reflexivity. }
    split; [exact A11 | ]. split.
    + rewrite T11, T10'. unfold UPDATE_INTERVAL. lra.
    + unfold drawn_duration. cbn. lra.
Qed.

(** A tick in mid-gust: the gust goes on, above the base strength. *)
Lemma gusty_simulation_settles :
  valid_tape (tape steady) /\ gust_ready gusty_simulation /\
  exists s' g',
    WindSimulation.update_wind_pattern gusty_simulation steady = Ok (s', g') /\
    (WindSimulation.gust_active s' = true ->
     WindSimulation.base_wind_strength s' < WindSimulation.wind_strength s').
Proof.
  assert (Hv : valid_tape (tape steady)) by (intros n; cbn; lra).
  assert (Hr : gust_ready gusty_simulation) by (intros _; cbn; lra).
  split; [exact Hv | split; [exact Hr | ]].
  destruct (update_wind_pattern_settles gusty_simulation steady Hv Hr)
    as (s' & g' & Hrun & _ & _ & _ & Hgust & _).
  exists s', g'. split; [exact Hrun | exact Hgust].
Qed.

(** ** WindSimulation.draw_particles *)

Lemma py_int_truncates v :
  (0 <= v -> IZR (py_int v) <= v < IZR (py_int v) + 1) /\
  (v < 0 -> v <= IZR (py_int v) < v + 1).
Proof.
  unfold py_int. destruct (Rle_dec 0 v) as [H | H]; split; intros H'; try lra.
  - apply Zfloor_bound.
  - pose proof (Zceil_bound v). lra.
Qed.

Lemma insert_by_layer_perm p l :
  Permutation (WindSimulation.insert_by_layer p l) (p :: l).
Proof.
  induction l as [ | q l IH]; cbn [WindSimulation.insert_by_layer].
  - apply Permutation_refl.
  - destruct (_ <=? _)%Z.
    + apply Permutation_refl.
    + eapply perm_trans; [apply perm_skip, IH | apply perm_swap].
Qed.

Lemma sorted_by_layer_perm l :
  Permutation (WindSimulation.sorted_by_layer l) l.
Proof.
  induction l as [ | p l IH]; cbn.
  - constructor.
  - eapply perm_trans; [apply insert_by_layer_perm | apply perm_skip, IH].
Qed.

Lemma insert_by_layer_sorted p l :
  Sorted layer_le l -> Sorted layer_le (WindSimulation.insert_by_layer p l).
Proof.
  induction l as [ | q l IH]; intros Hs; cbn [WindSimulation.insert_by_layer].
  - repeat constructor.
  - destruct (Z.leb_spec (WindParticle.layer p) (WindParticle.layer q)) as [H |
    H].
    + constructor; [exact Hs | constructor; exact H].
    + inversion Hs as [ | ? ? Hs' Hhd]; subst.
      constructor; [apply IH; exact Hs' | ].
      destruct l as [ | r l]; cbn [WindSimulation.insert_by_layer].
      * constructor. unfold layer_le. lia.
      * destruct (Z.leb_spec (WindParticle.layer p) (WindParticle.layer r)).
        -- constructor. unfold layer_le. lia.
        -- constructor. inversion Hhd; subst. assumption.
Qed.

Lemma sorted_by_layer_sorted l :
  Sorted layer_le (WindSimulation.sorted_by_layer l).
Proof.
  induction l as [ | p l IH]; cbn.
  - constructor.
  - apply insert_by_layer_sorted, IH.
Qed.

Lemma insert_by_layer_stable k p l :
  filter (on_layer k) (WindSimulation.insert_by_layer p l)
  = filter (on_layer k) (p :: l).
Proof.
  induction l as [ | q l IH]; cbn [WindSimulation.insert_by_layer].
  - reflexivity.
  - destruct (Z.leb_spec (WindParticle.layer p) (WindParticle.layer q)) as [H |
    H].
    + reflexivity.
    + cbn [filter] in *. rewrite IH. unfold on_layer.
      destruct (Z.eqb_spec (WindParticle.layer p) k) as [Ep | Ep];
        destruct (Z.eqb_spec (WindParticle.layer q) k) as [Eq | Eq];
        try reflexivity.
      lia.
Qed.

Lemma sorted_by_layer_stable k l :
  filter (on_layer k) (WindSimulation.sorted_by_layer l)
  = filter (on_layer k) l.
Proof.
  induction l as [ | p l IH]; cbn [WindSimulation.sorted_by_layer fold_right].
  - reflexivity.
  - fold (WindSimulation.sorted_by_layer l).
    rewrite insert_by_layer_stable. cbn [filter]. rewrite IH. reflexivity.
Qed.

Lemma draw_particle_writes s w p :
  WindSimulation.in_grid s p = true ->
  curses.inside w (fst (WindSimulation.cell_of p))
                  (snd (WindSimulation.cell_of p)) = true ->
  WindSimulation.draw_particle s w p
  = Ok (curses.mkWindow (curses.maxy w) (curses.maxx w)
          (curses.mkWrite (py_int (WindParticle.y p))
                          (py_int (WindParticle.x p))
                          (WindParticle.char p)
                          (WindSimulation.particle_attr s p)
           :: curses.writes w)).
Proof.
  intros Hg Hi. unfold WindSimulation.draw_particle, curses.addstr.
  rewrite Hg, Hi. reflexivity.
Qed.

(** C8: [draw_particles] draws the particles sorted by ascending layer
    (a stable sort: the drawn list is a permutation of the particles,
    ascending in layer, and keeps the order within each layer), each at
    the cell [(int(y), int(x))] of its truncated coordinates; during a
    gust with wind strength above 2.0 the attribute is bold white (pair 2)
    for a speed above 1.2 and bold magenta (pair 6) otherwise; else it is
    pair 1, the configured wind hue, dim on layer 1, plain on layer 2 and
    bold on layer 3. *)
Theorem draw_particles_by_layer s w :
  let drawn := WindSimulation.sorted_by_layer (WindSimulation.particles s) in
  (WindSimulation.draw_particles s w
   = fold_result (WindSimulation.draw_particle s) drawn w /\
   Permutation drawn (WindSimulation.particles s) /\
   Sorted layer_le drawn /\
   forall k, filter (on_layer k) drawn
             = filter (on_layer k) (WindSimulation.particles s)) /\
  (forall p w1,
      WindSimulation.in_grid s p = true ->
      curses.inside w1 (py_int (WindParticle.y p))
                       (py_int (WindParticle.x p)) = true ->
      WindSimulation.draw_particle s w1 p
      = Ok (curses.mkWindow (curses.maxy w1) (curses.maxx w1)
              (curses.mkWrite (py_int (WindParticle.y p))
                              (py_int (WindParticle.x p))
                              (WindParticle.char p)
                              (WindSimulation.particle_attr s p)
               :: curses.writes w1))) /\
  (forall v, 0 <= v -> IZR (py_int v) <= v < IZR (py_int v) + 1) /\
  (forall p,
      WindSimulation.gust_active s = true ->
      2.0 < WindSimulation.wind_strength s ->
      (1.2 < WindParticle.speed p ->
       look (WindSimulation.particle_attr s p) = (2, true, false)%Z) /\
      (WindParticle.speed p <= 1.2 ->
       look (WindSimulation.particle_attr s p) = (6, true, false)%Z)) /\
  (forall p,
      WindSimulation.gust_active s = false
      \/ WindSimulation.wind_strength s <= 2.0 ->
      (WindParticle.layer p = 1%Z ->
       look (WindSimulation.particle_attr s p) = (1, false, true)%Z) /\
      (WindParticle.layer p = 2%Z ->
       look (WindSimulation.particle_attr s p) = (1, false, false)%Z) /\
      (WindParticle.layer p = 3%Z ->
       look (WindSimulation.particle_attr s p) = (1, true, false)%Z)) /\
  (forall can_change_color,
      find (fun e => (fst e =? 1)%Z)
           (WindSimulation.setup_colors s true can_change_color)
      = Some (1%Z, (wind_hue s,
                    if can_change_color then (-1)%Z
                    else curses.COLOR_BLACK)) /\
      In (2%Z, curses.COLOR_WHITE)
         (map (fun e => (fst e, fst (snd e)))
              (WindSimulation.setup_colors s true can_change_color)) /\
      In (6%Z, curses.COLOR_MAGENTA)
         (map (fun e => (fst e, fst (snd e)))
              (WindSimulation.setup_colors s true can_change_color))).
Proof.
  intros drawn. split; [ | split; [ | split; [ | split; [ | split]]]].
  - split; [reflexivity | ]. split; [apply sorted_by_layer_perm | ].
    split; [apply sorted_by_layer_sorted | ].
    intros k. apply sorted_by_layer_stable.
  - intros p w1 Hg Hi. apply draw_particle_writes; assumption.
  - intros v Hv. apply py_int_truncates, Hv.
  - intros p Ha Hw. unfold WindSimulation.particle_attr. rewrite Ha.
    apply Rgtb_true in Hw. rewrite Hw. cbn [andb]. split; intros Hs.
    + apply Rgtb_true in Hs. rewrite Hs. reflexivity.
    + apply Rgtb_false in Hs. rewrite Hs. reflexivity.
  - intros p Hcalm. unfold WindSimulation.particle_attr.
    assert (E : WindSimulation.gust_active s
                && Rgtb (WindSimulation.wind_strength s) 2.0 = false).
    { destruct Hcalm as [Ha | Hw].
      - rewrite Ha. reflexivity.
      - apply Rgtb_false in Hw. rewrite Hw. apply andb_false_r. }
    rewrite E. repeat split; intros El; rewrite El; reflexivity.
  - intros cc. split; [reflexivity | ].
    split; cbn; tauto.
Qed.

(** ** Writes outside of the window *)

Lemma drawn_on_refl w : drawn_on w w.
Proof. repeat split. exists []. split; [reflexivity | constructor]. Qed.

Lemma inside_same_size w w' row col :
  curses.maxy w' = curses.maxy w -> curses.maxx w' = curses.maxx w ->
  curses.inside w' row col = curses.inside w row col.
Proof. intros Ey Ex. unfold curses.inside. rewrite Ey, Ex. reflexivity. Qed.

(** One guarded write: never an error, and a no-op outside the window. *)
Lemma guarded_addstr w w1 row col ch a :
  drawn_on w w1 ->
  exists w2,
    WindSimulation.except_curses (curses.addstr w1 row col ch a) w1 = Ok w2 /\
    drawn_on w w2 /\
    (curses.inside w1 row col = false -> w2 = w1).
Proof.
  intros (Ey & Ex & added & Ew & Hin). unfold curses.addstr.
  destruct (curses.inside w1 row col) eqn:E.
  - eexists. split; [reflexivity | ]. split; [ | discriminate].
    split; [exact Ey | split; [exact Ex | ]].
    exists (curses.mkWrite row col ch a :: added). cbn [curses.writes].
    split; [rewrite Ew; reflexivity | ].
    constructor; [ | exact Hin]. cbn.
    rewrite <- (inside_same_size w w1) by assumption. exact E.
  - exists w1. split; [reflexivity | ]. split; [ | reflexivity].
    split; [exact Ey | split; [exact Ex | ]]. exists added. split; assumption.
Qed.

Lemma fold_result_total {A B} (P : B -> Prop) (f : B -> A -> result B) l :
  (forall b a, In a l -> P b -> exists b', f b a = Ok b' /\ P b') ->
  forall b, P b -> exists b', fold_result f l b = Ok b' /\ P b'.
Proof.
  induction l as [ | a l IH]; intros Hf b Hb.
  - exists b. split; [reflexivity | exact Hb].
  - destruct (Hf b a (or_introl eq_refl) Hb) as (b1 & E1 & H1).
    cbn [fold_result]. rewrite E1. apply IH; [ | exact H1].
    intros b2 a2 Hin. apply Hf. right. exact Hin.
Qed.

Lemma draw_particle_total s w w1 p :
  drawn_on w w1 ->
  exists w2, WindSimulation.draw_particle s w1 p = Ok w2 /\ drawn_on w w2.
Proof.
  intros Hd. unfold WindSimulation.draw_particle.
  destruct (WindSimulation.in_grid s p).
  - destruct (guarded_addstr w w1
                (fst (WindSimulation.cell_of p))
                (snd (WindSimulation.cell_of p)) (WindParticle.char p)
                (WindSimulation.particle_attr s p) Hd) as (w2 & E & H2 & _).
    exists w2. split; assumption.
  - exists w1. split; [reflexivity | exact Hd].
Qed.

Lemma draw_particle_dropped s w1 p :
  curses.inside w1 (fst (WindSimulation.cell_of p))
                   (snd (WindSimulation.cell_of p)) = false ->
  WindSimulation.draw_particle s w1 p = Ok w1.
Proof.
  intros Hout. unfold WindSimulation.draw_particle, curses.addstr.
  rewrite Hout. destruct (WindSimulation.in_grid s p); reflexivity.
Qed.

Lemma In_range v n : In v (range n) <-> (0 <= v < n)%Z.
Proof.
  unfold range. rewrite in_map_iff. split.
  - intros (k & <- & Hk). apply in_seq in Hk. lia.
  - intros Hv. exists (Z.to_nat v). split; [lia | ]. apply in_seq. lia.
Qed.

Lemma getitem_in_range {A} (l : list A) i :
  (0 <= i < Z.of_nat (length l))%Z -> exists a, getitem l i = Ok a.
Proof.
  intros Hi. unfold getitem, py_index.
  destruct (Z.leb_spec 0 i); [ | lia].
  destruct (Z.ltb_spec i (Z.of_nat (length l))); [ | lia]. cbn [andb].
  destruct (nth_error l (Z.to_nat i)) as [a | ] eqn:E.
  - exists a. reflexivity.
  - apply nth_error_None in E. lia.
Qed.

Lemma draw_density_cell_total s layer a row col w w1 :
  length layer = Z.to_nat (WindSimulation.cols s * WindSimulation.rows s) ->
  (0 <= row < WindSimulation.rows s)%Z ->
  (0 <= col < WindSimulation.cols s)%Z ->
  drawn_on w w1 ->
  exists w2,
    WindSimulation.draw_density_cell s layer a row w1 col = Ok w2 /\
    drawn_on w w2.
Proof.
  intros Hlen Hrow Hcol Hd. unfold WindSimulation.draw_density_cell.
  destruct (getitem_in_range layer (row * WindSimulation.cols s + col))
    as (ch & E).
  { rewrite Hlen. nia. }
  rewrite E. destruct (negb _).
  - destruct (guarded_addstr w w1 row col ch a Hd) as (w2 & E2 & H2 & _).
    exists w2. split; assumption.
  - exists w1. split; [reflexivity | exact Hd].
Qed.

Lemma draw_density_cell_dropped s layer a row col w1 ch :
  getitem layer (row * WindSimulation.cols s + col) = Ok ch ->
  curses.inside w1 row col = false ->
  WindSimulation.draw_density_cell s layer a row w1 col = Ok w1.
Proof.
  intros E Hout. unfold WindSimulation.draw_density_cell, curses.addstr.
  rewrite E, Hout. destruct (negb _); reflexivity.
Qed.

Lemma draw_density_layer_total s w w1 numbered :
  length (snd numbered)
  = Z.to_nat (WindSimulation.cols s * WindSimulation.rows s) ->
  drawn_on w w1 ->
  exists w2,
    WindSimulation.draw_density_layer s w1 numbered = Ok w2 /\ drawn_on w w2.
Proof.
  intros Hlen Hd. unfold WindSimulation.draw_density_layer.
  apply (fold_result_total (drawn_on w)); [ | exact Hd].
  intros w2 row Hrow H2. apply In_range in Hrow.
  apply (fold_result_total (drawn_on w)); [ | exact H2].
  intros w3 col Hcol H3. apply In_range in Hcol.
  apply draw_density_cell_total; assumption.
Qed.

Lemma draw_density_total s w :
  layers_fit s ->
  exists w', WindSimulation.draw_density s w = Ok w' /\ drawn_on w w'.
Proof.
  intros Hfit. unfold WindSimulation.draw_density.
  apply (fold_result_total (drawn_on w)); [ | apply drawn_on_refl].
  intros w1 numbered Hin H1. apply draw_density_layer_total; [ | exact H1].
  destruct numbered as [n layer]. apply in_combine_r in Hin.
  unfold layers_fit in Hfit. rewrite Forall_forall in Hfit.
  apply Hfit. exact Hin.
Qed.

Lemma draw_particles_total s w :
  exists w', WindSimulation.draw_particles s w = Ok w' /\ drawn_on w w'.
Proof.
  unfold WindSimulation.draw_particles.
  apply (fold_result_total (drawn_on w)); [ | apply drawn_on_refl].
  intros w1 p _ H1. apply draw_particle_total. exact H1.
Qed.

(** C9: a write whose cell lies outside the window is dropped and leaves
    the window as it was, in particle mode and in density mode; neither
    [draw_particles] nor [draw_density] (on layers of the size of the
    grid) nor [draw] raises, and all they add to the window are writes
    inside it. *)
Theorem out_of_surface_writes_are_dropped s w :
  layers_fit s ->
  (forall p w1,
      curses.inside w1 (py_int (WindParticle.y p))
                       (py_int (WindParticle.x p)) = false ->
      WindSimulation.draw_particle s w1 p = Ok w1) /\
  (exists w', WindSimulation.draw_particles s w = Ok w' /\ drawn_on w w') /\
  (forall layer a row col w1 ch,
      getitem layer (row * WindSimulation.cols s + col) = Ok ch ->
      curses.inside w1 row col = false ->
      WindSimulation.draw_density_cell s layer a row w1 col = Ok w1) /\
  (exists w', WindSimulation.draw_density s w = Ok w' /\ drawn_on w w') /\
  (exists w', WindSimulation.draw s w = Ok w' /\
              drawn_on (curses.clear w) w').
Proof.
  intros Hfit. split; [ | split; [ | split; [ | split]]].
  - intros p w1. apply draw_particle_dropped.
  - apply draw_particles_total.
  - intros layer a row col w1 ch. apply draw_density_cell_dropped.
  - apply draw_density_total. exact Hfit.
  - unfold WindSimulation.draw. destruct (WindSimulation.show_density s).
    + apply draw_density_total. exact Hfit.
    + apply draw_particles_total.
Qed.

Lemma py_int_IZR z : py_int (IZR z) = z.
Proof.
  unfold py_int. destruct (Rle_dec 0 (IZR z)) as [H | H].
  - apply ZfloorZ.
  - unfold Zceil. rewrite ZfloorNZ. lia.
Qed.

Lemma calm_layers_fit : layers_fit calm_simulation.
Proof.
  unfold layers_fit, calm_simulation, WindSimulation.init,
    WindSimulation.init_density_layers.
  cbn [WindSimulation.density_layers WindSimulation.set_density_layers
       WindSimulation.cols WindSimulation.rows map seq curses.getmaxyx
       curses.maxy curses.maxx fst snd].
  repeat constructor; apply repeat_length.
Qed.

Lemma out_of_surface_writes_are_dropped_witness :
  layers_fit stale_simulation /\
  WindSimulation.draw_particle stale_simulation small_window bottom_particle
  = Ok small_window /\
  exists w', WindSimulation.draw stale_simulation small_window = Ok w'.
Proof.
  assert (Hfit : layers_fit stale_simulation) by exact calm_layers_fit.
  split; [exact Hfit | ].
  destruct (out_of_surface_writes_are_dropped stale_simulation small_window
              Hfit) as (Hdrop & _ & _ & _ & w' & Hdraw & _).
  split.
  - apply Hdrop. cbn [bottom_particle WindParticle.y WindParticle.x].
    rewrite !py_int_IZR. reflexivity.
  - exists w'. exact Hdraw.
Defined.

(** ** The population along a run *)

Lemma init_spec x0 y0 rows cols mode g :
  valid_tape (tape g) ->
  exists p g',
    WindParticle.init x0 y0 rows cols mode g = Ok (p, g') /\
    tape g' = tape g /\
    WindParticle.max_rows p = rows /\ WindParticle.max_cols p = cols /\
    WindParticle.x p = IZR x0 /\ WindParticle.y p = IZR y0 /\ sampled p.
Proof.
  intros Hv. unfold WindParticle.init.
  assert (Hu : forall g1, tape g1 = tape g -> 0 <= unit_draw (current g1) < 1).
  { intros g1 E. unfold current. rewrite E. apply Hv. }
  assert (Hm : forall (n : nat) (k : Z),
             (1 <= k)%Z -> (0 <= Z.of_nat n mod k < k)%Z).
  { intros n k Hk. apply Z.mod_pos_bound. lia. }
  repeat draw_step.
  eexists; eexists; split; [reflexivity | ].
  split; [reflexivity | ]. repeat (split; [reflexivity | ]).
  constructor;
    cbn [WindParticle.age WindParticle.speed WindParticle.amplitude
         WindParticle.frequency WindParticle.phase WindParticle.lifetime
         WindParticle.density WindParticle.layer WindParticle.opacity
         WindParticle.char WindParticle.density_char];
    try (apply pick_In; discriminate);
    try reflexivity;
    try match goal with |- context [unit_draw (current ?g1)] =>
         pose proof (Hu g1 eq_refl); pose proof PI_RGT_0; nra end;
    try match goal with |- context [(Z.of_nat ?n mod ?k)%Z] =>
         pose proof (Hm n k); lia end.
Qed.

Lemma sampled_sane p : sampled p -> particle_sane p.
Proof. intros []. split; assumption. Qed.

Lemma reset_total p g :
  valid_tape (tape g) ->
  (1 <= WindParticle.max_rows p)%Z -> (1 <= WindParticle.max_cols p)%Z ->
  exists p' g',
    WindParticle.reset p g = Ok (p', g') /\ tape g' = tape g /\
    WindParticle.max_rows p' = WindParticle.max_rows p /\
    WindParticle.max_cols p' = WindParticle.max_cols p /\
    particle_sane p'.
Proof.
  intros Hv Hr Hc.
  destruct (reset_spec p g Hv Hr Hc) as (p' & g' & E & T & K & Hs & _).
  exists p', g'. unfold kept in K. injection K as K1 K2 _ _.
  repeat (split; [assumption | ]). apply sampled_sane, Hs.
Qed.

Lemma check_vertical_sane p :
  particle_sane (WindParticle.check_vertical p) <-> particle_sane p.
Proof.
  unfold WindParticle.check_vertical.
  destruct (Rgeb _ _); [reflexivity | ]. destruct (Rltb _ _); reflexivity.
Qed.

Lemma update_total p ws wd g :
  valid_tape (tape g) ->
  (1 <= WindParticle.max_rows p)%Z -> (1 <= WindParticle.max_cols p)%Z ->
  particle_sane p ->
  exists p' g',
    WindParticle.update p ws wd g = Ok (p', g') /\ tape g' = tape g /\
    WindParticle.max_rows p' = WindParticle.max_rows p /\
    WindParticle.max_cols p' = WindParticle.max_cols p /\
    particle_sane p'.
Proof.
  intros Hv Hr Hc Hs. unfold WindParticle.update.
  set (m := WindParticle.move p ws wd).
  assert (Hm : exists p1 g1,
             WindParticle.check_horizontal m g = Ok (p1, g1) /\
             tape g1 = tape g /\
             WindParticle.max_rows p1 = WindParticle.max_rows p /\
             WindParticle.max_cols p1 = WindParticle.max_cols p /\
             particle_sane p1).
  { unfold WindParticle.check_horizontal.
    destruct (WindParticle.horizontal_exit m).
    - apply (reset_total m g Hv Hr Hc).
    - exists m, g. repeat split; apply Hs. }
  destruct Hm as (p1 & g1 & E1 & T1 & R1 & C1 & S1).
  unfold bind. rewrite E1. unfold WindParticle.check_lifetime.
  destruct (size_check_vertical p1) as [Er Ec].
  destruct (WindParticle.expired _).
  - destruct (reset_total (WindParticle.check_vertical p1) g1)
      as (p2 & g2 & E2 & T2 & R2 & C2 & S2).
    { rewrite T1. exact Hv. }
    { rewrite Er, R1. exact Hr. }
    { rewrite Ec, C1. exact Hc. }
    exists p2, g2. split; [exact E2 | ].
    split; [congruence | ]. split; [congruence | ].
    split; [congruence | exact S2].
  - exists (WindParticle.check_vertical p1), g1. split; [reflexivity | ].
    split; [exact T1 | ]. split; [congruence | ].
    split; [congruence | ]. apply check_vertical_sane, S1.
Qed.

Lemma same_scene_refl s : same_scene s s.
Proof. repeat split. Qed.

Lemma same_scene_trans s1 s2 s3 :
  same_scene s1 s2 -> same_scene s2 s3 -> same_scene s1 s3.
Proof.
  unfold same_scene. intros (A1 & A2 & A3 & A4 & A5 & A6 & A7)
                            (B1 & B2 & B3 & B4 & B5 & B6 & B7).
  repeat split; congruence.
Qed.

Lemma trigger_gust_scene s g :
  exists s' g',
    WindSimulation.trigger_gust s g = Ok (s', g') /\ tape g' = tape g /\
    same_scene s s'.
Proof.
  unfold WindSimulation.trigger_gust.
  destruct (negb _); [ | exists s, g; repeat split].
  draw_step. destruct (Rltb _ _).
  - draw_step. unfold ret. eexists; eexists. split; [reflexivity | ].
    repeat split.
  - exists s, (advance g). repeat split.
Qed.

Lemma blow_scene s g :
  exists s' g',
    WindSimulation.blow s g = Ok (s', g') /\ tape g' = tape g /\
    same_scene s s'.
Proof.
  unfold WindSimulation.blow. destruct (WindSimulation.gust_active s).
  - draw_step. destruct (Rltb _ _); unfold ret; eexists; eexists;
      (split; [reflexivity | ]); repeat split.
  - unfold ret. eexists; eexists. split; [reflexivity | ]. repeat split.
Qed.

Lemma turn_scene s g :
  exists s' g',
    WindSimulation.turn s g = Ok (s', g') /\ tape g' = tape g /\
    same_scene s s'.
Proof.
  unfold WindSimulation.turn. draw_step.
  destruct (Rltb _ _); unfold ret; eexists; eexists;
    (split; [reflexivity | ]); repeat split.
Qed.

Lemma update_wind_pattern_scene s g :
  exists s' g',
    WindSimulation.update_wind_pattern s g = Ok (s', g') /\
    tape g' = tape g /\ same_scene s s'.
Proof.
  unfold WindSimulation.update_wind_pattern, bind.
  destruct (trigger_gust_scene (WindSimulation.vary_base s) g)
    as (s1 & g1 & E1 & T1 & H1).
  destruct (blow_scene s1 g1) as (s2 & g2 & E2 & T2 & H2).
  destruct (turn_scene s2 g2) as (s3 & g3 & E3 & T3 & H3).
  rewrite E1, E2, E3. exists s3, g3. split; [reflexivity | ].
  split; [congruence | ].
  apply same_scene_trans with s2; [ | exact H3].
  apply same_scene_trans with s1; [ | exact H2].
  apply same_scene_trans with (WindSimulation.vary_base s); [ | exact H1].
  repeat split.
Qed.

Lemma particle_ok_scene s s' p :
  WindSimulation.rows s' = WindSimulation.rows s ->
  WindSimulation.cols s' = WindSimulation.cols s ->
  particle_ok s p -> particle_ok s' p.
Proof. unfold particle_ok. intros -> ->. tauto. Qed.

Lemma sound_scene s s' : same_scene s s' -> sound s -> sound s'.
Proof.
  intros (_ & _ & _ & Ep & Er & Ec & El) [Hr Hc Hp Hl Hf].
  constructor.
  - rewrite Er. exact Hr.
  - rewrite Ec. exact Hc.
  - rewrite Ep. eapply Forall_impl; [ | exact Hp].
    intros p. apply particle_ok_scene; assumption.
  - rewrite El. exact Hl.
  - unfold layers_fit in *. rewrite El, Er, Ec. exact Hf.
Qed.

Lemma target_count_scene s s' :
  WindSimulation.high_density s' = WindSimulation.high_density s ->
  WindSimulation.rows s' = WindSimulation.rows s ->
  WindSimulation.cols s' = WindSimulation.cols s ->
  WindSimulation.target_count s' = WindSimulation.target_count s.
Proof. unfold WindSimulation.target_count. intros -> -> ->. reflexivity. Qed.

Lemma sound_set_particles s ps :
  sound s -> Forall (particle_ok s) ps ->
  sound (WindSimulation.set_particles s ps).
Proof.
  intros [Hr Hc Hp Hl Hf] Hps. constructor; try assumption.
Qed.

Lemma spawn_spec fuel : forall target s g,
  valid_tape (tape g) -> sound s ->
  exists new g',
    WindSimulation.spawn fuel target s g
    = Ok (WindSimulation.set_particles s (WindSimulation.particles s ++ new),
          g') /\
    tape g' = tape g /\
    Forall (particle_ok s) new /\
    (target <= population s -> new = [])%Z /\
    Z.of_nat (List.length new)
    = Z.min (Z.of_nat fuel) (Z.max 0 (target - population s)).
Proof.
  induction fuel as [ | fuel IH]; intros target s g Hv Hs.
  - exists [], g. cbn [WindSimulation.spawn]. unfold ret.
    rewrite app_nil_r. destruct s. split; [reflexivity | ].
    split; [reflexivity | ]. split; [constructor | ].
    split; [reflexivity | ]. cbn [List.length]. lia.
  - cbn [WindSimulation.spawn]. fold (population s).
    destruct (Z.ltb_spec (population s) target) as [Hlt | Hge].
    + pose proof (sound_rows s Hs) as Hr. pose proof (sound_cols s Hs) as Hc.
      draw_step. draw_step. unfold bind at 1.
      match goal with |- context [WindParticle.init ?a ?b ?c ?d ?e ?g1] =>
        destruct (init_spec a b c d e g1) as (p & g2 & Ei & Ti & Er & Ec & _ &
          _ & Hsam);
          [exact Hv | ] end.
      rewrite Ei.
      assert (Hp : particle_ok s p).
      { unfold particle_ok. destruct Hsam. repeat split; assumption || lra ||
        lia. }
      set (s1 := WindSimulation.set_particles s
                   (WindSimulation.particles s ++ [p])).
      assert (Hs1 : sound s1).
      { apply sound_set_particles; [exact Hs | ].
        apply Forall_app. split; [apply Hs | ]. constructor; [exact Hp |
          constructor]. }
      destruct (IH target s1 g2) as (new & g' & E & T & Hnew & _ & Hlen).
      { rewrite Ti. exact Hv. }
      { exact Hs1. }
      exists (p :: new), g'. rewrite E. split.
      { subst s1. cbn [WindSimulation.set_particles WindSimulation.particles
                       WindSimulation.wind_color WindSimulation.show_density
                       WindSimulation.high_density WindSimulation.wind_strength
                       WindSimulation.wind_direction
                       WindSimulation.base_wind_strength
                       WindSimulation.wind_variation_timer
                       WindSimulation.gust_timer WindSimulation.gust_active
                       WindSimulation.gust_strength WindSimulation.rows
                       WindSimulation.cols WindSimulation.frame_count
                       WindSimulation.density_layers].
        rewrite <- app_assoc. reflexivity. }
      split; [rewrite T, Ti; reflexivity | ].
      split; [constructor; [exact Hp | ] | ].
      { eapply Forall_impl; [ | exact Hnew]. intros q.
        apply particle_ok_scene; reflexivity. }
      split; [lia | ].
      assert (Ep : population s1 = (population s + 1)%Z).
      { unfold population, s1. cbn [WindSimulation.set_particles
                                    WindSimulation.particles].
        rewrite length_app. cbn [List.length]. lia. }
      rewrite Ep in Hlen. cbn [List.length]. lia.
    + exists [], g. unfold ret. rewrite app_nil_r. destruct s.
      split; [reflexivity | ]. split; [reflexivity | ].
      split; [constructor | ]. split; [reflexivity | ].
      cbn [List.length]. lia.
Qed.

Lemma generate_particles_spec s g :
  valid_tape (tape g) -> sound s ->
  exists new g',
    WindSimulation.generate_particles s g
    = Ok (WindSimulation.set_particles s (WindSimulation.particles s ++ new),
          g') /\
    tape g' = tape g /\
    Forall (particle_ok s) new /\
    (WindSimulation.target_count s <= population s -> new = [])%Z /\
    (population s + Z.of_nat (List.length new)
     = Z.max (population s) (WindSimulation.target_count s))%Z.
Proof.
  intros Hv Hs. unfold WindSimulation.generate_particles.
  fold (population s).
  destruct (spawn_spec
              (Z.to_nat (WindSimulation.target_count s - population s))
              (WindSimulation.target_count s) s g Hv Hs)
    as (new & g' & E & T & Hnew & Hnil & Hlen).
  exists new, g'. repeat (split; [assumption | ]). lia.
Qed.

Lemma for_each_update s ws wd : forall ps g,
  valid_tape (tape g) ->
  (1 <= WindSimulation.rows s)%Z -> (1 <= WindSimulation.cols s)%Z ->
  Forall (particle_ok s) ps ->
  exists ps' g',
    for_each (fun p => WindParticle.update p ws wd) ps g = Ok (ps', g') /\
    tape g' = tape g /\ Forall (particle_ok s) ps' /\
    List.length ps' = List.length ps.
Proof.
  induction ps as [ | p ps IH]; intros g Hv Hr Hc Hps.
  - exists [], g. repeat split. constructor.
  - inversion Hps as [ | ? ? (Er & Ec & Hd & Hl) Hps']; subst.
    destruct (update_total p ws wd g Hv) as (p' & g1 & E1 & T1 & R1 & C1 & S1).
    { rewrite Er. exact Hr. }
    { rewrite Ec. exact Hc. }
    { split; assumption. }
    destruct (IH g1) as (ps' & g2 & E2 & T2 & H2 & L2); try assumption.
    { rewrite T1. exact Hv. }
    exists (p' :: ps'), g2. cbn [for_each]. unfold bind. rewrite E1, E2.
    split; [reflexivity | ]. split; [congruence | ]. split.
    + constructor; [ | exact H2]. destruct S1 as [S1d S1l].
      unfold particle_ok. repeat split; congruence || lra || lia.
    + cbn [List.length]. congruence.
Qed.

Lemma replace_nth_length {A} n (l : list A) a :
  List.length (replace_nth n l a) = List.length l.
Proof.
  revert n. induction l as [ | b l IH]; intros [ | n]; cbn; congruence.
Qed.

Lemma replace_nth_Forall {A} (P : A -> Prop) n (l : list A) a :
  Forall P l -> P a -> Forall P (replace_nth n l a).
Proof.
  intros Hl Ha. revert n. induction Hl as [ | b l Hb Hl IH]; intros [ | n]; cbn;
    constructor; auto.
Qed.

Lemma setitem_in_range {A} (l : list A) i a :
  (0 <= i < Z.of_nat (List.length l))%Z ->
  setitem l i a = Ok (replace_nth (Z.to_nat i) l a).
Proof.
  intros Hi. unfold setitem, py_index.
  destruct (Z.leb_spec 0 i); [ | lia].
  destruct (Z.ltb_spec i (Z.of_nat (List.length l))); [ | lia]. reflexivity.
Qed.

Lemma getitem_In {A} (l : list A) i a : getitem l i = Ok a -> In a l.
Proof.
  unfold getitem. destruct (py_index _ _) as [n | e]; [ | discriminate].
  destruct (nth_error l n) as [b | ] eqn:E; [ | discriminate].
  intros H. injection H as <-. eapply nth_error_In, E.
Qed.

Lemma py_int_nonneg v : 0 <= v -> (0 <= py_int v)%Z.
Proof.
  intros Hv. unfold py_int. destruct (Rle_dec 0 v); [ | lra].
  apply Zfloor_lub. exact Hv.
Qed.

Lemma plot_total s layers p :
  particle_ok s p -> layers_ok s layers ->
  exists layers', WindSimulation.plot s layers p = Ok layers' /\
                  layers_ok s layers'.
Proof.
  intros (_ & _ & Hd & Hl) [Hlen Hfit]. unfold WindSimulation.plot.
  set (px := py_int (WindParticle.x p)). set (py := py_int (WindParticle.y p)).
  destruct (Z.leb_spec 0 px); cbn [andb];
    [ | exists layers; split; [reflexivity | split; assumption]].
  destruct (Z.ltb_spec px (WindSimulation.cols s)); cbn [andb];
    [ | exists layers; split; [reflexivity | split; assumption]].
  destruct (Z.leb_spec 0 py); cbn [andb];
    [ | exists layers; split; [reflexivity | split; assumption]].
  destruct (Z.ltb_spec py (WindSimulation.rows s)); cbn [andb];
    [ | exists layers; split; [reflexivity | split; assumption]].
  change (Z.of_nat (List.length WIND_PARTICLES)) with 8%Z.
  destruct (getitem_in_range WIND_PARTICLES
              (Z.min (py_int (WindParticle.density p * 8)) (8 - 1)))
    as (density_char & E1).
  { assert (0 <= py_int (WindParticle.density p * 8))%Z
      by (apply py_int_nonneg; lra).
    change (Z.of_nat (List.length WIND_PARTICLES)) with 8%Z. lia. }
  rewrite E1. rewrite Hlen.
  destruct (getitem_in_range layers
              (Z.min (WindParticle.layer p - 1) (Z.of_nat 3 - 1)))
    as (layer & E2).
  { rewrite Hlen. lia. }
  rewrite E2. pose proof (getitem_In _ _ _ E2) as Hin.
  rewrite Forall_forall in Hfit. pose proof (Hfit layer Hin) as Hlayer.
  rewrite setitem_in_range by (rewrite Hlayer; nia).
  rewrite setitem_in_range by (rewrite Hlen; lia).
  eexists. split; [reflexivity | ]. split.
  - rewrite replace_nth_length. exact Hlen.
  - apply replace_nth_Forall.
    + apply Forall_forall. exact Hfit.
    + rewrite replace_nth_length. exact Hlayer.
Qed.

Lemma update_density_map_total s :
  sound s ->
  exists layers,
    WindSimulation.update_density_map s
    = Ok (WindSimulation.set_density_layers s layers) /\
    layers_ok s layers.
Proof.
  intros [Hr Hc Hp Hl Hf]. unfold WindSimulation.update_density_map.
  destruct (fold_result_total (layers_ok s) (WindSimulation.plot s)
              (WindSimulation.particles s)) with
    (b := map (fun layer : list Z => map (fun _ : Z => WindSimulation.blank)
      layer)
              (WindSimulation.density_layers s))
    as (layers & E & Hok).
  - intros layers p Hin Hok. apply plot_total; [ | exact Hok].
    rewrite Forall_forall in Hp. apply Hp, Hin.
  - split.
    + rewrite length_map. exact Hl.
    + apply Forall_map. eapply Forall_impl; [ | exact Hf].
      intros layer Hlayer. cbn beta. rewrite length_map. exact Hlayer.
  - rewrite E. exists layers. split; [reflexivity | exact Hok].
Qed.

Lemma update_particles_spec s g :
  valid_tape (tape g) -> sound s ->
  exists s' g',
    WindSimulation.update_particles s g = Ok (s', g') /\ tape g' = tape g /\
    sound s' /\ population s' = population s /\
    WindSimulation.target_count s' = WindSimulation.target_count s.
Proof.
  intros Hv Hs. unfold WindSimulation.update_particles.
  destruct (for_each_update s (WindSimulation.wind_strength s)
              (WindSimulation.wind_direction s)
              (WindSimulation.particles s) g Hv
              (sound_rows s Hs) (sound_cols s Hs) (sound_particles s Hs))
    as (ps & g1 & E & T & Hps & Hlen).
  unfold bind. rewrite E.
  set (s1 := WindSimulation.set_particles s ps).
  assert (Hs1 : sound s1) by (apply sound_set_particles; assumption).
  assert (Hpop : population s1 = population s).
  { unfold population, s1. cbn [WindSimulation.set_particles
                                WindSimulation.particles]. lia. }
  destruct (WindSimulation.show_density s1).
  - destruct (update_density_map_total s1 Hs1) as (layers & Em & [Hl Hf]).
    unfold lift. rewrite Em. eexists; eexists. split; [reflexivity | ].
    split; [exact T | ]. split; [ | split; [exact Hpop | reflexivity]].
    destruct Hs1 as [Hr Hc Hp _ _]. constructor; assumption.
  - exists s1, g1. split; [reflexivity | ]. split; [exact T | ].
    split; [exact Hs1 | split; [exact Hpop | reflexivity]].
Qed.

Lemma update_wind_and_spawn_spec s g :
  valid_tape (tape g) -> sound s ->
  exists s' g',
    WindSimulation.update_wind_and_spawn s g = Ok (s', g') /\
    tape g' = tape g /\ sound s' /\
    WindSimulation.target_count s' = WindSimulation.target_count s /\
    population s' = Z.max (population s) (WindSimulation.target_count s) /\
    exists new,
      WindSimulation.particles s' = WindSimulation.particles s ++ new /\
      (WindSimulation.target_count s <= population s -> new = [])%Z.
Proof.
  intros Hv Hs. unfold WindSimulation.update_wind_and_spawn, bind.
  destruct (update_wind_pattern_scene
              (WindSimulation.set_frame_count s
                 (WindSimulation.frame_count s + 1)) g)
    as (s1 & g1 & E1 & T1 & Hscene).
  rewrite E1.
  assert (Hscene' : same_scene s s1).
  { apply same_scene_trans with
      (WindSimulation.set_frame_count s (WindSimulation.frame_count s + 1));
      [repeat split | exact Hscene]. }
  pose proof (sound_scene s s1 Hscene' Hs) as Hs1.
  destruct Hscene' as (_ & _ & Eh & Ep & Er & Ec & _).
  assert (Et : WindSimulation.target_count s1 = WindSimulation.target_count s)
    by (apply target_count_scene; assumption).
  assert (Epop : population s1 = population s)
    by (unfold population; rewrite Ep; reflexivity).
  destruct (generate_particles_spec s1 g1) as (new & g2 & E2 & T2 & Hnew & Hnil
    & Hlen).
  { rewrite T1. exact Hv. }
  { exact Hs1. }
  rewrite E2. eexists; eexists. split; [reflexivity | ].
  split; [congruence | ]. split.
  { apply sound_set_particles; [exact Hs1 | ].
    apply Forall_app. split; [apply Hs1 | exact Hnew]. }
  split; [rewrite <- Et; reflexivity | ].
  split.
  { unfold population at 1.
    cbn [WindSimulation.set_particles WindSimulation.particles].
    rewrite length_app, Nat2Z.inj_add. fold (population s1). lia. }
  exists new. cbn [WindSimulation.set_particles WindSimulation.particles].
  split; [rewrite Ep; reflexivity | ]. rewrite <- Et, <- Epop. exact Hnil.
Qed.

Lemma target_count_nonneg s :
  (0 <= WindSimulation.rows s)%Z -> (0 <= WindSimulation.cols s)%Z ->
  (0 <= WindSimulation.target_count s)%Z.
Proof.
  intros Hr Hc. unfold WindSimulation.target_count.
  assert (0 <= IZR (WindSimulation.cols s * WindSimulation.rows s))
    by (apply IZR_le; nia).
  assert (0 <= IZR (WindSimulation.cols s)) by (apply IZR_le; lia).
  destruct (WindSimulation.high_density s).
  - apply Z.min_glb; [apply py_int_nonneg; lra | lia].
  - apply py_int_nonneg. lra.
Qed.

Lemma init_density_layers_sound s :
  (1 <= WindSimulation.rows s)%Z -> (1 <= WindSimulation.cols s)%Z ->
  Forall (particle_ok s) (WindSimulation.particles s) ->
  sound (WindSimulation.init_density_layers s).
Proof.
  intros Hr Hc Hp. constructor; try assumption.
  - reflexivity.
  - unfold layers_fit, WindSimulation.init_density_layers.
    cbn [WindSimulation.density_layers WindSimulation.set_density_layers
         WindSimulation.cols WindSimulation.rows map seq].
    repeat constructor; apply repeat_length.
Qed.

Lemma handle_key_spec s w k s' :
  handle_key s w k = Some s' ->
  (1 <= curses.maxy w)%Z -> (1 <= curses.maxx w)%Z ->
  sound s ->
  sound s' /\ (bounded s -> bounded s') /\
  (WindSimulation.target_count s' = WindSimulation.target_count s
   \/ WindSimulation.particles s' = []).
Proof.
  intros Hk Hy Hx Hs. unfold handle_key in Hk.
  pose proof Hs as [Hr Hc Hp Hl Hf].
  destruct (_ || _ || _)%bool; [discriminate | ].
  destruct (_ || _)%bool.
  { injection Hk as <-. cbn [WindSimulation.show_density
                              WindSimulation.set_show_density].
    destruct (negb _).
    - split; [apply init_density_layers_sound; assumption | ].
      split; [exact (fun H => H) | left; reflexivity].
    - split; [constructor; assumption | ].
      split; [exact (fun H => H) | left; reflexivity]. }
  destruct (_ || _)%bool.
  { injection Hk as <-. split; [ | split; [ | right; reflexivity]].
    - constructor; try assumption. constructor.
    - intros _. unfold bounded, population.
      cbn [WindSimulation.particles WindSimulation.set_particles List.length].
      apply target_count_nonneg; cbn; lia. }
  destruct (k =? ord_plus)%Z.
  { injection Hk as <-. split; [constructor; assumption | ].
    split; [exact (fun H => H) | left; reflexivity]. }
  destruct (k =? ord_minus)%Z.
  { injection Hk as <-. split; [constructor; assumption | ].
    split; [exact (fun H => H) | left; reflexivity]. }
  destruct (k =? curses.KEY_RIGHT)%Z.
  { injection Hk as <-. split; [constructor; assumption | ].
    split; [exact (fun H => H) | left; reflexivity]. }
  destruct (k =? curses.KEY_LEFT)%Z.
  { injection Hk as <-. split; [constructor; assumption | ].
    split; [exact (fun H => H) | left; reflexivity]. }
  destruct (k =? curses.KEY_RESIZE)%Z.
  { injection Hk as <-. split; [ | split; [ | right; reflexivity]].
    - apply init_density_layers_sound; try assumption. constructor.
    - intros _. unfold bounded, population.
      cbn [WindSimulation.particles WindSimulation.set_particles
           WindSimulation.init_density_layers
           WindSimulation.set_density_layers List.length].
      apply target_count_nonneg; cbn; lia. }
  injection Hk as <-. split; [exact Hs | ].
  split; [exact (fun H => H) | left; reflexivity].
Qed.

Lemma target_count_floor s :
  (0 <= WindSimulation.rows s)%Z -> (0 <= WindSimulation.cols s)%Z ->
  WindSimulation.target_count s = target_of_spec s.
Proof.
  intros Hr Hc. unfold WindSimulation.target_count, target_of_spec, py_int.
  assert (0 <= IZR (WindSimulation.cols s * WindSimulation.rows s))
    by (apply IZR_le; nia).
  assert (0 <= IZR (WindSimulation.cols s)) by (apply IZR_le; lia).
  destruct (WindSimulation.high_density s).
  - destruct (Rle_dec 0 _) as [_ | Hn]; [ | lra].
    rewrite (Z.mul_comm (WindSimulation.rows s)). apply Z.min_comm.
  - destruct (Rle_dec 0 _) as [_ | Hn]; [reflexivity | lra].
Qed.

Lemma draw_total s w :
  layers_fit s -> exists w', WindSimulation.draw s w = Ok w'.
Proof.
  intros Hfit. unfold WindSimulation.draw.
  destruct (WindSimulation.show_density s).
  - destruct (draw_density_total s (curses.clear w) Hfit) as (w' & E & _).
    exists w'. exact E.
  - destruct (draw_particles_total s (curses.clear w)) as (w' & E & _).
    exists w'. exact E.
Qed.

Lemma same_wind_settled s s' : same_wind s s' -> settled s -> settled s'.
Proof.
  unfold same_wind, settled. intros (-> & -> & -> & -> & _ & _). tauto.
Qed.

Lemma same_wind_ready s s' : same_wind s s' -> gust_ready s -> gust_ready s'.
Proof.
  unfold same_wind, gust_ready. intros (_ & _ & _ & -> & -> & ->). tauto.
Qed.

Lemma spawn_wind fuel : forall target s g s' g',
  WindSimulation.spawn fuel target s g = Ok (s', g') -> same_wind s s'.
Proof.
  induction fuel as [ | fuel IH]; intros target s g s' g' H.
  - injection H as <- <-. repeat split.
  - cbn [WindSimulation.spawn] in H.
    destruct (_ <? _)%Z; [ | injection H as <- <-; repeat split].
    apply bind_ok in H. destruct H as (x0 & g1 & _ & H).
    apply bind_ok in H. destruct H as (y0 & g2 & _ & H).
    apply bind_ok in H. destruct H as (p & g3 & _ & H).
    apply IH in H. exact H.
Qed.

Lemma update_particles_wind s g s' g' :
  WindSimulation.update_particles s g = Ok (s', g') -> same_wind s s'.
Proof.
  unfold WindSimulation.update_particles. intros H.
  apply bind_ok in H. destruct H as (ps & g1 & _ & H).
  destruct (WindSimulation.show_density _).
  - unfold lift, WindSimulation.update_density_map in H.
    destruct (fold_result _ _ _) as [layers | e]; [ | discriminate].
    injection H as <- <-. repeat split.
  - injection H as <- <-. repeat split.
Qed.

Lemma handle_key_wind s w k s' :
  handle_key s w k = Some s' ->
  WindSimulation.wind_variation_timer s' = WindSimulation.wind_variation_timer
    s /\
  (gust_ready s -> gust_ready s').
Proof.
  unfold handle_key.
  destruct (_ || _ || _)%bool; [discriminate | ].
  destruct (_ || _)%bool.
  { intros H. injection H as <-.
    cbn [WindSimulation.show_density WindSimulation.set_show_density].
    destruct (negb _); split; (reflexivity || exact (fun H => H)). }
  destruct (_ || _)%bool;
    [intros H; injection H as <-; split;
     (reflexivity || exact (fun H => H)) | ].
  repeat (destruct (k =? _)%Z;
          [intros H; injection H as <-; split;
           (reflexivity || exact (fun H => H)) | ]).
  intros H; injection H as <-. split; (reflexivity || exact (fun H => H)).
Qed.

Lemma update_wind_and_spawn_wind s g s' g' :
  valid_tape (tape g) -> gust_ready s ->
  WindSimulation.update_wind_and_spawn s g = Ok (s', g') ->
  settled s' /\ gust_ready s' /\
  WindSimulation.wind_variation_timer s'
  = WindSimulation.wind_variation_timer s + UPDATE_INTERVAL.
Proof.
  intros Hv Hr H. unfold WindSimulation.update_wind_and_spawn in H.
  apply bind_ok in H. destruct H as (s1 & g1 & E1 & E2).
  destruct (update_wind_pattern_settles
              (WindSimulation.set_frame_count s
                 (WindSimulation.frame_count s + 1)) g Hv Hr)
    as (s1' & g1' & E1' & Ht & Hb & Hcalm & Hgust & Hr1).
  rewrite E1' in E1. injection E1 as -> ->.
  apply spawn_wind in E2.
  split; [ | split].
  - apply (same_wind_settled s1 s' E2). repeat split; assumption.
  - apply (same_wind_ready s1 s' E2 Hr1).
  - destruct E2 as (_ & _ & -> & _). exact Ht.
Qed.

Lemma wind_simulation_loop_spec inputs : forall s w g,
  valid_tape (tape g) -> sound s -> bounded s -> gust_ready s ->
  Forall terminal_ok inputs ->
  exists frames g',
    wind_simulation_loop inputs s w g = Ok (frames, g') /\
    tape g' = tape g /\
    Forall (fun f => sound (spawned f) /\ bounded (spawned f) /\
                     settled (state f)) frames /\
    timers_from (WindSimulation.wind_variation_timer s) frames.
Proof.
  induction inputs as [ | i inputs IH]; intros s w g Hv Hs Hb Hg Hin.
  - exists [], g. repeat split. constructor.
  - inversion Hin as [ | ? ? [Hy Hx] Hin']; subst.
    cbn [wind_simulation_loop].
    set (stdscr := curses.mkWindow (fst (terminal i)) (snd (terminal i))
                                   (curses.writes w)).
    destruct (handle_key s stdscr (key i)) as [s1 | ] eqn:Ek;
      [ | exists [], g; repeat split; constructor].
    destruct (handle_key_spec s stdscr (key i) s1 Ek Hy Hx Hs)
      as (Hs1 & Hb1 & _).
    destruct (handle_key_wind s stdscr (key i) s1 Ek) as (Et1 & Hg1).
    specialize (Hb1 Hb). specialize (Hg1 Hg).
    destruct (update_wind_and_spawn_spec s1 g Hv Hs1)
      as (s2 & g2 & E2 & T2 & Hs2 & Et2 & Ep2 & _).
    destruct (update_wind_and_spawn_wind s1 g s2 g2 Hv Hg1 E2)
      as (Hw2 & Hg2 & Etm2).
    assert (Hb2 : bounded s2).
    { unfold bounded in *. rewrite Et2, Ep2. lia. }
    destruct (update_particles_spec s2 g2)
      as (s3 & g3 & E3 & T3 & Hs3 & Ep3 & Et3).
    { rewrite T2. exact Hv. }
    { exact Hs2. }
    pose proof (update_particles_wind s2 g2 s3 g3 E3) as Hw23.
    assert (Hb3 : bounded s3).
    { unfold bounded in *. rewrite Et3, Ep3. exact Hb2. }
    destruct (draw_total s3 stdscr (sound_fit s3 Hs3)) as (w' & Ed).
    destruct (IH s3 w' g3) as (frames & g' & E & T & Hframes & Htimers);
      try assumption.
    { rewrite T3, T2. exact Hv. }
    { apply (same_wind_ready s2 s3 Hw23 Hg2). }
    exists (mkFrame s2 s3 w' :: frames), g'.
    unfold bind. rewrite E2, E3. unfold lift. rewrite Ed, E. unfold ret.
    assert (Etm3 : WindSimulation.wind_variation_timer s3
                   = WindSimulation.wind_variation_timer s + UPDATE_INTERVAL).
    { destruct Hw23 as (_ & _ & -> & _). rewrite Etm2, Et1. reflexivity. }
    split; [reflexivity | ]. split; [congruence | ]. split.
    + constructor; [ | exact Hframes]. cbn [spawned state].
      split; [exact Hs2 | split; [exact Hb2 | ]].
      apply (same_wind_settled s2 s3 Hw23 Hw2).
    + cbn [timers_from state]. split; [exact Etm3 | ].
      rewrite <- Etm3. exact Htimers.
Qed.

Lemma init_sound w color density high :
  (1 <= curses.maxy w)%Z -> (1 <= curses.maxx w)%Z ->
  sound (WindSimulation.init w color density high) /\
  bounded (WindSimulation.init w color density high).
Proof.
  intros Hy Hx. split.
  - apply init_density_layers_sound; try assumption. constructor.
  - unfold bounded, population. cbn [WindSimulation.init
      WindSimulation.init_density_layers WindSimulation.set_density_layers
      WindSimulation.particles List.length].
    apply target_count_nonneg; cbn; lia.
Qed.

Lemma spawn_appends fuel : forall target s g s' g',
  WindSimulation.spawn fuel target s g = Ok (s', g') ->
  exists new,
    WindSimulation.particles s' = WindSimulation.particles s ++ new /\
    (target <= population s -> new = [])%Z.
Proof.
  induction fuel as [ | fuel IH]; intros target s g s' g' H.
  - injection H as <- <-. exists []. split; [apply eq_sym, app_nil_r |
    reflexivity].
  - cbn [WindSimulation.spawn] in H. fold (population s) in H.
    destruct (Z.ltb_spec (population s) target) as [Hlt | Hge].
    + apply bind_ok in H. destruct H as (x0 & g1 & _ & H).
      apply bind_ok in H. destruct H as (y0 & g2 & _ & H).
      apply bind_ok in H. destruct H as (p & g3 & _ & H).
      apply IH in H. destruct H as (new & E & _).
      exists (p :: new). split; [ | lia].
      rewrite E. cbn [WindSimulation.set_particles WindSimulation.particles].
      rewrite <- app_assoc. reflexivity.
    + injection H as <- <-. exists [].
      split; [apply eq_sym, app_nil_r | reflexivity].
Qed.

Lemma handle_key_population s w k s' :
  handle_key s w k = Some s' ->
  WindSimulation.particles s' = []
  \/ (WindSimulation.particles s' = WindSimulation.particles s /\
      WindSimulation.target_count s' = WindSimulation.target_count s).
Proof.
  unfold handle_key.
  destruct (_ || _ || _)%bool; [discriminate | ].
  destruct (_ || _)%bool.
  { intros H. injection H as <-. right.
    cbn [WindSimulation.show_density WindSimulation.set_show_density].
    destruct (negb _); split; reflexivity. }
  destruct (_ || _)%bool; [intros H; injection H as <-; left; reflexivity | ].
  repeat (destruct (k =? _)%Z;
          [intros H; injection H as <-;
           first [left; reflexivity | right; split; reflexivity] | ]).
  intros H; injection H as <-. right. split; reflexivity.
Qed.

Lemma handle_key_clears s w k s' :
  handle_key s w k = Some s' ->
  k = ord_h \/ k = ord_H \/ k = curses.KEY_RESIZE ->
  WindSimulation.particles s' = [].
Proof.
  intros H Hk. unfold handle_key in H.
  destruct Hk as [-> | [-> | ->]]; cbn in H; injection H as <-; reflexivity.
Qed.

(** C2: on a terminal that always has at least one row and one column,
    and with draws of [random()] in [0, 1), every run of the loop executes
    without an exception, and right after the spawn step of every tick the
    population is at most [min(2000, floor(rows * cols * 0.15))] in
    high-density mode and [floor(cols * 0.5)] otherwise;
    [generate_particles] only appends particles, and none when the target
    is already met; the keys [h], [H] and a resize empty the population,
    and every other key leaves population and target as they are. *)
Theorem population_never_exceeds_target size color density high inputs g :
  valid_tape (tape g) ->
  (1 <= fst size)%Z -> (1 <= snd size)%Z ->
  Forall terminal_ok inputs ->
  (exists frames g',
      wind_simulation size color density high inputs g = Ok (frames, g') /\
      Forall (fun f => (population (spawned f) <= target_of_spec (spawned f))%Z)
             frames) /\
  (forall s g1 s' g1',
      WindSimulation.generate_particles s g1 = Ok (s', g1') ->
      exists new,
        WindSimulation.particles s' = WindSimulation.particles s ++ new /\
        (WindSimulation.target_count s <= population s -> new = [])%Z) /\
  (forall s w k s',
      handle_key s w k = Some s' ->
      (k = ord_h \/ k = ord_H \/ k = curses.KEY_RESIZE ->
       WindSimulation.particles s' = []) /\
      (WindSimulation.particles s' = []
       \/ (WindSimulation.particles s' = WindSimulation.particles s /\
           WindSimulation.target_count s' = WindSimulation.target_count s))).
Proof.
  intros Hv Hy Hx Hin. split; [ | split].
  - unfold wind_simulation.
    set (stdscr := curses.mkWindow (fst size) (snd size) []).
    destruct (init_sound stdscr color density high Hy Hx) as [Hs Hb].
    destruct (wind_simulation_loop_spec inputs
                (WindSimulation.init stdscr color density high) stdscr g
                Hv Hs Hb) as (frames & g' & E & _ & Hframes & _);
      [intros H; discriminate | exact Hin | ].
    exists frames, g'. split; [exact E | ].
    eapply Forall_impl; [ | exact Hframes]. intros f (Hsf & Hbf & _).
    rewrite <- target_count_floor; [exact Hbf | | ].
    + pose proof (sound_rows _ Hsf). lia.
    + pose proof (sound_cols _ Hsf). lia.
  - intros s g1 s' g1' H. unfold WindSimulation.generate_particles in H.
    eapply spawn_appends. exact H.
  - intros s w k s' H. split.
    + apply (handle_key_clears s w k s' H).
    + apply (handle_key_population s w k s' H).
Qed.

(** ** The wind along a run *)

(** C6: in every run (on a terminal of at least one row and one column,
    with draws of [random()] in [0, 1)) the variation timer advances by
    the tick interval in every tick, starting from 0, and at the end of
    every tick [base = max(0.5, 1.2 + 0.4 sin(0.8 timer)
    + 0.2 cos(0.3 timer))] for the timer of that tick, and the
    current strength equals the base strength when no gust is active and
    strictly exceeds it when one is. *)
Theorem wind_strength_tracks_base size color density high inputs g :
  valid_tape (tape g) ->
  (1 <= fst size)%Z -> (1 <= snd size)%Z ->
  Forall terminal_ok inputs ->
  exists frames g',
    wind_simulation size color density high inputs g = Ok (frames, g') /\
    timers_from 0 frames /\
    Forall (fun f =>
              let s := state f in
              WindSimulation.base_wind_strength s
              = Rmax 0.5
                  (1.2 + 0.4 * sin (0.8 * WindSimulation.wind_variation_timer s)
                   + 0.2 * cos (0.3 * WindSimulation.wind_variation_timer s)) /\
              (WindSimulation.gust_active s = false ->
               WindSimulation.wind_strength s
               = WindSimulation.base_wind_strength s) /\
              (WindSimulation.gust_active s = true ->
               WindSimulation.base_wind_strength s
               < WindSimulation.wind_strength s))
           frames.
Proof.
  intros Hv Hy Hx Hin. unfold wind_simulation.
  set (stdscr := curses.mkWindow (fst size) (snd size) []).
  destruct (init_sound stdscr color density high Hy Hx) as [Hs Hb].
  destruct (wind_simulation_loop_spec inputs
              (WindSimulation.init stdscr color density high) stdscr g
              Hv Hs Hb) as (frames & g' & E & _ & Hframes & Htimers);
    [intros H; discriminate | exact Hin | ].
  exists frames, g'. split; [exact E | ]. split; [exact Htimers | ].
  eapply Forall_impl; [ | exact Hframes]. intros f (_ & _ & Hset). exact Hset.
Qed.

Lemma wind_strength_tracks_base_witness :
  valid_tape (tape steady) /\ Forall terminal_ok busy_inputs /\
  exists frames g',
    wind_simulation (24, 80)%Z "cyan" false true busy_inputs steady
    = Ok (frames, g') /\
    timers_from 0 frames.
Proof.
  assert (Hv : valid_tape (tape steady)) by (intros n; cbn; lra).
  assert (Hin : Forall terminal_ok busy_inputs).
  { repeat constructor; cbn; lia. }
  split; [exact Hv | split; [exact Hin | ]].
  destruct (wind_strength_tracks_base (24, 80)%Z "cyan" false true
              busy_inputs steady Hv) as (frames & g' & E & Ht & _);
    [cbn; lia | cbn; lia | exact Hin | ].
  exists frames, g'. split; [exact E | exact Ht].
Defined.

(** ** Wind-strength commands *)

Lemma update_forgets_base s b :
  WindSimulation.update_wind_and_spawn
    (WindSimulation.set_base_wind_strength s b)
  = WindSimulation.update_wind_and_spawn s.
Proof. reflexivity. Qed.

Lemma handle_strength_key s w k :
  strength_or_none k ->
  exists b, handle_key s w k
            = Some (WindSimulation.set_base_wind_strength s b).
Proof.
  intros [-> | [-> | ->]].
  - eexists. reflexivity.
  - eexists. reflexivity.
  - exists (WindSimulation.base_wind_strength s). destruct s. reflexivity.
Qed.

Lemma wind_simulation_loop_strength inputs1 inputs2 :
  Forall2 same_but_strength inputs1 inputs2 ->
  forall s w g,
    wind_simulation_loop inputs1 s w g = wind_simulation_loop inputs2 s w g.
Proof.
  induction 1 as [ | i1 i2 inputs1 inputs2 [Et Hk] _ IH]; intros s w g.
  - reflexivity.
  - cbn [wind_simulation_loop]. rewrite Et.
    set (stdscr := curses.mkWindow (fst (terminal i2)) (snd (terminal i2))
                                   (curses.writes w)).
    assert (Hstep : forall s1 s1',
               WindSimulation.update_wind_and_spawn s1
               = WindSimulation.update_wind_and_spawn s1' ->
               (s2 <- WindSimulation.update_wind_and_spawn s1 ;;
                s3 <- WindSimulation.update_particles s2 ;;
                w' <- lift (WindSimulation.draw s3 stdscr) ;;
                frames <- wind_simulation_loop inputs1 s3 w' ;;
                ret (mkFrame s2 s3 w' :: frames)) g
               = (s2 <- WindSimulation.update_wind_and_spawn s1' ;;
                  s3 <- WindSimulation.update_particles s2 ;;
                  w' <- lift (WindSimulation.draw s3 stdscr) ;;
                  frames <- wind_simulation_loop inputs2 s3 w' ;;
                  ret (mkFrame s2 s3 w' :: frames)) g).
    { intros s1 s1' E. unfold bind. rewrite E.
      destruct (WindSimulation.update_wind_and_spawn s1' g)
        as [[s2 g2] | e]; [ | reflexivity].
      destruct (WindSimulation.update_particles s2 g2)
        as [[s3 g3] | e]; [ | reflexivity].
      destruct (lift (WindSimulation.draw s3 stdscr) g3)
        as [[w' g4] | e]; [ | reflexivity].
      rewrite IH. reflexivity. }
    destruct Hk as [Ek | [H1 H2]].
    + rewrite Ek. destruct (handle_key s stdscr (key i2)) as [s1 | ];
        [ | reflexivity].
      apply Hstep. reflexivity.
    + destruct (handle_strength_key s stdscr (key i1) H1) as (b1 & E1).
      destruct (handle_strength_key s stdscr (key i2) H2) as (b2 & E2).
      rewrite E1, E2. apply Hstep. reflexivity.
Qed.

(** C10: two runs from the same start and the same draws, whose inputs
    agree tick by tick except that where one has no key, [+] or [-], the
    other may have another of these three, are the same run: the same
    frames, hence the same wind strength in every tick; the base strength
    a command has set is overwritten by [update_wind_pattern] before it is
    read. *)
Theorem strength_commands_do_not_interfere
        size color density high inputs1 inputs2 g :
  Forall2 same_but_strength inputs1 inputs2 ->
  wind_simulation size color density high inputs1 g
  = wind_simulation size color density high inputs2 g /\
  forall s b,
    WindSimulation.update_wind_pattern
      (WindSimulation.set_base_wind_strength s b)
    = WindSimulation.update_wind_pattern s.
Proof.
  intros H. split.
  - unfold wind_simulation. apply wind_simulation_loop_strength. exact H.
  - reflexivity.
Qed.

Lemma floor_of_24_by_80 : Zfloor (IZR (24 * 80) * 0.15) = 288%Z.
Proof. apply Zfloor_eq. cbn [Z.mul Pos.mul Pos.add]. lra. Qed.

Lemma population_never_exceeds_target_witness :
  valid_tape (tape steady) /\ Forall terminal_ok busy_inputs /\
  exists frames g',
    wind_simulation (24, 80)%Z "cyan" false true busy_inputs steady
    = Ok (frames, g') /\
    Forall (fun f => (population (spawned f) <= target_of_spec (spawned f))%Z)
           frames.
Proof.
  assert (Hv : valid_tape (tape steady)) by (intros n; cbn; lra).
  assert (Hin : Forall terminal_ok busy_inputs).
  { repeat constructor; cbn; lia. }
  split; [exact Hv | split; [exact Hin | ]].
  apply (population_never_exceeds_target (24, 80)%Z "cyan" false true
           busy_inputs steady Hv);
    [cbn; lia | cbn; lia | exact Hin].
Defined.

Lemma strength_commands_do_not_interfere_witness :
  Forall2 same_but_strength idle_inputs strength_inputs /\
  wind_simulation (24, 80)%Z "cyan" false true idle_inputs steady
  = wind_simulation (24, 80)%Z "cyan" false true strength_inputs steady.
Proof.
  assert (H : Forall2 same_but_strength idle_inputs strength_inputs).
  { repeat constructor; right; unfold strength_or_none; cbn; tauto. }
  split; [exact H | ].
  apply (strength_commands_do_not_interfere (24, 80)%Z "cyan" false true
           idle_inputs strength_inputs steady H).
Defined.

(** * Further properties *)

(** ** WindParticle.__init__ and reset, position and draws *)

(** X1: with draws of [random()] in [0, 1), [WindParticle.__init__] never
    raises and makes exactly ten calls to the random module; the particle
    it builds sits at the given [(x, y)], keeps the given grid size,
    [original_x] and density mode, and has [age = 0] and every sampled
    field in its range. *)
Theorem init_samples_particle x0 y0 rows cols mode g :
  valid_tape (tape g) ->
  exists p,
    WindParticle.init x0 y0 rows cols mode g
    = Ok (p, mkRng (tape g) (pos g + 10)) /\
    WindParticle.x p = IZR x0 /\ WindParticle.y p = IZR y0 /\
    kept p = (rows, cols, x0, mode) /\ sampled p.
Proof.
  intros Hv.
  destruct (init_spec x0 y0 rows cols mode g Hv)
    as (p & g' & E & _ & Er & Ec & Ex & Ey & Hs).
  exists p.
  assert (Eg : g' = mkRng (tape g) (pos g + 10)
               /\ WindParticle.original_x p = x0
               /\ WindParticle.density_mode p = mode).
  { revert E. unfold WindParticle.init. repeat draw_step. unfold ret.
    intros E. injection E as <- <-. unfold advance. cbn [tape pos].
    repeat split. f_equal. lia. }
  destruct Eg as (-> & Eo & Em).
  split; [exact E | ].
  split; [exact Ex | split; [exact Ey | split; [ | exact Hs]]].
  unfold kept. rewrite Er, Ec, Eo, Em. reflexivity.
Qed.

Lemma init_samples_particle_witness :
  valid_tape (tape steady) /\
  exists p,
    WindParticle.init 10 23 24 80 false steady
    = Ok (p, mkRng (tape steady) (pos steady + 10)) /\
    sampled p.
Proof.
  split; [exact steady_valid | ].
  destruct (init_samples_particle 10 23 24 80 false steady steady_valid)
    as (p & E & _ & _ & _ & Hs).
  exists p. split; [exact E | exact Hs].
Defined.

(** X2: on a grid of at least one row and one column, [reset] puts the
    particle exactly on a cell of its grid (integer coordinates with
    [0 <= y <= max_rows - 1] and [0 <= x <= max_cols - 1]) and leaves the
    grid size, [original_x] and the density mode as they were; the phase,
    density and layer are in [0, 2 pi], [0, 1) and 1..3.  When the first
    draw is below 0.3 the particle restarts in column 0 after twelve calls
    to the random module; otherwise the column is drawn too and there are
    thirteen calls. *)
Theorem reset_places_on_cell p g :
  valid_tape (tape g) ->
  (1 <= WindParticle.max_rows p)%Z -> (1 <= WindParticle.max_cols p)%Z ->
  exists p' g',
    WindParticle.reset p g = Ok (p', g') /\ tape g' = tape g /\
    kept p' = kept p /\ on_cell p' /\
    0 <= WindParticle.phase p' <= 2 * PI /\
    0 <= WindParticle.density p' < 1 /\
    (1 <= WindParticle.layer p' <= 3)%Z /\
    (unit_draw (current g) < 0.3 ->
     WindParticle.x p' = 0 /\ pos g' = (pos g + 12)%nat) /\
    (0.3 <= unit_draw (current g) -> pos g' = (pos g + 13)%nat).
Proof.
  intros Hv Hr Hc.
  destruct (reset_spec p g Hv Hr Hc) as (p' & g' & E & T & K & Hs & Hcell).
  exists p', g'. repeat (split; [assumption | ]).
  destruct Hs. repeat (split; [assumption | ]).
  revert E. unfold WindParticle.reset. draw_step.
  destruct (Rltb (unit_draw (current g)) 0.3) eqn:Er.
  - apply Rltb_true in Er. repeat draw_step. unfold ret.
    intros E. injection E as <- <-. split; [ | intros; lra].
    intros _. split; [reflexivity | ]. unfold advance. cbn [pos]. lia.
  - apply Rltb_false in Er. repeat draw_step. unfold ret.
    intros E. injection E as <- <-. split; [intros; lra | ].
    intros _. unfold advance. cbn [pos]. lia.
Qed.

Lemma reset_places_on_cell_witness :
  valid_tape (tape steady) /\
  exists p' g',
    WindParticle.reset bottom_particle steady = Ok (p', g') /\
    on_cell p' /\ pos g' = (pos steady + 13)%nat.
Proof.
  split; [exact steady_valid | ].
  destruct (reset_places_on_cell bottom_particle steady steady_valid)
    as (p' & g' & E & _ & _ & Hcell & _ & _ & _ & _ & Hpos);
    [cbn; lia | cbn; lia | ].
  exists p', g'. split; [exact E | ]. split; [exact Hcell | ].
  apply Hpos. cbn. lra.
Defined.

Lemma reset_outcome p g :
  match WindParticle.reset p g with
  | Raise e => e = ValueError /\ no_cell_for p g
  | Ok _ => ~ no_cell_for p g
  end.
Proof.
  unfold WindParticle.reset, no_cell_for. draw_step.
  destruct (Rltb (unit_draw (current g)) 0.3) eqn:Er;
    [apply Rltb_true in Er | apply Rltb_false in Er].
  - unfold bind at 1. unfold ret at 1. unfold bind at 1.
    unfold random.randint at 1.
    destruct (Z.ltb_spec (WindParticle.max_rows p - 1) 0) as [Hr | Hr].
    + unfold raise. split; [reflexivity | left; lia].
    + unfold bind at 1. unfold random.randbelow at 1, next at 1.
      unfold bind at 1, ret at 1. unfold bind at 1. unfold ret at 1.
      repeat draw_step. unfold ret. intros [H | [_ H]]; [lia | lra].
  - unfold bind at 1. unfold random.randint at 1.
    destruct (Z.ltb_spec (WindParticle.max_cols p - 1) 0) as [Hc | Hc].
    + unfold raise. split; [reflexivity | right; split; [lia | exact Er]].
    + unfold bind at 1. unfold random.randbelow at 1, next at 1.
      unfold bind at 1, ret at 1. unfold bind at 1. unfold ret at 1.
      unfold bind at 1. unfold random.randint at 1.
      destruct (Z.ltb_spec (WindParticle.max_rows p - 1) 0) as [Hr | Hr].
      * unfold raise. split; [reflexivity | left; lia].
      * unfold bind at 1. unfold random.randbelow at 1, next at 1.
        unfold bind at 1, ret at 1. unfold bind at 1. unfold ret at 1.
        repeat draw_step. unfold ret. intros [H | [H _]]; lia.
Qed.

(** X3: [reset] raises exactly when it cannot sample a cell, and then the
    exception is [ValueError] (the empty range of [randint]): when the
    grid has no row, or when it has no column and the first draw is not
    below 0.3, the case in which the column is drawn.  In every other case
    it returns. *)
Theorem reset_raises_iff p g :
  (WindParticle.reset p g = Raise ValueError <-> no_cell_for p g) /\
  ((exists p' g', WindParticle.reset p g = Ok (p', g')) <->
   ~ no_cell_for p g).
Proof.
  pose proof (reset_outcome p g) as H.
  destruct (WindParticle.reset p g) as [[p' g'] | e].
  - split; split.
    + discriminate.
    + intros Hn. contradiction.
    + intros _. exact H.
    + intros _. exists p', g'. reflexivity.
  - destruct H as [-> Hn]. split; split.
    + intros _. exact Hn.
    + reflexivity.
    + intros (p' & g' & E). discriminate.
    + intros Hc. contradiction.
Qed.

(** ** WindParticle.update, in and out of the grid *)

Lemma sampled_in_ranges p : sampled p -> in_ranges p.
Proof. intros []. constructor; assumption. Qed.

Lemma in_ranges_same p q :
  WindParticle.speed q = WindParticle.speed p ->
  WindParticle.amplitude q = WindParticle.amplitude p ->
  WindParticle.frequency q = WindParticle.frequency p ->
  WindParticle.lifetime q = WindParticle.lifetime p ->
  WindParticle.density q = WindParticle.density p ->
  WindParticle.layer q = WindParticle.layer p ->
  WindParticle.opacity q = WindParticle.opacity p ->
  WindParticle.char q = WindParticle.char p ->
  WindParticle.density_char q = WindParticle.density_char p ->
  in_ranges p -> in_ranges q.
Proof.
  intros E1 E2 E3 E4 E5 E6 E7 E8 E9 []. constructor; congruence.
Qed.

Lemma in_ranges_check_vertical p :
  in_ranges p -> in_ranges (WindParticle.check_vertical p).
Proof.
  unfold WindParticle.check_vertical.
  destruct (Rgeb _ _); [apply in_ranges_same; reflexivity | ].
  destruct (Rltb _ _); [apply in_ranges_same; reflexivity | trivial].
Qed.

Lemma in_ranges_move p ws wd :
  in_ranges p -> in_ranges (WindParticle.move p ws wd).
Proof. apply in_ranges_same; reflexivity. Qed.

Lemma py_int_floor_range v n :
  0 <= v < IZR n -> (0 <= py_int v < n)%Z.
Proof.
  intros [H0 Hn]. split; [apply py_int_nonneg; exact H0 | ].
  unfold py_int. destruct (Rle_dec 0 v); [ | lra].
  pose proof (Zfloor_bound v) as [Hf _].
  apply lt_IZR. lra.
Qed.

Lemma in_bounds_cell p : in_bounds p -> cell_in_grid p.
Proof.
  intros [Hy Hx]. split; apply py_int_floor_range; assumption.
Qed.

Lemma age_check_vertical p :
  WindParticle.age (WindParticle.check_vertical p) = WindParticle.age p /\
  WindParticle.lifetime (WindParticle.check_vertical p)
  = WindParticle.lifetime p.
Proof.
  unfold WindParticle.check_vertical.
  destruct (Rgeb _ _); [split; reflexivity | ].
  destruct (Rltb _ _); split; reflexivity.
Qed.

(** What [reset] returns, for the particle invariant. *)
Lemma reset_alive p g :
  valid_tape (tape g) ->
  (1 <= WindParticle.max_rows p)%Z -> (1 <= WindParticle.max_cols p)%Z ->
  exists p' g',
    WindParticle.reset p g = Ok (p', g') /\ tape g' = tape g /\
    kept p' = kept p /\ in_bounds p' /\
    0 <= WindParticle.age p' < WindParticle.lifetime p' /\ in_ranges p'.
Proof.
  intros Hv Hr Hc.
  destruct (reset_spec p g Hv Hr Hc) as (p' & g' & E & T & K & Hs & Hcell).
  exists p', g'. repeat (split; [assumption | ]).
  split; [apply on_cell_in_bounds, Hcell | ].
  split; [ | apply sampled_in_ranges, Hs].
  destruct Hs. lra.
Qed.

(** One call of [update], for the particle invariant. *)
Lemma update_alive p ws wd g :
  valid_tape (tape g) ->
  (1 <= WindParticle.max_rows p)%Z -> (1 <= WindParticle.max_cols p)%Z ->
  in_ranges p -> 0 <= WindParticle.age p ->
  exists p' g',
    WindParticle.update p ws wd g = Ok (p', g') /\ tape g' = tape g /\
    kept p' = kept p /\ in_bounds p' /\ cell_in_grid p' /\
    0 <= WindParticle.age p' < WindParticle.lifetime p' /\ in_ranges p'.
Proof.
  intros Hv Hr Hc Hran Hage. unfold WindParticle.update.
  set (m := WindParticle.move p ws wd).
  assert (Hm : in_ranges m) by (apply in_ranges_move; exact Hran).
  assert (Ham : 0 <= WindParticle.age m).
  { cbn. unfold UPDATE_INTERVAL. lra. }
  unfold WindParticle.check_horizontal, bind.
  destruct (WindParticle.horizontal_exit m) eqn:Eh.
  - destruct (reset_alive m g Hv Hr Hc)
      as (p1 & g1 & E1 & T1 & K1 & B1 & A1 & R1).
    rewrite E1. rewrite (check_vertical_fixed p1 B1).
    unfold WindParticle.check_lifetime, WindParticle.expired.
    destruct (Rgeb _ _) eqn:Ee; [apply Rgeb_true in Ee; lra | ].
    exists p1, g1. split; [reflexivity | ]. split; [exact T1 | ].
    split; [exact K1 | ]. split; [exact B1 | ].
    split; [apply in_bounds_cell, B1 | ]. split; assumption.
  - unfold ret. unfold WindParticle.check_lifetime.
    rewrite expired_check_vertical.
    destruct (size_check_vertical m) as [Er Ec].
    destruct (WindParticle.expired m) eqn:Ee.
    + destruct (reset_alive (WindParticle.check_vertical m) g Hv)
        as (p2 & g2 & E2 & T2 & K2 & B2 & A2 & R2).
      { rewrite Er. exact Hr. }
      { rewrite Ec. exact Hc. }
      exists p2, g2. split; [exact E2 | ]. split; [exact T2 | ].
      split; [rewrite K2, kept_check_vertical; reflexivity | ].
      split; [exact B2 | ]. split; [apply in_bounds_cell, B2 | ].
      split; assumption.
    + exists (WindParticle.check_vertical m), g. split; [reflexivity | ].
      split; [reflexivity | ].
      split; [rewrite kept_check_vertical; reflexivity | ].
      assert (B : in_bounds (WindParticle.check_vertical m))
        by (apply check_vertical_in_bounds; assumption).
      split; [exact B | ]. split; [apply in_bounds_cell, B | ].
      split; [ | apply in_ranges_check_vertical, Hm].
      destruct (age_check_vertical m) as [-> ->].
      apply Rgeb_false in Ee. lra.
Qed.

(** X4: on a grid of at least one row and one column, for every wind
    strength and direction, [update] of a particle whose sampled fields
    are in their ranges and whose age is not negative returns a particle
    of the same grid that lies within the grid ([0 <= y < max_rows],
    [0 <= x < max_cols], so the cell [(int(y), int(x))] is a cell of the
    grid), whose age is below its lifetime and whose sampled fields are in
    their ranges again.  When the moved particle neither leaves the grid
    horizontally nor expires, no random number is drawn and the particle
    only ages by one tick. *)
Theorem update_keeps_particle_alive p ws wd g :
  valid_tape (tape g) ->
  (1 <= WindParticle.max_rows p)%Z -> (1 <= WindParticle.max_cols p)%Z ->
  in_ranges p -> 0 <= WindParticle.age p ->
  exists p' g',
    WindParticle.update p ws wd g = Ok (p', g') /\ tape g' = tape g /\
    kept p' = kept p /\ in_bounds p' /\ cell_in_grid p' /\
    0 <= WindParticle.age p' < WindParticle.lifetime p' /\ in_ranges p' /\
    (WindParticle.horizontal_exit (WindParticle.move p ws wd) = false ->
     WindParticle.expired (WindParticle.move p ws wd) = false ->
     g' = g /\
     WindParticle.age p' = WindParticle.age p + UPDATE_INTERVAL /\
     WindParticle.lifetime p' = WindParticle.lifetime p).
Proof.
  intros Hv Hr Hc Hran Hage.
  destruct (update_alive p ws wd g Hv Hr Hc Hran Hage)
    as (p' & g' & E & T & K & B & C & A & R).
  exists p', g'. repeat (split; [assumption | ]).
  intros Hh He. rewrite (update_no_reset p ws wd g Hh He) in E.
  injection E as <- <-. split; [reflexivity | ].
  destruct (age_check_vertical (WindParticle.move p ws wd)) as [-> ->].
  split; reflexivity.
Qed.

Lemma update_keeps_particle_alive_witness :
  in_ranges bottom_particle /\
  exists p' g',
    WindParticle.update bottom_particle 1 1 steady = Ok (p', g') /\
    in_bounds p' /\
    0 <= WindParticle.age p' < WindParticle.lifetime p'.
Proof.
  assert (Hran : in_ranges bottom_particle).
  { constructor; cbn; try lra; try lia; tauto. }
  split; [exact Hran | ].
  destruct (update_keeps_particle_alive bottom_particle 1 1 steady
              steady_valid)
    as (p' & g' & E & _ & _ & B & _ & A & _);
    [cbn; lia | cbn; lia | exact Hran | cbn; lra | ].
  exists p', g'. split; [exact E | ]. split; [exact B | exact A].
Defined.

(** ** Start, course and end of a gust *)

Lemma gust_multiplier_cases pr :
  (pr < 0.2 /\ WindSimulation.gust_multiplier pr = pr / 0.2) \/
  (0.2 <= pr < 0.8 /\ WindSimulation.gust_multiplier pr = 1) \/
  (0.8 <= pr /\ WindSimulation.gust_multiplier pr = 1 - (pr - 0.8) / 0.2).
Proof.
  unfold WindSimulation.gust_multiplier.
  destruct (Rltb pr 0.2) eqn:E1.
  - apply Rltb_true in E1. left. split; [exact E1 | reflexivity].
  - apply Rltb_false in E1. destruct (Rltb pr 0.8) eqn:E2.
    + apply Rltb_true in E2. right. left. split; [lra | lra].
    + apply Rltb_false in E2. right. right. split; [lra | lra].
Qed.

(** X5: the gust envelope of [update_wind_pattern] as a function of the
    progress of the gust: it is 0 at progress 0 and at progress 1, equal to
    1 from 0.2 to 0.8, between 0 and 1 on [0, 1], rising up to 0.2 and
    falling from 0.8 on, and it has no jump: it changes at most five times
    as fast as the progress. *)
Theorem gust_envelope_shape :
  WindSimulation.gust_multiplier 0 = 0 /\
  WindSimulation.gust_multiplier 1 = 0 /\
  (forall pr, 0.2 <= pr <= 0.8 -> WindSimulation.gust_multiplier pr = 1) /\
  (forall pr, 0 <= pr <= 1 -> 0 <= WindSimulation.gust_multiplier pr <= 1) /\
  (forall pr qr, pr <= qr <= 0.2 ->
     WindSimulation.gust_multiplier pr <= WindSimulation.gust_multiplier qr) /\
  (forall pr qr, 0.8 <= pr <= qr ->
     WindSimulation.gust_multiplier qr <= WindSimulation.gust_multiplier pr) /\
  (forall pr qr,
     Rabs (WindSimulation.gust_multiplier pr
           - WindSimulation.gust_multiplier qr)
     <= 5 * Rabs (pr - qr)).
Proof.
  split; [ | split; [ | split; [ | split; [ | split; [ | split]]]]].
  - destruct (gust_multiplier_cases 0) as [[_ ->] | [[H _] | [H _]]]; lra.
  - destruct (gust_multiplier_cases 1) as [[H _] | [[H _] | [_ ->]]]; lra.
  - intros pr Hp.
    destruct (gust_multiplier_cases pr) as [[H1 ->] | [[H1 ->] | [H1 ->]]];
      lra.
  - intros pr Hp.
    destruct (gust_multiplier_cases pr) as [[H1 ->] | [[H1 ->] | [H1 ->]]];
      lra.
  - intros pr qr Hp.
    destruct (gust_multiplier_cases pr) as [[H1 ->] | [[H1 ->] | [H1 ->]]];
      destruct (gust_multiplier_cases qr) as [[H2 ->] | [[H2 ->] | [H2 ->]]];
      lra.
  - intros pr qr Hp.
    destruct (gust_multiplier_cases pr) as [[H1 ->] | [[H1 ->] | [H1 ->]]];
      destruct (gust_multiplier_cases qr) as [[H2 ->] | [[H2 ->] | [H2 ->]]];
      lra.
  - intros pr qr. unfold Rabs.
    destruct (gust_multiplier_cases pr) as [[H1 ->] | [[H1 ->] | [H1 ->]]];
      destruct (gust_multiplier_cases qr) as [[H2 ->] | [[H2 ->] | [H2 ->]]];
      do 2 destruct (Rcase_abs _); lra.
Qed.

Lemma drawn_duration_range g :
  valid_tape (tape g) -> 0.3 <= drawn_duration g < 1.2.
Proof.
  intros Hv. unfold drawn_duration, current. specialize (Hv (pos g)). lra.
Qed.

(** X6: a tick of [update_wind_pattern] during a gust makes two calls to
    the random module, advances the gust timer by one tick interval, and
    keeps the gust active exactly when the new timer is below the duration
    drawn in this tick; so a gust younger than 0.3 s always continues, and
    one of 1.2 s or more always ends, with the wind strength back at the
    base strength. *)
Theorem gust_lasts_between_bounds s g :
  valid_tape (tape g) ->
  WindSimulation.gust_active s = true ->
  exists s',
    WindSimulation.update_wind_pattern s g = Ok (s', advance (advance g)) /\
    WindSimulation.gust_timer s'
    = WindSimulation.gust_timer s + UPDATE_INTERVAL /\
    (WindSimulation.gust_active s' = true <->
     WindSimulation.gust_timer s' < drawn_duration g) /\
    (WindSimulation.gust_timer s' < 0.3 ->
     WindSimulation.gust_active s' = true) /\
    (1.2 <= WindSimulation.gust_timer s' ->
     WindSimulation.gust_active s' = false /\
     WindSimulation.wind_strength s' = WindSimulation.base_wind_strength s').
Proof.
  intros Hv Ha. pose proof (drawn_duration_range g Hv) as Hd.
  destruct (Rlt_le_dec (WindSimulation.gust_timer s + UPDATE_INTERVAL)
                       (drawn_duration g)) as [Hlt | Hle].
  - destruct (active_tick s g Ha Hlt) as (s' & E & A & T & _).
    exists s'. split; [exact E | ]. split; [exact T | ]. rewrite T, A.
    split; [tauto | ]. split; [reflexivity | ]. intros H. lra.
  - destruct (ending_tick s g Ha Hle) as (s' & E & A & T & W).
    exists s'. split; [exact E | ]. split; [exact T | ]. rewrite T, A.
    split; [split; [discriminate | intros H; lra] | ].
    split; [intros H; lra | ]. intros _. split; [reflexivity | exact W].
Qed.

Lemma gust_lasts_between_bounds_witness :
  valid_tape (tape steady) /\
  WindSimulation.gust_active gusty_simulation = true /\
  exists s',
    WindSimulation.update_wind_pattern gusty_simulation steady
    = Ok (s', advance (advance steady)) /\
    WindSimulation.gust_timer s'
    = WindSimulation.gust_timer gusty_simulation + UPDATE_INTERVAL.
Proof.
  split; [exact steady_valid | ]. split; [reflexivity | ].
  destruct (gust_lasts_between_bounds gusty_simulation steady steady_valid
              eq_refl) as (s' & E & T & _).
  exists s'. split; [exact E | exact T].
Defined.

Lemma idle_tick s g :
  WindSimulation.gust_active s = false ->
  WindSimulation.gust_chance s <= unit_draw (current g) ->
  exists s',
    WindSimulation.update_wind_pattern s g = Ok (s', advance (advance g)) /\
    WindSimulation.gust_active s' = false /\
    WindSimulation.gust_timer s' = WindSimulation.gust_timer s /\
    WindSimulation.gust_strength s' = WindSimulation.gust_strength s /\
    WindSimulation.wind_strength s' = WindSimulation.base_wind_strength s'.
Proof.
  intros Ha Hc. unfold WindSimulation.update_wind_pattern, bind.
  unfold WindSimulation.trigger_gust.
  change (WindSimulation.gust_active (WindSimulation.vary_base s))
    with (WindSimulation.gust_active s).
  change (WindSimulation.gust_chance (WindSimulation.vary_base s))
    with (WindSimulation.gust_chance s).
  rewrite Ha. cbn [negb]. unfold bind at 1. rewrite random_run.
  apply Rltb_false in Hc. rewrite Hc. unfold ret at 1.
  unfold WindSimulation.blow.
  change (WindSimulation.gust_active (WindSimulation.vary_base s))
    with (WindSimulation.gust_active s).
  rewrite Ha. unfold ret at 1.
  match goal with |- context [WindSimulation.turn ?s1 ?g1] =>
    destruct (turn_run s1 g1) as (s' & E & B & W & A & T & G) end.
  exists s'. rewrite E. split; [reflexivity | ].
  rewrite A, T, G, W, B. cbn. repeat split. exact Ha.
Qed.

(** X7: with no gust active, a tick of [update_wind_pattern] starts one
    exactly when its first draw is below the gust chance (0.01 in
    high-density mode, 0.005 otherwise).  A gust that starts has strength
    in [2.5, 5) and timer equal to one tick interval at the end of the
    tick, and the tick makes four calls to the random module; otherwise the
    gust fields are untouched, the wind strength is the base strength, and
    the tick makes two calls. *)
Theorem gust_starts_on_low_draw s g :
  valid_tape (tape g) ->
  WindSimulation.gust_active s = false ->
  exists s' g',
    WindSimulation.update_wind_pattern s g = Ok (s', g') /\
    (WindSimulation.gust_active s' = true <->
     unit_draw (current g) < WindSimulation.gust_chance s) /\
    (WindSimulation.gust_active s' = true ->
     WindSimulation.gust_timer s' = UPDATE_INTERVAL /\
     2.5 <= WindSimulation.gust_strength s' < 5 /\
     pos g' = (pos g + 4)%nat) /\
    (WindSimulation.gust_active s' = false ->
     WindSimulation.gust_timer s' = WindSimulation.gust_timer s /\
     WindSimulation.gust_strength s' = WindSimulation.gust_strength s /\
     WindSimulation.wind_strength s' = WindSimulation.base_wind_strength s' /\
     pos g' = (pos g + 2)%nat).
Proof.
  intros Hv Ha.
  destruct (Rlt_le_dec (unit_draw (current g)) (WindSimulation.gust_chance s))
    as [Hlt | Hle].
  - destruct (starting_tick s g Ha Hlt) as (s' & E & A & T & G).
    { pose proof (drawn_duration_range (advance (advance g)) Hv).
      unfold UPDATE_INTERVAL. lra. }
    exists s', (advance (advance (advance (advance g)))).
    split; [exact E | ]. rewrite A. split; [tauto | ].
    split; [ | discriminate]. intros _. split; [exact T | ].
    rewrite G. pose proof (Hv (pos (advance g))) as Hu.
    unfold current. cbn [advance tape pos] in Hu |- *.
    split; [lra | lia].
  - destruct (idle_tick s g Ha Hle) as (s' & E & A & T & G & W).
    exists s', (advance (advance g)). split; [exact E | ]. rewrite A.
    split; [split; [discriminate | intros H; lra] | ].
    split; [discriminate | ]. intros _.
    repeat (split; [assumption | ]). cbn. lia.
Qed.

Lemma gust_starts_on_low_draw_witness :
  valid_tape (tape steady) /\
  WindSimulation.gust_active calm_simulation = false /\
  exists s' g',
    WindSimulation.update_wind_pattern calm_simulation steady
    = Ok (s', g') /\
    WindSimulation.gust_active s' = false /\ pos g' = (pos steady + 2)%nat.
Proof.
  split; [exact steady_valid | ]. split; [reflexivity | ].
  destruct (gust_starts_on_low_draw calm_simulation steady steady_valid
              eq_refl) as (s' & g' & E & Hiff & _ & Hidle).
  exists s', g'. split; [exact E | ].
  assert (Ha : WindSimulation.gust_active s' = false).
  { destruct (WindSimulation.gust_active s'); [ | reflexivity].
    destruct Hiff as [H _]. specialize (H eq_refl). cbn in H. lra. }
  split; [exact Ha | ]. apply (Hidle Ha).
Defined.

(** ** Bounds of the wind *)

Lemma gust_window_ready s : gust_window s -> gust_ready s.
Proof. intros H Ha. destruct (H Ha). split; lra. Qed.

Lemma vary_base_range s :
  0.5 <= WindSimulation.base_wind_strength (WindSimulation.vary_base s) <= 1.8.
Proof.
  unfold WindSimulation.vary_base. wind_fields.
  set (t := WindSimulation.wind_variation_timer s + UPDATE_INTERVAL).
  pose proof (SIN_bound (t * 0.8)). pose proof (COS_bound (t * 0.3)).
  unfold Rmax. destruct (Rle_dec _ _); lra.
Qed.

Lemma trigger_gust_window s g :
  valid_tape (tape g) -> gust_window s ->
  exists s' g',
    WindSimulation.trigger_gust s g = Ok (s', g') /\ tape g' = tape g /\
    WindSimulation.base_wind_strength s'
    = WindSimulation.base_wind_strength s /\
    WindSimulation.wind_direction s' = WindSimulation.wind_direction s /\
    gust_window s'.
Proof.
  intros Hv Hw. unfold WindSimulation.trigger_gust.
  destruct (WindSimulation.gust_active s) eqn:Ea; cbn [negb].
  - exists s, g. repeat split; apply Hw; exact Ea.
  - draw_step. destruct (Rltb _ _).
    + draw_step. unfold ret. eexists; eexists. split; [reflexivity | ].
      split; [reflexivity | ]. split; [reflexivity | ].
      split; [reflexivity | ]. intros _. wind_fields.
      pose proof (Hv (pos (advance g))) as Hu. unfold current.
      cbn [advance tape pos] in Hu |- *. lra.
    + exists s, (advance g). repeat split; try reflexivity;
        destruct (Hw ltac:(assumption)); lra.
Qed.

Lemma blow_window s g :
  valid_tape (tape g) -> gust_window s ->
  exists s' g',
    WindSimulation.blow s g = Ok (s', g') /\ tape g' = tape g /\
    WindSimulation.base_wind_strength s'
    = WindSimulation.base_wind_strength s /\
    WindSimulation.wind_direction s' = WindSimulation.wind_direction s /\
    gust_window s' /\
    WindSimulation.base_wind_strength s' <= WindSimulation.wind_strength s'
    < WindSimulation.base_wind_strength s' + 5.
Proof.
  intros Hv Hw. destruct (WindSimulation.gust_active s) eqn:Ea.
  - destruct (Hw Ea) as [Ht Hs].
    assert (Hd : 0.3 <= drawn_duration g < 1.2).
    { unfold drawn_duration, current. specialize (Hv (pos g)). lra. }
    destruct (Rlt_le_dec (WindSimulation.gust_timer s + UPDATE_INTERVAL)
                         (drawn_duration g)) as [Hlt | Hle].
    + rewrite (blow_continues s g Ea Hlt).
      eexists; eexists. split; [reflexivity | ]. split; [reflexivity | ].
      wind_fields. split; [reflexivity | ]. split; [reflexivity | ].
      split.
      * intros _. wind_fields. unfold UPDATE_INTERVAL in *. lra.
      * assert (Hp : 0 < (WindSimulation.gust_timer s + UPDATE_INTERVAL)
                         / drawn_duration g < 1).
        { apply progress_range; unfold UPDATE_INTERVAL in *; lra. }
        apply gust_multiplier_pos in Hp. nra.
    + rewrite (blow_ends s g Ea Hle).
      eexists; eexists. split; [reflexivity | ]. split; [reflexivity | ].
      wind_fields. split; [reflexivity | ]. split; [reflexivity | ].
      split; [intros H; discriminate | lra].
  - unfold WindSimulation.blow. rewrite Ea. unfold ret.
    eexists; eexists. split; [reflexivity | ]. split; [reflexivity | ].
    wind_fields. split; [reflexivity | ]. split; [reflexivity | ].
    split; [intros H; cbn in H; congruence | lra].
Qed.

Lemma turn_direction s g :
  exists s',
    WindSimulation.turn s g = Ok (s', advance g) /\
    same_wind s s' /\ same_scene s s' /\
    (WindSimulation.wind_direction s' = WindSimulation.wind_direction s
     \/ WindSimulation.wind_direction s'
        = (- WindSimulation.wind_direction s)%Z) /\
    (WindSimulation.wind_direction s'
     = (- WindSimulation.wind_direction s)%Z <->
     unit_draw (current g) < WindSimulation.direction_chance s
     \/ WindSimulation.wind_direction s = 0%Z).
Proof.
  unfold WindSimulation.turn. draw_step.
  destruct (Rltb _ _) eqn:E; unfold ret; eexists;
    (split; [reflexivity | ]); (split; [repeat split | ]);
    (split; [repeat split | ]); wind_fields.
  - apply Rltb_true in E. split; [right; lia | ]. split; [tauto | lia].
  - apply Rltb_false in E. split; [left; reflexivity | ].
    split; [intros H; right; lia | intros [H | H]; [lra | lia]].
Qed.

Lemma update_wind_pattern_bounds s g :
  valid_tape (tape g) -> gust_window s -> unit_direction s ->
  exists s' g',
    WindSimulation.update_wind_pattern s g = Ok (s', g') /\
    tape g' = tape g /\
    gust_window s' /\ wind_in_bounds s' /\ unit_direction s'.
Proof.
  intros Hv Hw Hd. unfold WindSimulation.update_wind_pattern, bind.
  destruct (trigger_gust_window (WindSimulation.vary_base s) g Hv Hw)
    as (s1 & g1 & E1 & T1 & B1 & D1 & W1).
  rewrite E1.
  destruct (blow_window s1 g1) as (s2 & g2 & E2 & T2 & B2 & D2 & W2 & S2).
  { rewrite T1. exact Hv. }
  { exact W1. }
  rewrite E2.
  destruct (turn_direction s2 g2) as (s3 & E3 & Hwind & _ & Hdir & _).
  rewrite E3. exists s3, (advance g2). split; [reflexivity | ].
  split; [cbn [advance tape]; congruence | ].
  destruct Hwind as (Ews & Eb & _ & Ea & Et & Eg).
  split; [unfold gust_window; rewrite Ea, Et, Eg; exact W2 | ].
  split.
  - unfold wind_in_bounds. rewrite Eb, Ews. split; [ | exact S2].
    rewrite B2, B1. apply vary_base_range.
  - unfold unit_direction in *. rewrite D2, D1 in Hdir.
    change (WindSimulation.wind_direction (WindSimulation.vary_base s))
      with (WindSimulation.wind_direction s) in Hdir.
    lia.
Qed.

(** ** generate_particles *)

Lemma fresh_in_scene s s' p :
  WindSimulation.rows s' = WindSimulation.rows s ->
  WindSimulation.cols s' = WindSimulation.cols s ->
  WindSimulation.show_density s' = WindSimulation.show_density s ->
  fresh_in s p -> fresh_in s' p.
Proof. unfold fresh_in. intros -> -> ->. tauto. Qed.

Lemma spawn_fresh fuel : forall target s g,
  valid_tape (tape g) ->
  (1 <= WindSimulation.rows s)%Z -> (1 <= WindSimulation.cols s)%Z ->
  exists new g',
    WindSimulation.spawn fuel target s g
    = Ok (WindSimulation.set_particles s (WindSimulation.particles s ++ new),
          g') /\
    tape g' = tape g /\
    pos g' = (pos g + 12 * List.length new)%nat /\
    Forall (fresh_in s) new /\
    Z.of_nat (List.length new)
    = Z.min (Z.of_nat fuel) (Z.max 0 (target - population s)).
Proof.
  induction fuel as [ | fuel IH]; intros target s g Hv Hr Hc.
  - exists [], g. cbn [WindSimulation.spawn]. unfold ret.
    rewrite app_nil_r. destruct s. split; [reflexivity | ].
    split; [reflexivity | ]. cbn [List.length].
    split; [lia | ]. split; [constructor | lia].
  - cbn [WindSimulation.spawn]. fold (population s).
    destruct (Z.ltb_spec (population s) target) as [Hlt | Hge].
    + draw_step. draw_step. unfold bind at 1.
      match goal with |- context [WindParticle.init ?a ?b ?c ?d ?e ?g1] =>
        destruct (init_spec a b c d e g1)
          as (p & g2 & Ei & Ti & Er & Ec & Ex & Ey & Hsam);
          [exact Hv | ];
        assert (Eg2 : pos g2 = (pos g1 + 10)%nat);
          [ revert Ei; unfold WindParticle.init; repeat draw_step;
            unfold ret; intros Ei; injection Ei as _ <-;
            unfold advance; cbn [pos]; lia | ];
        assert (Em : WindParticle.density_mode p = e);
          [ revert Ei; unfold WindParticle.init; repeat draw_step;
            unfold ret; intros Ei; injection Ei as <- _; reflexivity | ]
      end.
      rewrite Ei.
      assert (Hp : fresh_in s p).
      { unfold fresh_in. repeat (split; [assumption | ]).
        split; [ | exact Hsam]. unfold on_cell. rewrite Er, Ec.
        eexists; eexists. split; [exact Ey | ]. split; [exact Ex | ].
        pose proof (Z.mod_pos_bound
                      (Z.of_nat (index_draw (current (advance g))))
                      (WindSimulation.rows s - 1 - 0 + 1)).
        pose proof (Z.mod_pos_bound
                      (Z.of_nat (index_draw (current g)))
                      (WindSimulation.cols s - 1 - 0 + 1)).
        lia. }
      set (s1 := WindSimulation.set_particles s
                   (WindSimulation.particles s ++ [p])).
      destruct (IH target s1 g2) as (new & g' & E & T & P & Hnew & Hlen).
      { rewrite Ti. exact Hv. }
      { exact Hr. }
      { exact Hc. }
      exists (p :: new), g'. rewrite E. split.
      { subst s1. cbn [WindSimulation.set_particles WindSimulation.particles
                       WindSimulation.wind_color WindSimulation.show_density
                       WindSimulation.high_density WindSimulation.wind_strength
                       WindSimulation.wind_direction
                       WindSimulation.base_wind_strength
                       WindSimulation.wind_variation_timer
                       WindSimulation.gust_timer WindSimulation.gust_active
                       WindSimulation.gust_strength WindSimulation.rows
                       WindSimulation.cols WindSimulation.frame_count
                       WindSimulation.density_layers].
        rewrite <- app_assoc. reflexivity. }
      split; [rewrite T, Ti; reflexivity | ].
      split.
      { rewrite P, Eg2. cbn [advance pos List.length]. lia. }
      split.
      { constructor; [exact Hp | ].
        eapply Forall_impl; [ | exact Hnew]. intros q.
        apply fresh_in_scene; reflexivity. }
      assert (Ep : population s1 = (population s + 1)%Z).
      { unfold population, s1. cbn [WindSimulation.set_particles
                                    WindSimulation.particles].
        rewrite length_app. cbn [List.length]. lia. }
      rewrite Ep in Hlen. cbn [List.length]. lia.
    + exists [], g. unfold ret. rewrite app_nil_r. destruct s.
      split; [reflexivity | ]. split; [reflexivity | ].
      cbn [List.length]. split; [lia | ]. split; [constructor | lia].
Qed.

(** X8: on a grid of at least one row and one column,
    [generate_particles] returns, keeps the particles it finds and appends
    new ones up to the target count: afterwards the population is the
    maximum of the old population and the target.  It makes twelve calls to
    the random module per new particle, and every new particle sits on a
    cell of the grid, carries the grid size and the density mode of the
    simulation, and is freshly sampled. *)
Theorem generate_particles_fills s g :
  valid_tape (tape g) ->
  (1 <= WindSimulation.rows s)%Z -> (1 <= WindSimulation.cols s)%Z ->
  exists new g',
    WindSimulation.generate_particles s g
    = Ok (WindSimulation.set_particles s (WindSimulation.particles s ++ new),
          g') /\
    (population s + Z.of_nat (List.length new)
     = Z.max (population s) (WindSimulation.target_count s))%Z /\
    pos g' = (pos g + 12 * List.length new)%nat /\
    Forall (fresh_in s) new.
Proof.
  intros Hv Hr Hc. unfold WindSimulation.generate_particles.
  fold (population s).
  destruct (spawn_fresh
              (Z.to_nat (WindSimulation.target_count s - population s))
              (WindSimulation.target_count s) s g Hv Hr Hc)
    as (new & g' & E & _ & P & Hnew & Hlen).
  exists new, g'. split; [exact E | ]. split; [lia | ].
  split; assumption.
Qed.

Lemma generate_particles_fills_witness :
  valid_tape (tape steady) /\
  exists new g',
    WindSimulation.generate_particles calm_simulation steady
    = Ok (WindSimulation.set_particles calm_simulation
            (WindSimulation.particles calm_simulation ++ new), g') /\
    Forall (fresh_in calm_simulation) new.
Proof.
  split; [exact steady_valid | ].
  destruct (generate_particles_fills calm_simulation steady steady_valid)
    as (new & g' & E & _ & _ & Hnew); [cbn; lia | cbn; lia | ].
  exists new, g'. split; [exact E | exact Hnew].
Defined.

(** X9: when the population has reached the target count,
    [generate_particles] changes nothing and draws no random number; when
    it has not and the grid has no row or no column, it raises
    [ValueError] (from [randint] on an empty range). *)
Theorem generate_particles_edges s g :
  ((WindSimulation.target_count s <= population s)%Z ->
   WindSimulation.generate_particles s g = Ok (s, g)) /\
  ((population s < WindSimulation.target_count s)%Z ->
   (WindSimulation.rows s <= 0)%Z \/ (WindSimulation.cols s <= 0)%Z ->
   WindSimulation.generate_particles s g = Raise ValueError).
Proof.
  unfold WindSimulation.generate_particles. fold (population s). split.
  - intros H.
    replace (Z.to_nat (WindSimulation.target_count s - population s))
      with 0%nat by lia.
    reflexivity.
  - intros Hlt Hgrid.
    destruct (Z.to_nat (WindSimulation.target_count s - population s))
      as [ | fuel] eqn:Ef; [lia | ].
    cbn [WindSimulation.spawn]. fold (population s).
    destruct (Z.ltb_spec (population s) (WindSimulation.target_count s));
      [ | lia].
    unfold bind at 1. unfold random.randint at 1.
    destruct (Z.ltb_spec (WindSimulation.cols s - 1) 0) as [Hc | Hc];
      [reflexivity | ].
    unfold bind at 1. unfold random.randbelow at 1, next at 1.
    unfold bind at 1, ret at 1. unfold bind at 1. unfold ret at 1.
    unfold bind at 1. unfold random.randint at 1.
    destruct (Z.ltb_spec (WindSimulation.rows s - 1) 0) as [Hr | Hr];
      [reflexivity | lia].
Qed.

(** ** update_density_map *)

Lemma nth_error_replace_nth {A} (l : list A) a : forall n m,
  nth_error (replace_nth n l a) m
  = if (n =? m)%nat
    then (if (n <? List.length l)%nat then Some a else None)
    else nth_error l m.
Proof.
  induction l as [ | b l IH]; intros n m.
  - cbn. destruct (n =? m)%nat; destruct m; destruct n; reflexivity.
  - destruct n as [ | n]; destruct m as [ | m]; cbn [replace_nth nth_error];
      try reflexivity.
    rewrite IH. cbn [Nat.eqb List.length].
    destruct (n =? m)%nat; [ | reflexivity].
    change (S n <? S (List.length l))%nat with (n <? List.length l)%nat.
    reflexivity.
Qed.

Lemma getitem_nth {A} (l : list A) i :
  (0 <= i < Z.of_nat (List.length l))%Z ->
  exists a, getitem l i = Ok a /\ nth_error l (Z.to_nat i) = Some a.
Proof.
  intros Hi. unfold getitem, py_index.
  destruct (Z.leb_spec 0 i); [ | lia].
  destruct (Z.ltb_spec i (Z.of_nat (List.length l))); [ | lia]. cbn [andb].
  destruct (nth_error l (Z.to_nat i)) as [a | ] eqn:E.
  - exists a. split; reflexivity.
  - apply nth_error_None in E. lia.
Qed.

Lemma in_grid_iff s p :
  WindSimulation.in_grid s p = true <->
  (0 <= py_int (WindParticle.y p) < WindSimulation.rows s)%Z /\
  (0 <= py_int (WindParticle.x p) < WindSimulation.cols s)%Z.
Proof.
  unfold WindSimulation.in_grid, WindSimulation.cell_of. cbn [fst snd].
  rewrite !andb_true_iff, !Z.leb_le, !Z.ltb_lt. tauto.
Qed.

Lemma plot_shows s layers p f :
  particle_ok s p -> layers_ok s layers -> shows s layers f ->
  exists layers',
    WindSimulation.plot s layers p = Ok layers' /\ layers_ok s layers' /\
    shows s layers'
          (fun k idx => if at_slot s k idx p then density_glyph p
                        else f k idx).
Proof.
  intros (_ & _ & Hd & Hl) [Hlen Hfit] Hshow.
  unfold WindSimulation.plot, at_slot, slot.
  set (px := py_int (WindParticle.x p)). set (py := py_int (WindParticle.y p)).
  destruct (WindSimulation.in_grid s p) eqn:Eg.
  - apply in_grid_iff in Eg. destruct Eg as [Hy Hx]. fold px py in Hx, Hy.
    destruct (Z.leb_spec 0 px); [ | lia].
    destruct (Z.ltb_spec px (WindSimulation.cols s)); [ | lia].
    destruct (Z.leb_spec 0 py); [ | lia].
    destruct (Z.ltb_spec py (WindSimulation.rows s)); [ | lia].
    cbn [andb]. change (Z.of_nat (List.length WIND_PARTICLES)) with 8%Z.
    destruct (getitem_nth WIND_PARTICLES
                (Z.min (py_int (WindParticle.density p * 8)) (8 - 1)))
      as (density_char & E1 & N1).
    { assert (0 <= py_int (WindParticle.density p * 8))%Z
        by (apply py_int_nonneg; lra).
      change (Z.of_nat (List.length WIND_PARTICLES)) with 8%Z. lia. }
    rewrite E1. rewrite Hlen.
    assert (Eglyph : density_char = density_glyph p).
    { unfold density_glyph. symmetry. apply nth_error_nth.
      exact N1. }
    set (k0 := Z.min (WindParticle.layer p - 1) (Z.of_nat 3 - 1)).
    destruct (getitem_nth layers k0) as (layer & E2 & N2).
    { subst k0. rewrite Hlen. lia. }
    rewrite E2.
    assert (Hin : In layer layers) by (eapply nth_error_In, N2).
    rewrite Forall_forall in Hfit. pose proof (Hfit layer Hin) as Hlayer.
    set (idx0 := (py * WindSimulation.cols s + px)%Z).
    assert (Hidx : (0 <= idx0
                    < WindSimulation.cols s * WindSimulation.rows s)%Z)
      by (subst idx0; nia).
    rewrite setitem_in_range by (rewrite Hlayer; lia).
    rewrite setitem_in_range by (rewrite Hlen; subst k0; lia).
    eexists. split; [reflexivity | ]. split.
    + split.
      * rewrite replace_nth_length. exact Hlen.
      * apply replace_nth_Forall.
        -- apply Forall_forall. exact Hfit.
        -- rewrite replace_nth_length. exact Hlayer.
    + intros k idx Hk Hi. unfold entry.
      rewrite nth_error_replace_nth.
      change (Z.min (WindParticle.layer p - 1) 2) with k0.
      destruct (Nat.eqb_spec (Z.to_nat k0) k) as [Ek | Ek].
      * destruct (Nat.ltb_spec (Z.to_nat k0) (List.length layers)) as [_ | Hn];
          [ | subst k0; lia].
        rewrite nth_error_replace_nth. cbn [andb].
        fold idx0.
        destruct (Nat.eqb_spec (Z.to_nat idx0) idx) as [Ei | Ei].
        -- destruct (Nat.ltb_spec (Z.to_nat idx0) (List.length layer))
             as [_ | Hn]; [ | lia].
           rewrite Eglyph. reflexivity.
        -- specialize (Hshow k idx Hk Hi). unfold entry in Hshow.
           rewrite <- Ek in Hshow. rewrite N2 in Hshow. rewrite <- Ek.
           exact Hshow.
      * cbn [andb]. apply (Hshow k idx Hk Hi).
  - assert (Eguard : ((0 <=? px) && (px <? WindSimulation.cols s)
                      && (0 <=? py) && (py <? WindSimulation.rows s))%Z
                     = false).
    { apply not_true_iff_false. intros H. apply not_true_iff_false in Eg.
      apply Eg. apply in_grid_iff. fold px py.
      rewrite !andb_true_iff, !Z.leb_le, !Z.ltb_lt in H. lia. }
    rewrite Eguard. exists layers. split; [reflexivity | ].
    split; [split; assumption | exact Hshow].
Qed.

Lemma shows_ext s layers f f' :
  (forall k idx, f k idx = f' k idx) -> shows s layers f -> shows s layers f'.
Proof. intros E H k idx Hk Hi. rewrite <- E. apply H; assumption. Qed.

Lemma plotted_snoc s pre p k idx :
  plotted s (pre ++ [p]) k idx
  = if at_slot s k idx p then density_glyph p else plotted s pre k idx.
Proof.
  unfold plotted. rewrite rev_app_distr. cbn [rev app find].
  destruct (at_slot s k idx p); reflexivity.
Qed.

Lemma fold_plot_shows s : forall ps pre layers,
  Forall (particle_ok s) ps -> layers_ok s layers ->
  shows s layers (plotted s pre) ->
  exists layers',
    fold_result (WindSimulation.plot s) ps layers = Ok layers' /\
    layers_ok s layers' /\ shows s layers' (plotted s (pre ++ ps)).
Proof.
  induction ps as [ | p ps IH]; intros pre layers Hps Hok Hshow.
  - exists layers. rewrite app_nil_r. repeat split; try assumption; apply Hok.
  - inversion Hps as [ | ? ? Hp Hps']; subst.
    destruct (plot_shows s layers p (plotted s pre) Hp Hok Hshow)
      as (layers1 & E1 & Hok1 & Hshow1).
    cbn [fold_result]. rewrite E1.
    destruct (IH (pre ++ [p]) layers1 Hps' Hok1)
      as (layers' & E & Hok' & Hshow').
    { eapply shows_ext; [ | exact Hshow1]. intros k idx.
      symmetry. apply plotted_snoc. }
    exists layers'. rewrite <- app_assoc in Hshow'.
    split; [exact E | split; assumption].
Qed.

Lemma density_glyph_In p : In (density_glyph p) WIND_PARTICLES.
Proof.
  unfold density_glyph. apply nth_In.
  change (List.length WIND_PARTICLES) with 8%nat. lia.
Qed.

Lemma density_glyph_not_blank p : density_glyph p <> WindSimulation.blank.
Proof.
  pose proof (density_glyph_In p) as H. intros E. rewrite E in H.
  cbn in H. repeat (destruct H as [H | H]; [discriminate | ]). exact H.
Qed.

Lemma cleared_shows s layers :
  layers_ok s layers ->
  shows s (map (fun layer : list Z =>
                  map (fun _ : Z => WindSimulation.blank) layer) layers)
        (plotted s []).
Proof.
  intros [Hlen Hfit] k idx Hk Hi. unfold entry, plotted. cbn [rev find].
  rewrite nth_error_map.
  destruct (nth_error layers k) as [layer | ] eqn:E.
  - cbn [option_map]. rewrite nth_error_map.
    rewrite Forall_forall in Hfit.
    pose proof (Hfit layer (nth_error_In _ _ E)) as Hlayer.
    destruct (nth_error layer idx) eqn:E2; [reflexivity | ].
    apply nth_error_None in E2. lia.
  - apply nth_error_None in E. lia.
Qed.

(** X10: on a simulation whose particles and density layers are made for
    its grid, [update_density_map] returns three layers of one entry per
    cell, and every entry is the glyph of the last particle of the list
    plotted at that layer and cell, or a blank when there is none: nothing
    of the previous map survives.  A particle is plotted at layer
    [min(layer - 1, 2)] and index [int(y) * cols + int(x)] when its cell
    is in the grid; an entry is not blank exactly when some particle is
    plotted there, and then it is one of [WIND_PARTICLES]. *)
Theorem update_density_map_plots s :
  sound s ->
  exists layers,
    WindSimulation.update_density_map s
    = Ok (WindSimulation.set_density_layers s layers) /\
    layers_ok s layers /\
    forall k idx,
      (k < 3)%nat ->
      (idx < Z.to_nat (WindSimulation.cols s * WindSimulation.rows s))%nat ->
      entry layers k idx
      = Some (plotted s (WindSimulation.particles s) k idx) /\
      (plotted s (WindSimulation.particles s) k idx <> WindSimulation.blank
       <-> exists p, In p (WindSimulation.particles s)
                     /\ at_slot s k idx p = true) /\
      (plotted s (WindSimulation.particles s) k idx = WindSimulation.blank
       \/ In (plotted s (WindSimulation.particles s) k idx) WIND_PARTICLES).
Proof.
  intros [Hr Hc Hp Hl Hf]. unfold WindSimulation.update_density_map.
  assert (Hok : layers_ok s (WindSimulation.density_layers s))
    by (split; assumption).
  destruct (fold_plot_shows s (WindSimulation.particles s) []
              (map (fun layer : list Z =>
                      map (fun _ : Z => WindSimulation.blank) layer)
                   (WindSimulation.density_layers s)))
    as (layers & E & Hok' & Hshow); try assumption.
  { destruct Hok as [Hlen Hfit]. split.
    - rewrite length_map. exact Hlen.
    - apply Forall_map. eapply Forall_impl; [ | exact Hfit].
      intros layer Hlayer. cbn beta. rewrite length_map. exact Hlayer. }
  { apply cleared_shows. exact Hok. }
  rewrite E. exists layers. split; [reflexivity | ]. split; [exact Hok' | ].
  intros k idx Hk Hi. cbn [app] in Hshow.
  split; [apply Hshow; assumption | ]. unfold plotted.
  destruct (find (at_slot s k idx) (rev (WindSimulation.particles s)))
    as [p | ] eqn:Efind.
  - apply find_some in Efind. destruct Efind as [Hin Hat].
    split; [ | right; apply density_glyph_In].
    split; [ | intros _; apply density_glyph_not_blank].
    intros _. exists p. split; [apply in_rev; exact Hin | exact Hat].
  - split; [ | left; reflexivity]. split; [intros H; congruence | ].
    intros (p & Hin & Hat).
    pose proof (find_none _ _ Efind p (proj1 (in_rev _ _) Hin)) as Hn.
    congruence.
Qed.

Lemma stale_simulation_sound : sound stale_simulation.
Proof.
  apply sound_set_particles.
  - apply init_sound; cbn; lia.
  - constructor; [ | constructor]. repeat split; cbn; lra || lia.
Qed.

Lemma update_density_map_plots_witness :
  sound stale_simulation /\
  exists layers,
    WindSimulation.update_density_map stale_simulation
    = Ok (WindSimulation.set_density_layers stale_simulation layers) /\
    layers_ok stale_simulation layers.
Proof.
  split; [exact stale_simulation_sound | ].
  destruct (update_density_map_plots stale_simulation stale_simulation_sound)
    as (layers & E & Hok & _).
  exists layers. split; [exact E | exact Hok].
Defined.

(** X11: the glyph [update_density_map] chooses for a particle of
    density [d >= 0] is [WIND_PARTICLES[k]] for [k / 8 <= d < (k + 1) / 8],
    [k < 8], and the last glyph for [d >= 1]: the index expression of
    line 211 never falls outside of the list. *)
Theorem density_glyph_buckets p :
  0 <= WindParticle.density p ->
  (forall k : nat,
      (k < 8)%nat ->
      INR k / 8 <= WindParticle.density p < (INR k + 1) / 8 ->
      density_glyph p = nth k WIND_PARTICLES WindSimulation.blank) /\
  (1 <= WindParticle.density p ->
   density_glyph p = nth 7 WIND_PARTICLES WindSimulation.blank) /\
  getitem WIND_PARTICLES
    (Z.min (py_int (WindParticle.density p
                    * IZR (Z.of_nat (List.length WIND_PARTICLES))))
           (Z.of_nat (List.length WIND_PARTICLES) - 1))
  = Ok (density_glyph p).
Proof.
  intros Hd. split; [ | split].
  - intros k Hk Hb. unfold density_glyph.
    assert (E : py_int (WindParticle.density p * 8) = Z.of_nat k).
    { unfold py_int. destruct (Rle_dec 0 _) as [_ | Hn]; [ | lra].
      apply Zfloor_eq. rewrite <- INR_IZR_INZ. lra. }
    rewrite E. f_equal. lia.
  - intros H1. unfold density_glyph.
    assert (E : (8 <= py_int (WindParticle.density p * 8))%Z).
    { unfold py_int. destruct (Rle_dec 0 _) as [_ | Hn]; [ | lra].
      apply Zfloor_lub. lra. }
    f_equal. lia.
  - change (Z.of_nat (List.length WIND_PARTICLES)) with 8%Z.
    destruct (getitem_nth WIND_PARTICLES
                (Z.min (py_int (WindParticle.density p * 8)) (8 - 1)))
      as (a & E & N).
    { assert (0 <= py_int (WindParticle.density p * 8))%Z
        by (apply py_int_nonneg; lra).
      change (Z.of_nat (List.length WIND_PARTICLES)) with 8%Z. lia. }
    rewrite E. f_equal. unfold density_glyph. symmetry.
    apply nth_error_nth. exact N.
Qed.

Lemma density_glyph_buckets_witness :
  0 <= WindParticle.density bottom_particle /\
  density_glyph bottom_particle = nth 4 WIND_PARTICLES WindSimulation.blank.
Proof.
  assert (H : 0 <= WindParticle.density bottom_particle) by (cbn; lra).
  split; [exact H | ].
  destruct (density_glyph_buckets bottom_particle H) as (Hk & _).
  apply (Hk 4%nat); [lia | cbn; lra].
Defined.

(** ** What draw_particles leaves on the window *)

Lemma find_app {A} (f : A -> bool) l1 l2 :
  find f (l1 ++ l2)
  = match find f l1 with Some a => Some a | None => find f l2 end.
Proof.
  induction l1 as [ | a l1 IH]; cbn; [reflexivity | ].
  destruct (f a); [reflexivity | exact IH].
Qed.

Lemma inch_addstr w row col ch a r c :
  curses.inside w row col = true ->
  exists w',
    curses.addstr w row col ch a = Ok w' /\
    curses.maxy w' = curses.maxy w /\ curses.maxx w' = curses.maxx w /\
    curses.inch w' r c
    = if ((row =? r) && (col =? c))%Z
      then Some (curses.mkWrite row col ch a) else curses.inch w r c.
Proof.
  intros Hin. unfold curses.addstr. rewrite Hin. eexists.
  split; [reflexivity | ]. split; [reflexivity | ]. split; [reflexivity | ].
  unfold curses.inch. cbn [curses.writes find curses.at_y curses.at_x].
  reflexivity.
Qed.

Lemma draw_particle_inch s w w1 p :
  curses.maxy w1 = curses.maxy w -> curses.maxx w1 = curses.maxx w ->
  exists w2,
    WindSimulation.draw_particle s w1 p = Ok w2 /\
    curses.maxy w2 = curses.maxy w /\ curses.maxx w2 = curses.maxx w /\
    forall row col,
      curses.inch w2 row col
      = if shown_at s w row col p then Some (particle_write s p)
        else curses.inch w1 row col.
Proof.
  intros Ey Ex. unfold WindSimulation.draw_particle, shown_at.
  rewrite <- (inside_same_size w w1) by assumption.
  destruct (WindSimulation.in_grid s p); cbn [andb];
    [ | exists w1; repeat split; assumption].
  destruct (curses.inside w1 _ _) eqn:Ein; cbn [andb].
  - unfold curses.addstr. rewrite Ein. eexists.
    split; [reflexivity | ]. split; [exact Ey | ]. split; [exact Ex | ].
    intros row col. unfold curses.inch.
    cbn [curses.writes find curses.at_y curses.at_x]. reflexivity.
  - unfold curses.addstr. rewrite Ein. exists w1.
    split; [reflexivity | ]. repeat split; assumption.
Qed.

Lemma fold_draw_particle_inch s w : forall l w1,
  curses.maxy w1 = curses.maxy w -> curses.maxx w1 = curses.maxx w ->
  exists w2,
    fold_result (WindSimulation.draw_particle s) l w1 = Ok w2 /\
    curses.maxy w2 = curses.maxy w /\ curses.maxx w2 = curses.maxx w /\
    forall row col,
      curses.inch w2 row col
      = match find (shown_at s w row col) (rev l) with
        | Some p => Some (particle_write s p)
        | None => curses.inch w1 row col
        end.
Proof.
  induction l as [ | p l IH]; intros w1 Ey Ex.
  - exists w1. repeat split; assumption.
  - destruct (draw_particle_inch s w w1 p Ey Ex) as (w2 & E2 & Ey2 & Ex2 & H2).
    destruct (IH w2 Ey2 Ex2) as (w3 & E3 & Ey3 & Ex3 & H3).
    exists w3. cbn [fold_result]. rewrite E2.
    split; [exact E3 | ]. split; [exact Ey3 | ]. split; [exact Ex3 | ].
    intros row col. rewrite H3, H2. cbn [rev]. rewrite find_app.
    destruct (find _ (rev l)); [reflexivity | ]. cbn [find].
    destruct (shown_at s w row col p); reflexivity.
Qed.

Lemma find_last_of_sorted (f : WindParticle.t -> bool) : forall l p,
  StronglySorted layer_le l ->
  find f (rev l) = Some p ->
  In p l /\ f p = true /\
  forall q, In q l -> f q = true ->
            (WindParticle.layer q <= WindParticle.layer p)%Z.
Proof.
  induction l as [ | a l IH]; intros p Hs Hf.
  - discriminate.
  - inversion Hs as [ | ? ? Hs' Ha]; subst. cbn [rev] in Hf.
    rewrite find_app in Hf.
    destruct (find f (rev l)) as [p' | ] eqn:E.
    + injection Hf as ->. destruct (IH p Hs' eq_refl) as (Hin & Hp & Hmax).
      split; [right; exact Hin | ]. split; [exact Hp | ].
      intros q [<- | Hq] Hfq.
      * rewrite Forall_forall in Ha. apply (Ha p Hin).
      * apply Hmax; assumption.
    + cbn [find] in Hf. destruct (f a) eqn:Efa; [ | discriminate].
      injection Hf as <-. split; [left; reflexivity | ].
      split; [exact Efa | ]. intros q [<- | Hq] Hfq.
      * apply Z.le_refl.
      * pose proof (find_none _ _ E q (proj1 (in_rev _ _) Hq)). congruence.
Qed.

Lemma layer_le_trans : Relations_1.Transitive layer_le.
Proof. intros p q r. unfold layer_le. lia. Qed.

(** X12: for particles whose glyph takes one cell (every glyph of
    [WIND_CHARS] but the two-cell U+FE19), drawn on a window that holds
    such glyphs only, [draw_particles] never raises, and afterwards every
    cell of the window shows what it showed before when no particle is
    drawn there, and otherwise the glyph and attribute of one of the
    particles whose truncated coordinates are that cell: the last one in
    drawing order, which has the highest layer of all particles drawn at
    that cell.  A particle is drawn when its cell lies in the grid and in
    the window. *)
Theorem draw_particles_stacks s w :
  Forall (fun p => one_cell (WindParticle.char p))
         (WindSimulation.particles s) ->
  Forall (fun c => one_cell (curses.glyph c)) (curses.writes w) ->
  exists w',
    WindSimulation.draw_particles s w = Ok w' /\
    forall row col,
      match find (shown_at s w row col)
                 (rev (WindSimulation.sorted_by_layer
                         (WindSimulation.particles s))) with
      | Some p =>
          curses.inch w' row col = Some (particle_write s p) /\
          In p (WindSimulation.particles s) /\
          (py_int (WindParticle.y p), py_int (WindParticle.x p)) = (row, col) /\
          forall q, In q (WindSimulation.particles s) ->
                    shown_at s w row col q = true ->
                    (WindParticle.layer q <= WindParticle.layer p)%Z
      | None =>
          curses.inch w' row col = curses.inch w row col /\
          forall q, In q (WindSimulation.particles s) ->
                    shown_at s w row col q = false
      end.
Proof.
  intros _ _. unfold WindSimulation.draw_particles.
  destruct (fold_draw_particle_inch s w
              (WindSimulation.sorted_by_layer (WindSimulation.particles s))
              w eq_refl eq_refl) as (w' & E & _ & _ & H).
  exists w'. split; [exact E | ]. intros row col. specialize (H row col).
  pose proof (sorted_by_layer_perm (WindSimulation.particles s)) as Hperm.
  destruct (find _ _) as [p | ] eqn:Ef.
  - destruct (find_last_of_sorted _ _ p
                (Sorted_StronglySorted layer_le_trans
                   (sorted_by_layer_sorted (WindSimulation.particles s))) Ef)
      as (Hin & Hp & Hmax).
    split; [exact H | ].
    split; [eapply Permutation_in; [exact Hperm | exact Hin] | ].
    split.
    + unfold shown_at in Hp. rewrite !andb_true_iff, !Z.eqb_eq in Hp.
      destruct Hp as [[_ Hrow] Hcol]. cbn in Hrow, Hcol. congruence.
    + intros q Hq Hfq. apply Hmax; [ | exact Hfq].
      eapply Permutation_in; [apply Permutation_sym; exact Hperm | exact Hq].
  - split; [exact H | ]. intros q Hq.
    apply (find_none _ _ Ef). apply in_rev. rewrite rev_involutive.
    eapply Permutation_in; [apply Permutation_sym; exact Hperm | exact Hq].
Qed.

Lemma draw_particles_stacks_witness :
  Forall (fun p => one_cell (WindParticle.char p))
         (WindSimulation.particles stale_simulation) /\
  Forall (fun c => one_cell (curses.glyph c))
         (curses.writes (curses.mkWindow 24 80 [])) /\
  exists w',
    WindSimulation.draw_particles stale_simulation (curses.mkWindow 24 80 [])
    = Ok w' /\
    curses.inch w' 23 10
    = Some (particle_write stale_simulation bottom_particle).
Proof.
  assert (Hp : Forall (fun p => one_cell (WindParticle.char p))
                      (WindSimulation.particles stale_simulation)).
  { constructor; [ | constructor]. split; [left; left; reflexivity | ].
    discriminate. }
  assert (Hw : Forall (fun c => one_cell (curses.glyph c))
                      (curses.writes (curses.mkWindow 24 80 [])))
    by constructor.
  split; [exact Hp | split; [exact Hw | ]].
  destruct (draw_particles_stacks stale_simulation
              (curses.mkWindow 24 80 []) Hp Hw) as (w' & E & H).
  exists w'. split; [exact E | ]. specialize (H 23%Z 10%Z).
  assert (Hf : find (shown_at stale_simulation (curses.mkWindow 24 80 [])
                              23 10)
                    (rev (WindSimulation.sorted_by_layer
                            (WindSimulation.particles stale_simulation)))
               = Some bottom_particle).
  { cbn [stale_simulation WindSimulation.particles
         WindSimulation.set_particles WindSimulation.sorted_by_layer
         fold_right WindSimulation.insert_by_layer rev app find].
    unfold shown_at, WindSimulation.in_grid, WindSimulation.cell_of.
    cbn [bottom_particle WindParticle.x WindParticle.y fst snd].
    rewrite !py_int_IZR. reflexivity. }
  rewrite Hf in H. apply H.
Defined.

(** ** What draw_density leaves on the window *)

Lemma existsb_range c n :
  existsb (Z.eqb c) (range n) = ((0 <=? c) && (c <? n))%Z.
Proof.
  apply eq_true_iff_eq. rewrite existsb_exists, andb_true_iff.
  rewrite Z.leb_le, Z.ltb_lt. split.
  - intros (x & Hin & Ex). apply Z.eqb_eq in Ex. subst x.
    apply In_range in Hin. exact Hin.
  - intros H. exists c. split; [apply In_range; lia | apply Z.eqb_refl].
Qed.

Section OneLayer.

Variable s : WindSimulation.t.
Variable w : curses.window.
Variable layer : list Z.
Variable a : Z.

Hypothesis layer_fits :
  List.length layer
  = Z.to_nat (WindSimulation.cols s * WindSimulation.rows s).

Let same_size (w1 : curses.window) : Prop :=
  curses.maxy w1 = curses.maxy w /\ curses.maxx w1 = curses.maxx w.

Let written (row col : Z) : curses.write :=
  curses.mkWrite row col (layer_glyph s layer row col) a.

Let visible (row col : Z) : bool :=
  curses.inside w row col
  && negb (layer_glyph s layer row col =? WindSimulation.blank)%Z.

Lemma draw_density_cell_inch row col w1 :
  (0 <= row < WindSimulation.rows s)%Z ->
  (0 <= col < WindSimulation.cols s)%Z ->
  same_size w1 ->
  exists w2,
    WindSimulation.draw_density_cell s layer a row w1 col = Ok w2 /\
    same_size w2 /\
    forall r c,
      curses.inch w2 r c
      = if ((row =? r) && (col =? c))%Z && visible row col
        then Some (written row col) else curses.inch w1 r c.
Proof.
  intros Hrow Hcol [Ey Ex]. unfold WindSimulation.draw_density_cell.
  destruct (getitem_nth layer (row * WindSimulation.cols s + col))
    as (ch & E & N).
  { rewrite layer_fits. nia. }
  rewrite E.
  assert (Ech : ch = layer_glyph s layer row col).
  { unfold layer_glyph. symmetry. apply nth_error_nth. exact N. }
  unfold visible, written. rewrite <- Ech.
  rewrite <- (inside_same_size w w1 row col Ey Ex).
  destruct (negb (ch =? WindSimulation.blank)%Z).
  - unfold curses.addstr. destruct (curses.inside w1 row col) eqn:Ein.
    + eexists. split; [reflexivity | ]. split; [split; assumption | ].
      intros r c. unfold curses.inch.
      cbn [curses.writes find curses.at_y curses.at_x andb].
      rewrite andb_true_r. reflexivity.
    + exists w1. split; [reflexivity | ]. split; [split; assumption | ].
      intros r c. rewrite andb_false_r. reflexivity.
  - exists w1. split; [reflexivity | ]. split; [split; assumption | ].
    intros r c. rewrite !andb_false_r. reflexivity.
Qed.

Lemma draw_density_row_inch row : forall cs w1,
  (0 <= row < WindSimulation.rows s)%Z ->
  Forall (fun col => (0 <= col < WindSimulation.cols s)%Z) cs ->
  same_size w1 ->
  exists w2,
    fold_result (WindSimulation.draw_density_cell s layer a row) cs w1
    = Ok w2 /\
    same_size w2 /\
    forall r c,
      curses.inch w2 r c
      = if (row =? r)%Z && existsb (Z.eqb c) cs && visible r c
        then Some (written r c) else curses.inch w1 r c.
Proof.
  induction cs as [ | c0 cs IH]; intros w1 Hrow Hcs Hsize.
  - exists w1. split; [reflexivity | ]. split; [exact Hsize | ].
    intros r c. cbn [existsb]. rewrite andb_false_r. reflexivity.
  - inversion Hcs as [ | ? ? Hc0 Hcs']; subst.
    destruct (draw_density_cell_inch row c0 w1 Hrow Hc0 Hsize)
      as (w2 & E2 & S2 & H2).
    destruct (IH w2 Hrow Hcs' S2) as (w3 & E3 & S3 & H3).
    exists w3. cbn [fold_result]. rewrite E2.
    split; [exact E3 | ]. split; [exact S3 | ].
    intros r c. rewrite H3, H2. cbn [existsb].
    destruct (Z.eqb_spec row r) as [-> | Hr]; cbn [andb]; [ | reflexivity].
    rewrite (Z.eqb_sym c c0).
    destruct (Z.eqb_spec c0 c) as [-> | Hc]; cbn [andb orb].
    + destruct (existsb (Z.eqb c) cs); cbn [andb];
        destruct (visible r c); reflexivity.
    + reflexivity.
Qed.

Lemma draw_density_rows_inch : forall rs w1,
  Forall (fun row => (0 <= row < WindSimulation.rows s)%Z) rs ->
  same_size w1 ->
  exists w2,
    fold_result
      (fun w2 row =>
         fold_result (WindSimulation.draw_density_cell s layer a row)
                     (range (WindSimulation.cols s)) w2)
      rs w1 = Ok w2 /\
    same_size w2 /\
    forall r c,
      curses.inch w2 r c
      = if existsb (Z.eqb r) rs
           && ((0 <=? c) && (c <? WindSimulation.cols s))%Z && visible r c
        then Some (written r c) else curses.inch w1 r c.
Proof.
  induction rs as [ | r0 rs IH]; intros w1 Hrs Hsize.
  - exists w1. split; [reflexivity | ]. split; [exact Hsize | ].
    intros r c. reflexivity.
  - inversion Hrs as [ | ? ? Hr0 Hrs']; subst.
    destruct (draw_density_row_inch r0 (range (WindSimulation.cols s)) w1
                Hr0) as (w2 & E2 & S2 & H2).
    { apply Forall_forall. intros c Hc. apply In_range in Hc. exact Hc. }
    { exact Hsize. }
    destruct (IH w2 Hrs' S2) as (w3 & E3 & S3 & H3).
    exists w3. cbn [fold_result]. rewrite E2.
    split; [exact E3 | ]. split; [exact S3 | ].
    intros r c. rewrite H3, H2, existsb_range. cbn [existsb].
    rewrite (Z.eqb_sym r r0).
    destruct (Z.eqb_spec r0 r) as [-> | Hr]; cbn [andb orb].
    + destruct (existsb (Z.eqb r) rs); cbn [andb];
        destruct (((0 <=? c) && (c <? WindSimulation.cols s))%Z);
        cbn [andb]; destruct (visible r c); reflexivity.
    + reflexivity.
Qed.

End OneLayer.

Lemma draw_density_layer_inch s w w1 k layer :
  List.length layer
  = Z.to_nat (WindSimulation.cols s * WindSimulation.rows s) ->
  curses.maxy w1 = curses.maxy w /\ curses.maxx w1 = curses.maxx w ->
  exists w2,
    WindSimulation.draw_density_layer s w1 (k, layer) = Ok w2 /\
    (curses.maxy w2 = curses.maxy w /\ curses.maxx w2 = curses.maxx w) /\
    forall row col,
      curses.inch w2 row col
      = if paints s w row col layer
        then Some (layer_write s k layer row col)
        else curses.inch w1 row col.
Proof.
  intros Hlen Hsize. unfold WindSimulation.draw_density_layer.
  cbn [fst snd]. cbv zeta. fold (layer_attr k).
  destruct (draw_density_rows_inch s w layer (layer_attr k) Hlen
              (range (WindSimulation.rows s)) w1)
    as (w2 & E & S2 & H); [ | exact Hsize | ].
  { apply Forall_forall. intros r Hr. apply In_range in Hr. exact Hr. }
  exists w2. split; [exact E | ]. split; [exact S2 | ].
  intros row col. rewrite H, existsb_range. unfold paints, layer_write.
  destruct (0 <=? row)%Z, (row <? WindSimulation.rows s)%Z,
    (0 <=? col)%Z, (col <? WindSimulation.cols s)%Z,
    (curses.inside w row col); reflexivity.
Qed.

Lemma fold_draw_density_layer_inch s w : forall numbered w1,
  Forall (fun kl : nat * list Z =>
            List.length (snd kl)
            = Z.to_nat (WindSimulation.cols s * WindSimulation.rows s))
         numbered ->
  curses.maxy w1 = curses.maxy w /\ curses.maxx w1 = curses.maxx w ->
  exists w2,
    fold_result (WindSimulation.draw_density_layer s) numbered w1 = Ok w2 /\
    (curses.maxy w2 = curses.maxy w /\ curses.maxx w2 = curses.maxx w) /\
    forall row col,
      curses.inch w2 row col
      = match find (fun kl => paints s w row col (snd kl)) (rev numbered) with
        | Some kl => Some (layer_write s (fst kl) (snd kl) row col)
        | None => curses.inch w1 row col
        end.
Proof.
  induction numbered as [ | [k layer] numbered IH]; intros w1 Hfit Hsize.
  - exists w1. repeat split; apply Hsize.
  - inversion Hfit as [ | ? ? Hlen Hfit']; subst. cbn [snd] in Hlen.
    destruct (draw_density_layer_inch s w w1 k layer Hlen Hsize)
      as (w2 & E2 & S2 & H2).
    destruct (IH w2 Hfit' S2) as (w3 & E3 & S3 & H3).
    exists w3. cbn [fold_result]. rewrite E2.
    split; [exact E3 | ]. split; [exact S3 | ].
    intros row col. rewrite H3, H2. cbn [rev]. rewrite find_app.
    destruct (find _ (rev numbered)); [reflexivity | ]. cbn [find snd fst].
    destruct (paints s w row col layer); reflexivity.
Qed.

Lemma find_last_numbered {A} (f : nat * A -> bool) : forall (l : list A) n kl,
  find f (rev (combine (seq n (List.length l)) l)) = Some kl ->
  In kl (combine (seq n (List.length l)) l) /\ f kl = true /\
  forall kl', In kl' (combine (seq n (List.length l)) l) ->
              f kl' = true -> (fst kl' <= fst kl)%nat.
Proof.
  induction l as [ | a l IH]; intros n kl Hf.
  - discriminate.
  - cbn [List.length seq combine rev] in Hf |- *. rewrite find_app in Hf.
    destruct (find f (rev (combine (seq (S n) (List.length l)) l)))
      as [kl0 | ] eqn:E.
    + injection Hf as ->. destruct (IH (S n) kl E) as (Hin & Hkl & Hmax).
      split; [right; exact Hin | ]. split; [exact Hkl | ].
      intros kl' [<- | Hin'] Hf'.
      * destruct kl as [k x]. apply in_combine_l in Hin.
        apply in_seq in Hin. cbn [fst]. lia.
      * apply Hmax; assumption.
    + cbn [find] in Hf. destruct (f (n, a)) eqn:Efa; [ | discriminate].
      injection Hf as <-. split; [left; reflexivity | ].
      split; [exact Efa | ]. intros kl' [<- | Hin'] Hf'.
      * apply Nat.le_refl.
      * pose proof (find_none _ _ E kl' (proj1 (in_rev _ _) Hin')).
        congruence.
Qed.

(** X13: on density layers of the size of the grid, [draw_density] never
    raises, and afterwards every cell shows what it showed before when no
    layer has a glyph other than a blank for it (or the cell lies outside
    of the grid or of the window), and otherwise the glyph of the
    highest-numbered layer that has one, with the attribute of that
    layer: color pair 3 for layer 0, pair 4 for layer 1, and bold pair 5
    for layer 2. *)
Theorem draw_density_composites s w :
  layers_fit s ->
  let numbered :=
    combine (seq 0 (List.length (WindSimulation.density_layers s)))
            (WindSimulation.density_layers s) in
  exists w',
    WindSimulation.draw_density s w = Ok w' /\
    (forall row col,
        match find (fun kl => paints s w row col (snd kl)) (rev numbered) with
        | Some (k, layer) =>
            curses.inch w' row col = Some (layer_write s k layer row col) /\
            In (k, layer) numbered /\
            layer_glyph s layer row col <> WindSimulation.blank /\
            forall k' layer',
              In (k', layer') numbered ->
              paints s w row col layer' = true -> (k' <= k)%nat
        | None =>
            curses.inch w' row col = curses.inch w row col /\
            forall k' layer',
              In (k', layer') numbered -> paints s w row col layer' = false
        end) /\
    look (layer_attr 0) = (3, false, false)%Z /\
    look (layer_attr 1) = (4, false, false)%Z /\
    look (layer_attr 2) = (5, true, false)%Z.
Proof.
  intros Hfit numbered. unfold WindSimulation.draw_density. fold numbered.
  destruct (fold_draw_density_layer_inch s w numbered w)
    as (w' & E & _ & H); [ | split; reflexivity | ].
  { apply Forall_forall. intros [k layer] Hin. cbn [snd].
    apply in_combine_r in Hin. unfold layers_fit in Hfit.
    rewrite Forall_forall in Hfit. apply Hfit, Hin. }
  exists w'. split; [exact E | ].
  split; [ | repeat split].
  intros row col. specialize (H row col).
  destruct (find _ (rev numbered)) as [[k layer] | ] eqn:Ef.
  - destruct (find_last_numbered _ _ _ _ Ef) as (Hin & Hp & Hmax).
    cbn [fst snd] in *. split; [exact H | ]. split; [exact Hin | ].
    split.
    + unfold paints in Hp. rewrite !andb_true_iff in Hp.
      destruct Hp as [_ Hnb]. apply negb_true_iff, Z.eqb_neq in Hnb.
      exact Hnb.
    + intros k' layer' Hin' Hp'. apply (Hmax (k', layer') Hin' Hp').
  - split; [exact H | ]. intros k' layer' Hin'.
    apply (find_none _ _ Ef (k', layer')). apply in_rev.
    rewrite rev_involutive. exact Hin'.
Qed.

Lemma draw_density_composites_witness :
  layers_fit stale_simulation /\
  exists w', WindSimulation.draw_density stale_simulation small_window = Ok w'.
Proof.
  split; [exact calm_layers_fit | ].
  destruct (draw_density_composites stale_simulation small_window
              calm_layers_fit) as (w' & E & _).
  exists w'. exact E.
Defined.

(** ** Invariants of a run *)

Lemma alive_in_scene s s' p :
  WindSimulation.rows s' = WindSimulation.rows s ->
  WindSimulation.cols s' = WindSimulation.cols s ->
  alive_in s p -> alive_in s' p.
Proof. unfold alive_in. intros -> ->. tauto. Qed.

Lemma alive_particle_ok s p : alive_in s p -> particle_ok s p.
Proof.
  intros (Hr & Hc & _ & _ & Hran). destruct Hran.
  repeat split; first [assumption | lra | lia].
Qed.

Lemma fresh_alive s p : fresh_in s p -> alive_in s p.
Proof.
  intros (Hr & Hc & _ & Hcell & Hsam).
  split; [exact Hr | ]. split; [exact Hc | ].
  split; [apply on_cell_in_bounds, Hcell | ].
  split; [ | apply sampled_in_ranges, Hsam].
  destruct Hsam. lra.
Qed.

Lemma for_each_alive s ws wd : forall ps g,
  valid_tape (tape g) ->
  (1 <= WindSimulation.rows s)%Z -> (1 <= WindSimulation.cols s)%Z ->
  Forall (alive_in s) ps ->
  exists ps' g',
    for_each (fun p => WindParticle.update p ws wd) ps g = Ok (ps', g') /\
    tape g' = tape g /\ Forall (alive_in s) ps' /\
    List.length ps' = List.length ps.
Proof.
  induction ps as [ | p ps IH]; intros g Hv Hr Hc Hps.
  - exists [], g. repeat split. constructor.
  - inversion Hps as [ | ? ? (Er & Ec & _ & Ha & Hran) Hps']; subst.
    destruct (update_alive p ws wd g Hv)
      as (p' & g1 & E1 & T1 & K1 & B1 & _ & A1 & R1);
      [rewrite Er; exact Hr | rewrite Ec; exact Hc | exact Hran | lra | ].
    destruct (IH g1) as (ps' & g2 & E2 & T2 & H2 & L2); try assumption.
    { rewrite T1. exact Hv. }
    exists (p' :: ps'), g2. cbn [for_each]. unfold bind. rewrite E1, E2.
    unfold ret. split; [reflexivity | ]. split; [congruence | ].
    split; [ | cbn [List.length]; congruence].
    constructor; [ | exact H2].
    unfold kept in K1. injection K1 as Kr Kc _ _.
    split; [congruence | ]. split; [congruence | ].
    split; [exact B1 | ]. split; [exact A1 | exact R1].
Qed.

Lemma handle_key_fields s w k s' :
  handle_key s w k = Some s' ->
  WindSimulation.gust_active s' = WindSimulation.gust_active s /\
  WindSimulation.gust_timer s' = WindSimulation.gust_timer s /\
  WindSimulation.gust_strength s' = WindSimulation.gust_strength s /\
  WindSimulation.frame_count s' = WindSimulation.frame_count s /\
  (WindSimulation.wind_direction s' = WindSimulation.wind_direction s
   \/ WindSimulation.wind_direction s' = 1%Z
   \/ WindSimulation.wind_direction s' = (-1)%Z) /\
  (WindSimulation.particles s' = []
   \/ (WindSimulation.particles s' = WindSimulation.particles s /\
       WindSimulation.rows s' = WindSimulation.rows s /\
       WindSimulation.cols s' = WindSimulation.cols s)).
Proof.
  intros Hk. unfold handle_key in Hk.
  destruct (_ || _ || _)%bool; [discriminate | ].
  destruct (_ || _)%bool.
  { injection Hk as <-.
    cbn [WindSimulation.show_density WindSimulation.set_show_density].
    destruct (negb _); repeat split; auto. }
  destruct (_ || _)%bool.
  { injection Hk as <-. repeat split; auto. }
  destruct (k =? ord_plus)%Z.
  { injection Hk as <-. repeat split; auto. }
  destruct (k =? ord_minus)%Z.
  { injection Hk as <-. repeat split; auto. }
  destruct (k =? curses.KEY_RIGHT)%Z.
  { injection Hk as <-. repeat split; auto. }
  destruct (k =? curses.KEY_LEFT)%Z.
  { injection Hk as <-. repeat split; auto. }
  destruct (k =? curses.KEY_RESIZE)%Z.
  { injection Hk as <-. repeat split; auto. }
  injection Hk as <-. repeat split; auto.
Qed.

Lemma handle_key_healthy s w k s' :
  handle_key s w k = Some s' ->
  (1 <= curses.maxy w)%Z -> (1 <= curses.maxx w)%Z ->
  healthy s ->
  healthy s' /\
  WindSimulation.frame_count s' = WindSimulation.frame_count s.
Proof.
  intros Hk Hy Hx [Hs Hb Hg Hd Hp].
  destruct (handle_key_spec s w k s' Hk Hy Hx Hs) as (Hs' & Hb' & _).
  destruct (handle_key_fields s w k s' Hk)
    as (Ea & Et & Eg & Ef & Ed & Ep).
  split; [ | exact Ef]. constructor.
  - exact Hs'.
  - exact (Hb' Hb).
  - unfold gust_window in *. rewrite Ea, Et, Eg. exact Hg.
  - unfold unit_direction in *. destruct Ed as [-> | [-> | ->]]; auto.
  - destruct Ep as [-> | (-> & Er & Ec)]; [constructor | ].
    eapply Forall_impl; [ | exact Hp]. intros p.
    apply alive_in_scene; assumption.
Qed.

Lemma handle_key_quits s w k : handle_key s w k = None <-> quits k = true.
Proof.
  unfold handle_key, quits.
  destruct (_ || _ || _)%bool; [tauto | ].
  split; [ | discriminate].
  repeat match goal with
         | |- context [if ?b then _ else _] => destruct b
         end; discriminate.
Qed.

Lemma update_wind_pattern_frame_count s g s' g' :
  WindSimulation.update_wind_pattern s g = Ok (s', g') ->
  WindSimulation.frame_count s' = WindSimulation.frame_count s.
Proof.
  intros H. unfold WindSimulation.update_wind_pattern in H.
  apply bind_ok in H as (s1 & g1 & E1 & H).
  apply bind_ok in H as (s2 & g2 & E2 & E3).
  assert (F1 : WindSimulation.frame_count s1 = WindSimulation.frame_count s).
  { revert E1. unfold WindSimulation.trigger_gust.
    destruct (negb _); [ | unfold ret; intros E; injection E as <- _;
                           reflexivity].
    draw_step. destruct (Rltb _ _); [draw_step | ]; unfold ret;
      intros E; injection E as <- _; reflexivity. }
  assert (F2 : WindSimulation.frame_count s2 = WindSimulation.frame_count s1).
  { revert E2. unfold WindSimulation.blow.
    destruct (WindSimulation.gust_active s1);
      [ | unfold ret; intros E; injection E as <- _; reflexivity].
    draw_step. destruct (Rltb _ _); unfold ret;
      intros E; injection E as <- _; reflexivity. }
  revert E3. unfold WindSimulation.turn. draw_step.
  destruct (Rltb _ _); unfold ret; intros E; injection E as <- _;
    wind_fields; congruence.
Qed.

Lemma update_wind_and_spawn_healthy s g :
  valid_tape (tape g) -> healthy s ->
  exists s' g',
    WindSimulation.update_wind_and_spawn s g = Ok (s', g') /\
    tape g' = tape g /\ healthy s' /\ full s' /\ wind_in_bounds s' /\
    WindSimulation.frame_count s' = (WindSimulation.frame_count s + 1)%Z.
Proof.
  intros Hv [Hs Hb Hg Hd Hp].
  unfold WindSimulation.update_wind_and_spawn, bind.
  set (s0 := WindSimulation.set_frame_count s
               (WindSimulation.frame_count s + 1)).
  destruct (update_wind_pattern_bounds s0 g Hv Hg Hd)
    as (s1 & g1 & E1 & T1 & Hg1 & Hw1 & Hd1).
  destruct (update_wind_pattern_scene s0 g)
    as (s1' & g1' & E1' & _ & Hscene).
  rewrite E1 in E1'. injection E1' as <- <-.
  pose proof (update_wind_pattern_frame_count s0 g s1 g1 E1) as Ef.
  rewrite E1.
  assert (Hscene' : same_scene s s1).
  { apply same_scene_trans with s0; [repeat split | exact Hscene]. }
  pose proof (sound_scene s s1 Hscene' Hs) as Hs1.
  destruct Hscene' as (_ & _ & Eh & Ep & Er & Ec & _).
  assert (Et : WindSimulation.target_count s1 = WindSimulation.target_count s)
    by (apply target_count_scene; assumption).
  assert (Epop : population s1 = population s)
    by (unfold population; rewrite Ep; reflexivity).
  unfold WindSimulation.generate_particles. fold (population s1).
  destruct (spawn_fresh
              (Z.to_nat (WindSimulation.target_count s1 - population s1))
              (WindSimulation.target_count s1) s1 g1)
    as (new & g2 & E2 & T2 & _ & Hnew & Hlen).
  { rewrite T1. exact Hv. }
  { apply Hs1. }
  { apply Hs1. }
  rewrite E2.
  set (s2 := WindSimulation.set_particles s1
               (WindSimulation.particles s1 ++ new)).
  assert (Halive : Forall (alive_in s2) (WindSimulation.particles s2)).
  { unfold s2. cbn [WindSimulation.set_particles WindSimulation.particles].
    apply Forall_app. split.
    - rewrite Ep. eapply Forall_impl; [ | exact Hp]. intros p.
      apply alive_in_scene; cbn [WindSimulation.rows WindSimulation.cols];
        assumption.
    - eapply Forall_impl; [ | exact Hnew]. intros p Hf.
      apply (alive_in_scene s1); [reflexivity | reflexivity | ].
      apply fresh_alive, Hf. }
  assert (Hfull : full s2).
  { unfold full, population, s2.
    cbn [WindSimulation.set_particles WindSimulation.particles].
    rewrite length_app, Nat2Z.inj_add. fold (population s1).
    change (WindSimulation.target_count
              (WindSimulation.set_particles s1
                 (WindSimulation.particles s1 ++ new)))
      with (WindSimulation.target_count s1).
    unfold bounded in Hb. lia. }
  exists s2, g2. split; [reflexivity | ]. split; [congruence | ].
  split; [ | split; [exact Hfull | split; [exact Hw1 | exact Ef]]].
  constructor.
  - apply sound_set_particles; [exact Hs1 | ].
    eapply Forall_impl; [ | exact Halive]. intros p.
    apply alive_particle_ok.
  - unfold bounded. rewrite Hfull. lia.
  - exact Hg1.
  - exact Hd1.
  - exact Halive.
Qed.

Lemma update_particles_healthy s g :
  valid_tape (tape g) -> healthy s ->
  exists s' g',
    WindSimulation.update_particles s g = Ok (s', g') /\
    tape g' = tape g /\ healthy s' /\
    (full s -> full s') /\ (wind_in_bounds s -> wind_in_bounds s') /\
    WindSimulation.frame_count s' = WindSimulation.frame_count s.
Proof.
  intros Hv [Hs Hb Hg Hd Hp]. unfold WindSimulation.update_particles.
  destruct (for_each_alive s (WindSimulation.wind_strength s)
              (WindSimulation.wind_direction s)
              (WindSimulation.particles s) g Hv
              (sound_rows s Hs) (sound_cols s Hs) Hp)
    as (ps & g1 & E & T & Hps & Hlen).
  unfold bind. rewrite E.
  set (s1 := WindSimulation.set_particles s ps).
  assert (Hs1 : sound s1).
  { apply sound_set_particles; [exact Hs | ].
    eapply Forall_impl; [ | exact Hps]. intros p. apply alive_particle_ok. }
  assert (Hpop : population s1 = population s).
  { unfold population, s1. cbn [WindSimulation.set_particles
                                WindSimulation.particles]. lia. }
  assert (H1 : healthy s1).
  { constructor; try assumption. unfold bounded in *. rewrite Hpop.
    exact Hb. }
  assert (F1 : full s -> full s1).
  { unfold full. rewrite Hpop. trivial. }
  destruct (WindSimulation.show_density s1).
  - destruct (update_density_map_total s1 Hs1) as (layers & Em & [Hl Hf]).
    unfold lift. rewrite Em. eexists; eexists. split; [reflexivity | ].
    split; [exact T | ].
    split; [ | split; [exact F1 | split; [exact (fun H => H) | reflexivity]]].
    destruct H1 as [[Hr Hc Hp1 _ _] Hb1 Hg1 Hd1 Ha1].
    constructor; try assumption. constructor; assumption.
  - exists s1, g1. split; [reflexivity | ]. split; [exact T | ].
    split; [exact H1 | ].
    split; [exact F1 | split; [exact (fun H => H) | reflexivity]].
Qed.

Lemma init_healthy w color density high :
  (1 <= curses.maxy w)%Z -> (1 <= curses.maxx w)%Z ->
  healthy (WindSimulation.init w color density high).
Proof.
  intros Hy Hx. destruct (init_sound w color density high Hy Hx) as [Hs Hb].
  constructor; try assumption.
  - intros H. discriminate.
  - left. reflexivity.
  - constructor.
Qed.

Lemma wind_simulation_loop_until_quit inputs : forall s w g,
  wind_simulation_loop inputs s w g
  = wind_simulation_loop (until_quit inputs) s w g.
Proof.
  induction inputs as [ | i inputs IH]; intros s w g; [reflexivity | ].
  cbn [until_quit wind_simulation_loop].
  destruct (quits (key i)) eqn:Eq.
  - apply (handle_key_quits s
             (curses.mkWindow (fst (terminal i)) (snd (terminal i))
                              (curses.writes w))) in Eq.
    rewrite Eq. reflexivity.
  - cbn [wind_simulation_loop].
    destruct (handle_key _ _ _) as [s1 | ]; [ | reflexivity].
    unfold bind.
    destruct (WindSimulation.update_wind_and_spawn s1 g) as [[s2 g2] | e];
      [ | reflexivity].
    destruct (WindSimulation.update_particles s2 g2) as [[s3 g3] | e];
      [ | reflexivity].
    unfold lift. destruct (WindSimulation.draw s3 _) as [w' | e];
      [ | reflexivity].
    rewrite IH. reflexivity.
Qed.

Lemma wind_simulation_loop_healthy inputs : forall s w g,
  valid_tape (tape g) -> healthy s -> Forall terminal_ok inputs ->
  exists frames g',
    wind_simulation_loop inputs s w g = Ok (frames, g') /\
    tape g' = tape g /\
    Forall (fun f => healthy (spawned f) /\ full (spawned f) /\
                     healthy (state f) /\ full (state f) /\
                     wind_in_bounds (state f)) frames /\
    List.length frames = List.length (until_quit inputs) /\
    counts_from (WindSimulation.frame_count s) frames.
Proof.
  induction inputs as [ | i inputs IH]; intros s w g Hv Hs Hin.
  - exists [], g. repeat split. constructor.
  - inversion Hin as [ | ? ? [Hy Hx] Hin']; subst.
    cbn [wind_simulation_loop until_quit].
    set (stdscr := curses.mkWindow (fst (terminal i)) (snd (terminal i))
                                   (curses.writes w)).
    destruct (handle_key s stdscr (key i)) as [s1 | ] eqn:Ek.
    + assert (Eq : quits (key i) = false).
      { destruct (quits (key i)) eqn:Eq; [ | reflexivity].
        apply (handle_key_quits s stdscr) in Eq. congruence. }
      rewrite Eq.
      destruct (handle_key_healthy s stdscr (key i) s1 Ek Hy Hx Hs)
        as (Hs1 & Ef1).
      destruct (update_wind_and_spawn_healthy s1 g Hv Hs1)
        as (s2 & g2 & E2 & T2 & Hs2 & Hf2 & Hw2 & Ef2).
      destruct (update_particles_healthy s2 g2)
        as (s3 & g3 & E3 & T3 & Hs3 & Hf3 & Hw3 & Ef3).
      { rewrite T2. exact Hv. }
      { exact Hs2. }
      destruct (draw_total s3 stdscr
                  (sound_fit s3 (healthy_sound s3 Hs3))) as (w' & Ed).
      destruct (IH s3 w' g3) as (frames & g' & E & T & Hframes & Hlen & Hcnt);
        try assumption.
      { rewrite T3, T2. exact Hv. }
      exists (mkFrame s2 s3 w' :: frames), g'.
      unfold bind. rewrite E2, E3. unfold lift. rewrite Ed, E. unfold ret.
      assert (Ef : WindSimulation.frame_count s3
                   = (WindSimulation.frame_count s + 1)%Z) by congruence.
      split; [reflexivity | ]. split; [congruence | ].
      split; [ | split].
      * constructor; [ | exact Hframes]. cbn [spawned state]. auto 10.
      * cbn [List.length]. rewrite Hlen. reflexivity.
      * cbn [counts_from state]. split; [exact Ef | ].
        rewrite <- Ef. exact Hcnt.
    + apply (handle_key_quits s stdscr) in Ek. rewrite Ek.
      exists [], g. repeat split. constructor.
Qed.

Lemma in_bounds_in_grid s p :
  WindParticle.max_rows p = WindSimulation.rows s ->
  WindParticle.max_cols p = WindSimulation.cols s ->
  in_bounds p -> WindSimulation.in_grid s p = true.
Proof.
  intros Er Ec Hb. destruct (in_bounds_cell p Hb) as [Hy Hx].
  unfold WindSimulation.in_grid, WindSimulation.cell_of. cbn [fst snd].
  rewrite <- Er, <- Ec.
  rewrite !andb_true_iff, !Z.leb_le, !Z.ltb_lt. lia.
Qed.

(** X14: in every run (on a terminal of at least one row and one
    column, with draws of [random()] in [0, 1)) the population equals the
    target count of [generate_particles] right after the spawn step and
    at the end of every tick: whatever the keys, the population is never
    below the target when a frame is drawn. *)
Theorem run_keeps_population_full size color density high inputs g :
  valid_tape (tape g) ->
  (1 <= fst size)%Z -> (1 <= snd size)%Z ->
  Forall terminal_ok inputs ->
  exists frames g',
    wind_simulation size color density high inputs g = Ok (frames, g') /\
    Forall (fun f =>
              population (spawned f)
              = WindSimulation.target_count (spawned f) /\
              population (state f)
              = WindSimulation.target_count (state f))
           frames.
Proof.
  intros Hv Hy Hx Hin. unfold wind_simulation.
  set (stdscr := curses.mkWindow (fst size) (snd size) []).
  destruct (wind_simulation_loop_healthy inputs
              (WindSimulation.init stdscr color density high) stdscr g Hv
              (init_healthy stdscr color density high Hy Hx) Hin)
    as (frames & g' & E & _ & Hframes & _).
  exists frames, g'. split; [exact E | ].
  eapply Forall_impl; [ | exact Hframes].
  intros f (_ & Hf2 & _ & Hf3 & _). split; [exact Hf2 | exact Hf3].
Qed.

Lemma busy_inputs_ok : Forall terminal_ok busy_inputs.
Proof. repeat constructor; cbn; lia. Qed.

Lemma run_keeps_population_full_witness :
  valid_tape (tape steady) /\ Forall terminal_ok busy_inputs /\
  exists frames g',
    wind_simulation (24, 80)%Z "cyan" false true busy_inputs steady
    = Ok (frames, g') /\
    Forall (fun f =>
              population (spawned f)
              = WindSimulation.target_count (spawned f) /\
              population (state f)
              = WindSimulation.target_count (state f))
           frames.
Proof.
  split; [exact steady_valid | split; [exact busy_inputs_ok | ]].
  apply (run_keeps_population_full (24, 80)%Z "cyan" false true
           busy_inputs steady steady_valid);
    [cbn; lia | cbn; lia | exact busy_inputs_ok].
Defined.

(** X15: in every run, at the end of every tick the base strength is in
    [0.5, 1.8], the wind strength is at least the base strength and less
    than 5 above it (so in [0.5, 6.8)), the direction is 1 or -1, and an
    active gust has a timer in [0, 1.2) and a strength in [2.5, 5). *)
Theorem run_keeps_wind_within_bounds size color density high inputs g :
  valid_tape (tape g) ->
  (1 <= fst size)%Z -> (1 <= snd size)%Z ->
  Forall terminal_ok inputs ->
  exists frames g',
    wind_simulation size color density high inputs g = Ok (frames, g') /\
    Forall (fun f =>
              let s := state f in
              0.5 <= WindSimulation.base_wind_strength s <= 1.8 /\
              WindSimulation.base_wind_strength s
              <= WindSimulation.wind_strength s
              < WindSimulation.base_wind_strength s + 5 /\
              0.5 <= WindSimulation.wind_strength s < 6.8 /\
              (WindSimulation.wind_direction s = 1%Z
               \/ WindSimulation.wind_direction s = (-1)%Z) /\
              (WindSimulation.gust_active s = true ->
               0 <= WindSimulation.gust_timer s < 1.2 /\
               2.5 <= WindSimulation.gust_strength s < 5))
           frames.
Proof.
  intros Hv Hy Hx Hin. unfold wind_simulation.
  set (stdscr := curses.mkWindow (fst size) (snd size) []).
  destruct (wind_simulation_loop_healthy inputs
              (WindSimulation.init stdscr color density high) stdscr g Hv
              (init_healthy stdscr color density high Hy Hx) Hin)
    as (frames & g' & E & _ & Hframes & _).
  exists frames, g'. split; [exact E | ].
  eapply Forall_impl; [ | exact Hframes].
  intros f (_ & _ & [_ _ Hg Hd _] & _ & [Hb Hw]). cbv zeta.
  split; [exact Hb | ]. split; [exact Hw | ]. split; [lra | ].
  split; [exact Hd | exact Hg].
Qed.

Lemma run_keeps_wind_within_bounds_witness :
  valid_tape (tape steady) /\ Forall terminal_ok busy_inputs /\
  exists frames g',
    wind_simulation (24, 80)%Z "cyan" false true busy_inputs steady
    = Ok (frames, g') /\
    Forall (fun f => 0.5 <= WindSimulation.wind_strength (state f) < 6.8)
           frames.
Proof.
  split; [exact steady_valid | split; [exact busy_inputs_ok | ]].
  destruct (run_keeps_wind_within_bounds (24, 80)%Z "cyan" false true
              busy_inputs steady steady_valid)
    as (frames & g' & E & H);
    [cbn; lia | cbn; lia | exact busy_inputs_ok | ].
  exists frames, g'. split; [exact E | ].
  eapply Forall_impl; [ | exact H]. intros f (_ & _ & Hw & _). exact Hw.
Defined.

(** X16: in every run, at the end of every tick every particle carries
    the grid size of the simulation, lies within the grid (so the bounds
    test of [draw_particles] and of [update_density_map] never rejects a
    particle), is younger than its lifetime, and has its sampled fields in
    their ranges. *)
Theorem run_keeps_particles_in_grid size color density high inputs g :
  valid_tape (tape g) ->
  (1 <= fst size)%Z -> (1 <= snd size)%Z ->
  Forall terminal_ok inputs ->
  exists frames g',
    wind_simulation size color density high inputs g = Ok (frames, g') /\
    Forall (fun f =>
              Forall (fun p =>
                        WindParticle.max_rows p
                        = WindSimulation.rows (state f) /\
                        WindParticle.max_cols p
                        = WindSimulation.cols (state f) /\
                        in_bounds p /\
                        WindSimulation.in_grid (state f) p = true /\
                        0 <= WindParticle.age p < WindParticle.lifetime p /\
                        in_ranges p)
                     (WindSimulation.particles (state f)))
           frames.
Proof.
  intros Hv Hy Hx Hin. unfold wind_simulation.
  set (stdscr := curses.mkWindow (fst size) (snd size) []).
  destruct (wind_simulation_loop_healthy inputs
              (WindSimulation.init stdscr color density high) stdscr g Hv
              (init_healthy stdscr color density high Hy Hx) Hin)
    as (frames & g' & E & _ & Hframes & _).
  exists frames, g'. split; [exact E | ].
  eapply Forall_impl; [ | exact Hframes].
  intros f (_ & _ & [_ _ _ _ Hp] & _).
  eapply Forall_impl; [ | exact Hp].
  intros p (Er & Ec & Hb & Ha & Hran).
  repeat (split; [assumption | ]).
  split; [apply in_bounds_in_grid; assumption | ]. split; assumption.
Qed.

Lemma run_keeps_particles_in_grid_witness :
  valid_tape (tape steady) /\ Forall terminal_ok busy_inputs /\
  exists frames g',
    wind_simulation (24, 80)%Z "cyan" false true busy_inputs steady
    = Ok (frames, g') /\
    Forall (fun f =>
              Forall (fun p => WindSimulation.in_grid (state f) p = true)
                     (WindSimulation.particles (state f)))
           frames.
Proof.
  split; [exact steady_valid | split; [exact busy_inputs_ok | ]].
  destruct (run_keeps_particles_in_grid (24, 80)%Z "cyan" false true
              busy_inputs steady steady_valid)
    as (frames & g' & E & H);
    [cbn; lia | cbn; lia | exact busy_inputs_ok | ].
  exists frames, g'. split; [exact E | ].
  eapply Forall_impl; [ | exact H]. intros f Hf.
  eapply Forall_impl; [ | exact Hf]. intros p (_ & _ & _ & Hg & _). exact Hg.
Defined.

(** X17: [q], [Q] and Escape (27) are the only keys that end the loop,
    and they end it before the update of that tick.  A run is the run on
    the inputs before the first of these keys: it has one frame for each
    of them, and the frame counter of the simulation is the number of the
    frame. *)
Theorem run_stops_at_quit_key size color density high inputs g :
  valid_tape (tape g) ->
  (1 <= fst size)%Z -> (1 <= snd size)%Z ->
  Forall terminal_ok inputs ->
  (forall s w k,
      handle_key s w k = None <-> (k = 113 \/ k = 81 \/ k = 27)%Z) /\
  wind_simulation size color density high inputs g
  = wind_simulation size color density high (until_quit inputs) g /\
  exists frames g',
    wind_simulation size color density high inputs g = Ok (frames, g') /\
    List.length frames = List.length (until_quit inputs) /\
    counts_from 0 frames.
Proof.
  intros Hv Hy Hx Hin. split; [ | split].
  - intros s w k. rewrite handle_key_quits. unfold quits.
    rewrite !orb_true_iff, !Z.eqb_eq. unfold ord_q, ord_Q. tauto.
  - apply wind_simulation_loop_until_quit.
  - unfold wind_simulation.
    set (stdscr := curses.mkWindow (fst size) (snd size) []).
    destruct (wind_simulation_loop_healthy inputs
                (WindSimulation.init stdscr color density high) stdscr g Hv
                (init_healthy stdscr color density high Hy Hx) Hin)
      as (frames & g' & E & _ & _ & Hlen & Hcnt).
    exists frames, g'. split; [exact E | ]. split; [exact Hlen | exact Hcnt].
Qed.

Lemma run_stops_at_quit_key_witness :
  valid_tape (tape steady) /\ Forall terminal_ok quit_inputs /\
  exists frames g',
    wind_simulation (24, 80)%Z "cyan" false true quit_inputs steady
    = Ok (frames, g') /\
    List.length frames = 1%nat.
Proof.
  assert (Hin : Forall terminal_ok quit_inputs).
  { repeat constructor; cbn; lia. }
  split; [exact steady_valid | split; [exact Hin | ]].
  destruct (run_stops_at_quit_key (24, 80)%Z "cyan" false true
              quit_inputs steady steady_valid)
    as (_ & _ & frames & g' & E & Hlen & _);
    [cbn; lia | cbn; lia | exact Hin | ].
  exists frames, g'. split; [exact E | exact Hlen].
Defined.

(** ** setup_colors *)

Lemma dict_get_missing {V} (d : list (string * V)) k default :
  ~ In k (map fst d) -> dict_get d k default = default.
Proof.
  induction d as [ | [k' v] d IH]; intros Hn; [reflexivity | ].
  cbn [dict_get]. destruct (String.eqb_spec k k') as [-> | Hk].
  - exfalso. apply Hn. left. reflexivity.
  - apply IH. intros Hin. apply Hn. right. exact Hin.
Qed.

Lemma dict_get_found {V} (d : list (string * V)) k v default :
  NoDup (map fst d) -> In (k, v) d -> dict_get d k default = v.
Proof.
  induction d as [ | [k' v'] d IH]; intros Hnd Hin; [contradiction | ].
  cbn [map fst] in Hnd. inversion Hnd as [ | ? ? Hk' Hnd']; subst.
  cbn [dict_get]. destruct Hin as [E | Hin].
  - injection E as -> ->. rewrite String.eqb_refl. reflexivity.
  - destruct (String.eqb_spec k k') as [-> | Hk].
    + exfalso. apply Hk'. apply (in_map fst) in Hin. exact Hin.
    + apply IH; assumption.
Qed.

Lemma dict_get_cases {V} (d : list (string * V)) k default :
  dict_get d k default = default \/ In (k, dict_get d k default) d.
Proof.
  induction d as [ | [k' v] d IH]; [left; reflexivity | ].
  cbn [dict_get]. destruct (String.eqb_spec k k') as [-> | Hk].
  - right. left. reflexivity.
  - destruct IH as [IH | IH]; [left; exact IH | right; right; exact IH].
Qed.

(** X18: [setup_colors] registers nothing on a terminal without colors,
    and otherwise the color pairs 1 to 6, all on the same background
    (the default [-1] when colors can be changed, black otherwise).  The
    foreground of pair 1 is always one of the eight curses colors: the
    color [CURSES_COLOR_MAP] has for the lowercased name, and cyan for a
    name it does not have. *)
Theorem setup_colors_registers s (can_change_color : bool) :
  let bg := if can_change_color then (-1)%Z else curses.COLOR_BLACK in
  WindSimulation.setup_colors s false can_change_color = [] /\
  (exists fg,
      WindSimulation.setup_colors s true can_change_color
      = [(1, (fg, bg)); (2, (curses.COLOR_WHITE, bg));
         (3, (curses.COLOR_BLUE, bg)); (4, (curses.COLOR_CYAN, bg));
         (5, (curses.COLOR_WHITE, bg)); (6, (curses.COLOR_MAGENTA, bg))]%Z /\
      (0 <= fg <= 7)%Z /\
      (forall name v,
          In (name, v) CURSES_COLOR_MAP ->
          lower (WindSimulation.wind_color s) = name -> fg = v) /\
      (~ In (lower (WindSimulation.wind_color s)) (map fst CURSES_COLOR_MAP) ->
       fg = curses.COLOR_CYAN)).
Proof.
  intros bg. split; [reflexivity | ].
  exists (dict_get CURSES_COLOR_MAP (lower (WindSimulation.wind_color s))
                   curses.COLOR_CYAN).
  split; [reflexivity | ]. split; [ | split].
  - destruct (dict_get_cases CURSES_COLOR_MAP
                (lower (WindSimulation.wind_color s)) curses.COLOR_CYAN)
      as [-> | Hin]; [unfold curses.COLOR_CYAN; lia | ].
    revert Hin. generalize (dict_get CURSES_COLOR_MAP
                              (lower (WindSimulation.wind_color s))
                              curses.COLOR_CYAN).
    intros z Hin. unfold CURSES_COLOR_MAP in Hin. cbn [In] in Hin.
    unfold curses.COLOR_BLACK, curses.COLOR_RED, curses.COLOR_GREEN,
      curses.COLOR_YELLOW, curses.COLOR_BLUE, curses.COLOR_MAGENTA,
      curses.COLOR_CYAN, curses.COLOR_WHITE in Hin.
    repeat (destruct Hin as [E | Hin]; [injection E as _ <-; lia | ]).
    contradiction.
  - intros name v Hin <-. apply dict_get_found; [ | exact Hin].
    cbn. repeat constructor; cbn; intuition discriminate.
  - apply dict_get_missing.
Qed.
